(** * quick-scraper: the Blinkit scrape-and-extract pipeline

    A shallow embedding of the pure core of [backend/blinkit]:
    quantity normalisation and the tolerance match, term-token matching,
    CSV serialisation, sponsorship detection and product extraction over
    the intercepted JSON payload, the location setter's retry loop and the
    batch orchestrator's validation, expansion and filter pipeline.

    Conventions of the model:
    - a JavaScript string is a [string]: a sequence of code units, each below
      256 (the Latin-1 range, closed under [toLowerCase] and [trim]);
    - a JavaScript number is an element of a type with the operations the
      code applies to it ([JsNumber]); the instance [double] is IEEE 754
      binary64 arithmetic, every operation rounding its exact result to the
      nearest double;
    - a parsed JSON value is a tree ([json]); an object is the list of its
      entries, a property read returns [None] for [undefined];
    - a call that can throw returns a [result]. *)

From Stdlib Require Import String Ascii List Bool Arith NArith ZArith QArith Qabs Qpower Lia Lqa
  DecimalString.
Import ListNotations.
Local Close Scope Q_scope.
Local Open Scope nat_scope.
Local Open Scope bool_scope.
Local Open Scope list_scope.
Local Open Scope string_scope.

Set Implicit Arguments.

(** ** Characters and strings *)

Definition code (c : ascii) : N := N_of_ascii c.

Definition between (lo hi : N) (c : ascii) : bool :=
  (N.leb lo (code c) && N.leb (code c) hi)%bool.

(** The double quote, code unit 34. *)
Definition dquote : ascii := Ascii false true false false false true false false.
(** Line feed, code unit 10. *)
Definition newline : ascii := Ascii false true false true false false false false.
(** Carriage return, code unit 13. *)
Definition carriageReturn : ascii := Ascii true false true true false false false false.

Definition isDigit (c : ascii) : bool := between 48 57 c.
Definition isUpper (c : ascii) : bool := between 65 90 c.
Definition isLower (c : ascii) : bool := between 97 122 c.
(** [[a-zA-Z]] *)
Definition isAlpha (c : ascii) : bool := isUpper c || isLower c.
(** Word characters of [\b] and [\w]: [[A-Za-z0-9_]]. *)
Definition isWordChar (c : ascii) : bool := isAlpha c || isDigit c || N.eqb (code c) 95.
(** [\s], and the characters [trim] strips: TAB, LF, VT, FF, CR, SP, NBSP. *)
Definition isSpace (c : ascii) : bool :=
  between 9 13 c || N.eqb (code c) 32 || N.eqb (code c) 160.

(** [toLowerCase] on one code unit: A-Z, and the Latin-1 capitals
    U+00C0..U+00DE except the multiplication sign U+00D7. *)
Definition toLowerChar (c : ascii) : ascii :=
  if isUpper c || (between 192 222 c && negb (N.eqb (code c) 215))
  then ascii_of_N (code c + 32) else c.

Fixpoint toLowerCase (s : string) : string :=
  match s with
  | EmptyString => EmptyString
  | String c r => String (toLowerChar c) (toLowerCase r)
  end.

(** Equality of characters under the [i] flag. *)
Definition ci_eqb (a b : ascii) : bool := Ascii.eqb (toLowerChar a) (toLowerChar b).

Fixpoint dropWhile (p : ascii -> bool) (s : string) : string :=
  match s with
  | EmptyString => EmptyString
  | String c r => if p c then dropWhile p r else s
  end.

Fixpoint takeWhile (p : ascii -> bool) (s : string) : string :=
  match s with
  | EmptyString => EmptyString
  | String c r => if p c then String c (takeWhile p r) else EmptyString
  end.

Fixpoint rev_string_acc (s acc : string) : string :=
  match s with
  | EmptyString => acc
  | String c r => rev_string_acc r (String c acc)
  end.
Definition rev_string (s : string) : string := rev_string_acc s EmptyString.

Definition trimStart (s : string) : string := dropWhile isSpace s.
Definition trimEnd (s : string) : string := rev_string (dropWhile isSpace (rev_string s)).
Definition trim (s : string) : string := trimEnd (trimStart s).

(** [s.startsWith(p)] *)
Fixpoint startsWith (p s : string) : bool :=
  match p, s with
  | EmptyString, _ => true
  | String a p', String b s' => Ascii.eqb a b && startsWith p' s'
  | String _ _, EmptyString => false
  end.

(** [s.startsWith(p)] under the [i] flag. *)
Fixpoint startsWith_ci (p s : string) : bool :=
  match p, s with
  | EmptyString, _ => true
  | String a p', String b s' => ci_eqb a b && startsWith_ci p' s'
  | String _ _, EmptyString => false
  end.

(** The rest of [s] after the prefix [p] (of the same length as [p]). *)
Fixpoint dropPrefix (p s : string) : string :=
  match p, s with
  | EmptyString, _ => s
  | String _ p', String _ s' => dropPrefix p' s'
  | String _ _, EmptyString => EmptyString
  end.

(** [s.includes(p)] *)
Fixpoint includes (p s : string) : bool :=
  startsWith p s ||
  match s with
  | EmptyString => false
  | String _ r => includes p r
  end.

Definition endsWith (p s : string) : bool := startsWith (rev_string p) (rev_string s).

(** [s.slice(0, -n)] *)
Definition dropEnd (n : nat) (s : string) : string := substring 0 (String.length s - n) s.

Definition nonEmpty (s : string) : bool :=
  match s with EmptyString => false | String _ _ => true end.

Definition headIs (p : ascii -> bool) (s : string) : bool :=
  match s with EmptyString => false | String c _ => p c end.

(** Some suffix of [s] satisfies [p]: an unanchored search. *)
Fixpoint existsSuffix (p : string -> bool) (s : string) : bool :=
  p s ||
  match s with
  | EmptyString => false
  | String _ r => existsSuffix p r
  end.

(** [s.includes(p)] under the [i] flag. *)
Definition includes_ci (p s : string) : bool := existsSuffix (startsWith_ci p) s.

(** [/\b(w1|w2|...)\b/i.test(s)] for words made of letters: some word of
    [ws] occurs with no word character on either side; [prevWord] tells
    whether the character before [s] is a word character. *)
Fixpoint searchWord (ws : list string) (prevWord : bool) (s : string) : bool :=
  match s with
  | EmptyString => false
  | String c r =>
      (negb prevWord &&
       existsb (fun w => startsWith_ci w s && negb (headIs isWordChar (dropPrefix w s))) ws)
      || searchWord ws (isWordChar c) r
  end.

(** Membership in a [Set] of strings. *)
Definition has (l : list string) (s : string) : bool := existsb (String.eqb s) l.

(** [str.split(sep)] for a separator regex of the form [[class]+]: the pieces
    between maximal runs of separator characters, with the empty pieces
    JavaScript reports at either end. *)
Fixpoint splitRuns (isSep : ascii -> bool) (s cur : string) (inSep : bool) : list string :=
  match s with
  | EmptyString => [cur]
  | String c r =>
      if isSep c
      then (if inSep then splitRuns isSep r cur true
            else cur :: splitRuns isSep r EmptyString true)
      else splitRuns isSep r (cur ++ String c EmptyString) false
  end.

Definition split (isSep : ascii -> bool) (s : string) : list string :=
  splitRuns isSep s EmptyString false.

(** ** Numbers *)

(** The arithmetic the code performs on JavaScript numbers.  What is proved
    about texts, lists and control flow holds for any implementation of
    these operations; what is proved about numbers is proved for [double]. *)
Class JsNumber (num : Type) := {
  (** [parseFloat] *)
  parseFloat : string -> num;
  num_mul : num -> num -> num;
  num_div : num -> num -> num;
  num_sub : num -> num -> num;
  (** [Math.abs] *)
  num_abs : num -> num;
  (** [a <= b] *)
  num_leb : num -> num -> bool;
  (** [a > b] *)
  num_gtb : num -> num -> bool;
  (** [Number.isNaN] *)
  num_isNaN : num -> bool;
  (** truthiness: neither zero nor NaN *)
  num_truthy : num -> bool;
  (** [String(n)] *)
  num_toString : num -> string;
  (** [n.toFixed(digits)] *)
  num_toFixed : nat -> num -> string;
  (** [Number(s)], the coercion of a string in a comparison *)
  num_ofString : string -> num
}.

(** ** IEEE 754 doubles

    A double is NaN, an infinity, the negative zero, or a rational: the
    positive zero and the finite values other than zero.  An operation
    computes its exact result and rounds it to the nearest double, ties to
    even, as the standard prescribes; [nearest] does the rounding on the
    magnitude, [roundToDouble] adds overflow and the sign of a zero. *)

Inductive double : Type :=
| NaN
| Infinity (negative : bool)
| NegZero
| Finite (q : Q).

(** [n * 2^e] when [e] is positive, [n] otherwise. *)
Definition shiftUp (n e : Z) : Z := (n * 2 ^ Z.max 0 e)%Z.

(** The [e] with [2^e <= n/d < 2^(e+1)], for positive [n] and [d]. *)
Definition floorLog2 (n d : Z) : Z :=
  let e := (Z.log2 n - Z.log2 d)%Z in
  if (shiftUp n (- e) <? shiftUp d e)%Z then (e - 1)%Z else e.

(** The integer nearest to [n/d], the even one of two. *)
Definition nearestInteger (n d : Z) : Z :=
  let q := (n / d)%Z in
  match (2 * (n mod d) ?= d)%Z with
  | Lt => q
  | Gt => (q + 1)%Z
  | Eq => if Z.even q then q else (q + 1)%Z
  end.

(** [m * 2^e] *)
Definition dyadic (m e : Z) : Q :=
  if (e <? 0)%Z then Qred (m # Z.to_pos (2 ^ (- e))) else inject_Z (m * 2 ^ e).

(** The spacing of the doubles aroundToDouble a positive [a]: [2^(e-52)] in the
    binade [2^e <= a < 2^(e+1)], and [2^-1074] below [2^-1022]. *)
Definition quantum (a : Q) : Z :=
  Z.max (floorLog2 (Qnum a) (Zpos (Qden a)) - 52) (-1074).

(** Round to nearest, ties to even, with an unbounded exponent: the multiple
    of the quantum nearest to a positive [a]. *)
Definition nearest (a : Q) : Q :=
  let e := quantum a in
  dyadic (nearestInteger (shiftUp (Qnum a) (- e)) (shiftUp (Zpos (Qden a)) e)) e.

(** The double nearest to the exact result [x]; a result that roundToDoubles to
    [2^1024] or more is infinite, one that roundToDoubles to zero keeps its sign. *)
Definition roundToDouble (x : Q) : double :=
  if Qeq_bool x 0 then Finite 0
  else
    let m := nearest (Qabs x) in
    let negative := negb (Qle_bool 0 x) in
    if Qle_bool (dyadic 1 1024) m then Infinity negative
    else if Qeq_bool m 0 then (if negative then NegZero else Finite 0)
    else Finite (if negative then Qopp m else m).

Definition isZero (x : double) : bool :=
  match x with
  | NegZero => true
  | Finite q => Qeq_bool q 0
  | _ => false
  end.

(** The sign bit. *)
Definition signBit (x : double) : bool :=
  match x with
  | NaN => false
  | Infinity s => s
  | NegZero => true
  | Finite q => negb (Qle_bool 0 q)
  end.

Definition zero (negative : bool) : double := if negative then NegZero else Finite 0.

(** The rational a finite double denotes. *)
Definition valueOf (x : double) : Q :=
  match x with
  | Finite q => q
  | _ => 0
  end.

Definition isFinite (x : double) : bool :=
  match x with
  | NegZero | Finite _ => true
  | _ => false
  end.

Definition negate (x : double) : double :=
  match x with
  | NaN => NaN
  | Infinity s => Infinity (negb s)
  | NegZero => Finite 0
  | Finite q => if Qeq_bool q 0 then NegZero else Finite (Qopp q)
  end.

(** [a * b] *)
Definition dmul (a b : double) : double :=
  match a, b with
  | NaN, _ | _, NaN => NaN
  | Infinity s, y | y, Infinity s =>
      if isZero y then NaN else Infinity (xorb s (signBit y))
  | _, _ =>
      if isZero a || isZero b then zero (xorb (signBit a) (signBit b))
      else roundToDouble (valueOf a * valueOf b)
  end.

(** [a / b] *)
Definition ddiv (a b : double) : double :=
  match a, b with
  | NaN, _ | _, NaN => NaN
  | Infinity s, Infinity _ => NaN
  | Infinity s, y => Infinity (xorb s (signBit y))
  | x, Infinity s => zero (xorb (signBit x) s)
  | _, _ =>
      if isZero b then (if isZero a then NaN else Infinity (xorb (signBit a) (signBit b)))
      else if isZero a then zero (xorb (signBit a) (signBit b))
      else roundToDouble (valueOf a / valueOf b)
  end.

(** [a - b] *)
Definition dsub (a b : double) : double :=
  match a, b with
  | NaN, _ | _, NaN => NaN
  | Infinity s, Infinity t => if Bool.eqb s t then NaN else Infinity s
  | Infinity s, _ => Infinity s
  | _, Infinity t => Infinity (negb t)
  | _, _ =>
      let x := (valueOf a - valueOf b)%Q in
      if Qeq_bool x 0 then zero (isZero a && signBit a && negb (signBit b))
      else roundToDouble x
  end.

Definition dabs (a : double) : double :=
  match a with
  | NaN => NaN
  | Infinity _ => Infinity false
  | NegZero => Finite 0
  | Finite q => Finite (Qabs q)
  end.

(** [a <= b] *)
Definition dleb (a b : double) : bool :=
  match a, b with
  | NaN, _ | _, NaN => false
  | Infinity true, _ | _, Infinity false => true
  | Infinity false, _ | _, Infinity true => false
  | _, _ => Qle_bool (valueOf a) (valueOf b)
  end.

(** [a > b] *)
Definition dgtb (a b : double) : bool :=
  match a, b with
  | NaN, _ | _, NaN => false
  | _, _ => negb (dleb a b)
  end.

(** *** Reading numbers *)

Fixpoint digitsValue (s : string) (acc : N) : N :=
  match s with
  | EmptyString => acc
  | String c r => digitsValue r (10 * acc + (code c - 48))%N
  end.

(** [10^e] *)
Definition pow10 (e : Z) : Q :=
  if (e <? 0)%Z then 1 # Z.to_pos (10 ^ (- e)) else inject_Z (10 ^ e).

(** A [StrUnsignedDecimalLiteral] at the head of [s]: [Infinity], or digits
    with an optional fraction and exponent ([5], [5.], [5.25], [.25],
    [5e-3]); its value and the text after it. *)
Definition readUnsigned (s : string) : option (double * string) :=
  if startsWith "Infinity" s then Some (Infinity false, dropPrefix "Infinity" s)
  else
    let ip := takeWhile isDigit s in
    let r := dropWhile isDigit s in
    let fp := match r with String "."%char f => takeWhile isDigit f | _ => EmptyString end in
    let r1 := match r with String "."%char f => dropWhile isDigit f | _ => r end in
    if nonEmpty (ip ++ fp) then
      let mantissa := (inject_Z (Z.of_N (digitsValue (ip ++ fp) 0))
                       * pow10 (- Z.of_nat (String.length fp)))%Q in
      match r1 with
      | String c e =>
          let negative := headIs (Ascii.eqb "-"%char) e in
          let ds := if negative || headIs (Ascii.eqb "+"%char) e then dropPrefix "+" e else e in
          if ci_eqb c "e"%char && headIs isDigit ds then
            let ex := Z.of_N (digitsValue (takeWhile isDigit ds) 0) in
            Some (roundToDouble (mantissa * pow10 (if negative then - ex else ex)),
                  dropWhile isDigit ds)
          else Some (roundToDouble mantissa, r1)
      | EmptyString => Some (roundToDouble mantissa, r1)
      end
    else None.

(** An optional sign and an unsigned literal at the head of [s]. *)
Definition readSigned (s : string) : option (double * string) :=
  match s with
  | String "-"%char r =>
      match readUnsigned r with
      | Some (x, rest) => Some (negate x, rest)
      | None => None
      end
  | String "+"%char r => readUnsigned r
  | _ => readUnsigned s
  end.

(** [parseFloat(s)]: the longest literal after leading white space. *)
Definition dparseFloat (s : string) : double :=
  match readSigned (trimStart s) with
  | Some (x, _) => x
  | None => NaN
  end.

(** The value of a digit in a base up to 16. *)
Definition digitIn (base : N) (c : ascii) : option N :=
  let v := if isDigit c then Some (code c - 48)%N
           else if between 97 102 (toLowerChar c) then Some (code (toLowerChar c) - 87)%N
           else None in
  match v with
  | Some d => if (d <? base)%N then Some d else None
  | None => None
  end.

Fixpoint digitsIn (base : N) (s : string) (acc : N) : option N :=
  match s with
  | EmptyString => Some acc
  | String c r =>
      match digitIn base c with
      | Some d => digitsIn base r (base * acc + d)%N
      | None => None
      end
  end.

(** [0x], [0o] and [0b] literals. *)
Definition readRadix (s : string) : option double :=
  match s with
  | String "0"%char (String c ds) =>
      let base := if ci_eqb c "x"%char then Some 16%N
                  else if ci_eqb c "o"%char then Some 8%N
                  else if ci_eqb c "b"%char then Some 2%N
                  else None in
      match base with
      | Some b =>
          if nonEmpty ds then
            match digitsIn b ds 0 with
            | Some v => Some (roundToDouble (inject_Z (Z.of_N v)))
            | None => Some NaN
            end
          else Some NaN
      | None => None
      end
  | _ => None
  end.

(** [Number(s)] *)
Definition dofString (s : string) : double :=
  let t := trim s in
  if negb (nonEmpty t) then Finite 0
  else
    match readRadix t with
    | Some x => x
    | None =>
        match readSigned t with
        | Some (x, EmptyString) => x
        | _ => NaN
        end
    end.

(** *** Printing numbers *)

Definition natural (n : N) : string := NilZero.string_of_uint (N.to_uint n).

(** The [n] with [10^(n-1) <= a < 10^n], for a positive [a]. *)
Definition decimalExponent (a : Q) : Z :=
  let n0 := (Z.of_nat (String.length (natural (Z.to_N (Qnum a))))
             - Z.of_nat (String.length (natural (Npos (Qden a)))))%Z in
  if Qle_bool (pow10 n0) a then (n0 + 1)%Z else n0.

(** [floor q], for a positive [q] *)
Definition floorN (q : Q) : N := Z.to_N (Qnum q / Zpos (Qden q)).

(** The digits [s] of the [k]-digit decimals [s * 10^(n-k)] that roundToDouble to
    the double [a], if there is one: the nearer of the two decimals aroundToDouble
    [a], the even one if they are as near. *)
Definition digitsOfLength (a : Q) (n : Z) (k : nat) : option (N * Z) :=
  let unit := pow10 (n - Z.of_nat k) in
  let scaled := (a / unit)%Q in
  let lo := floorN scaled in
  let hi := (lo + 1)%N in
  let back (s : N) := match roundToDouble (inject_Z (Z.of_N s) * unit) with
                      | Finite q => Qeq_bool q a
                      | _ => false
                      end in
  let lower := (scaled - inject_Z (Z.of_N lo))%Q in
  let upper := (inject_Z (Z.of_N hi) - scaled)%Q in
  let pick :=
    if back lo && back hi then
      (if Qeq_bool lower upper then (if N.even lo then Some lo else Some hi)
       else if Qle_bool lower upper then Some lo else Some hi)
    else if back lo then Some lo
    else if back hi then Some hi
    else None in
  match pick with
  | Some s =>
      if (s =? 10 ^ N.of_nat k)%N then Some ((10 ^ (N.of_nat k - 1))%N, (n + 1)%Z)
      else Some (s, n)
  | None => None
  end.

(** The shortest digits that denote [a]: [k] from 1 up. *)
Fixpoint shortestDigits (a : Q) (n : Z) (k fuel : nat) : N * Z :=
  match fuel with
  | O => (floorN (a / pow10 (n - Z.of_nat k)), n)
  | S f =>
      match digitsOfLength a n k with
      | Some r => r
      | None => shortestDigits a n (S k) f
      end
  end.

Fixpoint zeros (k : nat) : string :=
  match k with O => EmptyString | S k' => String "0"%char (zeros k') end.

(** [Number::toString] of a positive finite [a]. *)
Definition positiveToString (a : Q) : string :=
  let (s, n) := shortestDigits a (decimalExponent a) 1 17 in
  let digits := natural s in
  let k := Z.of_nat (String.length digits) in
  if ((k <=? n) && (n <=? 21))%Z then digits ++ zeros (Z.to_nat (n - k))
  else if ((0 <? n) && (n <=? 21))%Z then
    substring 0 (Z.to_nat n) digits ++ "." ++ substring (Z.to_nat n) (Z.to_nat (k - n)) digits
  else if ((-6 <? n) && (n <=? 0))%Z then "0." ++ zeros (Z.to_nat (- n)) ++ digits
  else
    let e := (n - 1)%Z in
    let exponent := (if (e <? 0)%Z then "-" else "+") ++ natural (Z.abs_N e) in
    if (k =? 1)%Z then digits ++ "e" ++ exponent
    else substring 0 1 digits ++ "." ++ substring 1 (Z.to_nat (k - 1)) digits ++ "e" ++ exponent.

(** [String(x)] *)
Definition dtoString (x : double) : string :=
  match x with
  | NaN => "NaN"
  | Infinity s => if s then "-Infinity" else "Infinity"
  | NegZero => "0"
  | Finite q =>
      if Qeq_bool q 0 then "0"
      else (if Qle_bool 0 q then EmptyString else "-") ++ positiveToString (Qabs q)
  end.

(** [x.toFixed(f)]: the integer [n] with [n / 10^f] nearest to [x], the
    larger of two, printed with [f] decimals; [String(x)] from [10^21] on. *)
Definition dtoFixed (f : nat) (x : double) : string :=
  match x with
  | NaN | Infinity _ => dtoString x
  | NegZero | Finite _ =>
      let q := valueOf x in
      let a := Qabs q in
      let sign := if Qle_bool 0 q then EmptyString else "-" in
      if Qle_bool (pow10 21) a then sign ++ positiveToString a
      else
        let n := floorN (a * pow10 (Z.of_nat f) + (1 # 2)) in
        let m := natural n in
        let m' := zeros (S f - String.length m) ++ m in
        let k := String.length m' in
        sign ++
        match f with
        | O => m
        | S _ => substring 0 (k - f) m' ++ "." ++ substring (k - f) f m'
        end
  end.

Definition disNaN (x : double) : bool := match x with NaN => true | _ => false end.
Definition dtruthy (x : double) : bool := negb (disNaN x || isZero x).

#[export] Instance double_JsNumber : JsNumber double := {
  parseFloat := dparseFloat;
  num_mul := dmul;
  num_div := ddiv;
  num_sub := dsub;
  num_abs := dabs;
  num_leb := dleb;
  num_gtb := dgtb;
  num_isNaN := disNaN;
  num_truthy := dtruthy;
  num_toString := dtoString;
  num_toFixed := dtoFixed;
  num_ofString := dofString
}.


(** ** Exceptions and JSON values *)

(** The outcome of a call that may throw (a [TypeError] in all cases below). *)
Inductive result (A : Type) : Type :=
| Ok (a : A)
| Throw.
Arguments Ok {A} a.
Arguments Throw {A}.

Definition bind {A B : Type} (r : result A) (k : A -> result B) : result B :=
  match r with
  | Ok a => k a
  | Throw => Throw
  end.

Notation "x <- e ;; k" := (bind e (fun x => k))
  (at level 61, e at next level, right associativity).

(** A value produced by [JSON.parse]. *)
#[warnings="-register-all"]
Inductive json (num : Type) : Type :=
| JNull
| JBool (b : bool)
| JNum (n : num)
| JStr (s : string)
| JArr (items : list (json num))
| JObj (entries : list (string * json num)).
Arguments JNull {num}.
Arguments JBool {num} b.
Arguments JNum {num} n.
Arguments JStr {num} s.
Arguments JArr {num} items.
Arguments JObj {num} entries.

(** The value bound to [key] among the entries of an object. *)
Fixpoint lookup {A : Type} (key : string) (entries : list (string * A)) : option A :=
  match entries with
  | [] => None
  | (k, v) :: rest => if k =? key then Some v else lookup key rest
  end.

Definition hasKey {A : Type} (key : string) (entries : list (string * A)) : bool :=
  match lookup key entries with Some _ => true | None => false end.

(** A JavaScript value that may be [undefined] ([None]). *)
Definition value (num : Type) : Type := option (json num).

Section Values.
Context {num : Type} `{JsNumber num}.

Definition truthy (v : json num) : bool :=
  match v with
  | JNull => false
  | JBool b => b
  | JNum n => num_truthy n
  | JStr s => nonEmpty s
  | JArr _ | JObj _ => true
  end.

Definition truthyV (v : value num) : bool :=
  match v with Some x => truthy x | None => false end.

(** [v[key]] for a [v] that is neither [null] nor [undefined], and a [key]
    that no prototype defines: the own property of an object, [undefined]
    on anything else. *)
Definition get (v : json num) (key : string) : value num :=
  match v with
  | JObj entries => lookup key entries
  | _ => None
  end.

(** [v?.key] *)
Definition getOpt (v : value num) (key : string) : value num :=
  match v with
  | None | Some JNull => None
  | Some x => get x key
  end.

(** [v.key]: throws on [null] and [undefined]. *)
Definition getStrict (v : value num) (key : string) : result (value num) :=
  match v with
  | None | Some JNull => Throw
  | Some x => Ok (get x key)
  end.

(** [a && a.key] as a condition and as a value: the property when [a] is
    truthy, nothing otherwise. *)
Definition andGet (a : value num) (key : string) : value num :=
  match a with
  | Some x => if truthy x then get x key else None
  | None => None
  end.

(** [v === "text"] *)
Definition isString (text : string) (v : value num) : bool :=
  match v with Some (JStr s) => s =? text | _ => false end.

(** [v === true] *)
Definition isTrue (v : value num) : bool :=
  match v with Some (JBool true) => true | _ => false end.

(** [String(v)].  An object prints as [[object Object]] unless an own
    [toString] entry hides the inherited method, in which case the
    conversion throws; an array joins its elements with commas, [null]
    elements printing as the empty string. *)
Fixpoint toStringJS (v : json num) : result string :=
  match v with
  | JNull => Ok "null"
  | JBool b => Ok (if b then "true" else "false")
  | JNum n => Ok (num_toString n)
  | JStr s => Ok s
  | JArr items =>
      (fix join (l : list (json num)) (first : bool) : result string :=
         match l with
         | [] => Ok EmptyString
         | x :: rest =>
             sx <- match x with JNull => Ok EmptyString | _ => toStringJS x end ;;
             sr <- join rest false ;;
             Ok ((if first then EmptyString else ",") ++ sx ++ sr)
         end) items true
  | JObj entries => if hasKey "toString" entries then Throw else Ok "[object Object]"
  end.

(** [String(v || empty)], the empty string standing in for a falsy [v] *)
Definition stringOrEmpty (v : value num) : result string :=
  match v with
  | Some x => if truthy x then toStringJS x else Ok EmptyString
  | None => Ok EmptyString
  end.

(** [v > 0] *)
Definition greaterThanZero (v : json num) : result bool :=
  match v with
  | JNull => Ok false
  | JBool b => Ok b
  | JNum n => Ok (num_gtb n (parseFloat "0"))
  | JStr s => Ok (num_gtb (num_ofString s) (parseFloat "0"))
  | JArr _ | JObj _ => s <- toStringJS v ;; Ok (num_gtb (num_ofString s) (parseFloat "0"))
  end.
End Values.

(** ** Quantities ([batchCsvService.js]) *)

Inductive category : Type := weight | volume | count | unknown.

Definition category_eqb (a b : category) : bool :=
  match a, b with
  | weight, weight | volume, volume | count, count | unknown, unknown => true
  | _, _ => false
  end.

(** [{ value, unit, category }] *)
Record NormalizedQuantity (num : Type) : Type := Quantity {
  qvalue : num;
  qunit : string;
  qcategory : category
}.
Arguments Quantity {num} _ _ _.

Definition WEIGHT_UNITS : list string :=
  ["kg"; "g"; "gm"; "gram"; "grams"; "kilogram"; "kilograms"; "mg"].
Definition VOLUME_UNITS : list string :=
  ["l"; "lt"; "ltr"; "liter"; "litre"; "liters"; "litres"; "ml"].
Definition COUNT_UNITS : list string :=
  ["pc"; "pcs"; "piece"; "pieces"; "pack"; "packs"].

(** Every unit text the code compares against. *)
Definition unitLiterals : list string :=
  ["gm"; "gram"; "grams"; "kilogram"; "kilograms"; "lt"; "ltr"; "liter"; "litre";
   "liters"; "litres"; "piece"; "pieces"; "packs"; "kg"; "g"; "mg"; "l"; "ml"; "pc";
   "pcs"; "pack"].

Definition normalizeUnit (unit : string) : string :=
  let u := toLowerCase unit in
  if u =? "gm" then "g"
  else if (u =? "gram") || (u =? "grams") then "g"
  else if (u =? "kilogram") || (u =? "kilograms") then "kg"
  else if (u =? "lt") || (u =? "ltr") then "l"
  else if (u =? "liter") || (u =? "litre") || (u =? "liters") || (u =? "litres") then "l"
  else if (u =? "piece") || (u =? "pieces") then "pc"
  else if u =? "packs" then "pack"
  else u.

Definition unitCategory (unit : string) : category :=
  let u := normalizeUnit unit in
  if has WEIGHT_UNITS u then weight
  else if has VOLUME_UNITS u then volume
  else if has COUNT_UNITS u then count
  else unknown.

(** One attempt of [(\d+(?:\.\d+)?)] at the head of [s]: the text matched
    and the rest.  Both quantifiers are greedy and, in the patterns below, no
    shorter choice can succeed. *)
Definition matchNumber (s : string) : option (string * string) :=
  let ip := takeWhile isDigit s in
  let r := dropWhile isDigit s in
  if nonEmpty ip then
    match r with
    | String "."%char f =>
        if headIs isDigit f
        then Some (ip ++ "." ++ takeWhile isDigit f, dropWhile isDigit f)
        else Some (ip, r)
    | _ => Some (ip, r)
    end
  else None.

(** [(\d+(?:\.\d+)?)\s*([a-zA-Z]+)\b] at the head of [s]: groups 1 and 2. *)
Definition matchQuantityAt (s : string) : option (string * string) :=
  match matchNumber s with
  | Some (n, r) =>
      let r' := dropWhile isSpace r in
      let u := takeWhile isAlpha r' in
      if nonEmpty u && negb (headIs isWordChar (dropWhile isAlpha r'))
      then Some (n, u) else None
  | None => None
  end.

(** [str.match(/\b(\d+(?:\.\d+)?)\s*([a-zA-Z]+)\b/)]: the leftmost match;
    [prevWord] tells whether the character before [s] is a word character. *)
Fixpoint searchQuantity (prevWord : bool) (s : string) : option (string * string) :=
  match s with
  | EmptyString => None
  | String c r =>
      match (if prevWord then None else matchQuantityAt s) with
      | Some m => Some m
      | None => searchQuantity (isWordChar c) r
      end
  end.

(** [(\d+)\s*x\s*(\d+(?:\.\d+)?)\s*([a-zA-Z]+)] under the [i] flag, at the
    head of [s]: groups 1, 2 and 3. *)
Definition matchMultiAt (s : string) : option (string * string * string) :=
  if headIs isDigit s then
    match dropWhile isSpace (dropWhile isDigit s) with
    | String c r =>
        if ci_eqb c "x"%char then
          match matchNumber (dropWhile isSpace r) with
          | Some (v, r2) =>
              let u := takeWhile isAlpha (dropWhile isSpace r2) in
              if nonEmpty u then Some (takeWhile isDigit s, v, u) else None
          | None => None
          end
        else None
    | EmptyString => None
    end
  else None.

(** [str.match(/(\d+)\s*x\s*(\d+(?:\.\d+)?)\s*([a-zA-Z]+)/i)] *)
Fixpoint searchMulti (s : string) : option (string * string * string) :=
  match s with
  | EmptyString => None
  | String _ r =>
      match matchMultiAt s with
      | Some m => Some m
      | None => searchMulti r
      end
  end.

Section Quantities.
Context {num : Type} `{JsNumber num}.

Definition normalizeQuantity (value : num) (unit : string) : NormalizedQuantity num :=
  let u := normalizeUnit unit in
  let category := unitCategory u in
  match category with
  | weight =>
      if u =? "kg" then Quantity (num_mul value (parseFloat "1000")) "g" category
      else if u =? "mg" then Quantity (num_div value (parseFloat "1000")) "g" category
      else Quantity value "g" category
  | volume =>
      if u =? "l" then Quantity (num_mul value (parseFloat "1000")) "ml" category
      else Quantity value "ml" category
  | count => Quantity value "pc" category
  | unknown => Quantity value u unknown
  end.

Definition parseQuantityToken (str : string) : option (NormalizedQuantity num) :=
  match searchQuantity false str with
  | None => None
  | Some (n, unit) =>
      let value := parseFloat n in
      if num_isNaN value then None else Some (normalizeQuantity value unit)
  end.

(** Extract quantity from search term (e.g., "tomato 1kg"). *)
Definition extractQuantityFromTerm (term : string) : option (NormalizedQuantity num) :=
  match searchQuantity false term with
  | None => None
  | Some (n, unit) =>
      let value := parseFloat n in
      if num_isNaN value then None else Some (normalizeQuantity value unit)
  end.

(** Normalize product quantity for comparison. *)
Definition normalizeQuantityValue (qtyStr : json num) : result (option (NormalizedQuantity num)) :=
  if negb (truthy qtyStr) || isString "N/A" (Some qtyStr) then Ok None
  else
    s <- toStringJS qtyStr ;;
    let str := trim (toLowerCase s) in
    match searchMulti str with
    | Some (m, v, unit) =>
        let multiplier := parseFloat m in
        let value := parseFloat v in
        let normalized := normalizeQuantity value unit in
        Ok (Some (Quantity (num_mul (qvalue normalized) multiplier)
                           (qunit normalized) (qcategory normalized)))
    | None => Ok (parseQuantityToken str)
    end.

(** Check if product quantity matches requested quantity (10% tolerance). *)
Definition matchesQuantity (productQty : json num) (requestedQty : option (NormalizedQuantity num))
  : result bool :=
  match requestedQty with
  | None => Ok true
  | Some requested =>
      productQtyNormalized <- normalizeQuantityValue productQty ;;
      match productQtyNormalized with
      | None => Ok true
      | Some p =>
          if negb (category_eqb (qcategory requested) (qcategory p))
          then Ok false
          else
            let tolerance := num_mul (qvalue requested) (parseFloat "0.1") in
            let diff := num_abs (num_sub (qvalue p) (qvalue requested)) in
            Ok (num_leb diff tolerance)
      end
  end.
End Quantities.

(** ** Term tokens and name filters ([batchCsvService.js]) *)

Definition normalizeToken (token : string) : string :=
  if negb (nonEmpty token) then EmptyString
  else
    let t := toLowerCase token in
    if Nat.ltb 4 (String.length t) && endsWith "ies" t then dropEnd 3 t ++ "y"
    else if Nat.ltb 4 (String.length t) && endsWith "es" t then dropEnd 2 t
    else if Nat.ltb 3 (String.length t) && endsWith "s" t && negb (endsWith "ss" t) then dropEnd 1 t
    else t.

Definition stopwords : list string :=
  ["kg"; "g"; "gm"; "gram"; "grams"; "kilogram"; "kilograms"; "pack"; "packet";
   "combo"; "x"; "of"; "and"; "with"; "fresh"].

(** The units of the third filter of [extractCoreTokens]. *)
Definition quantitySuffixes : list string :=
  ["kg"; "g"; "gm"; "gram"; "grams"; "kilogram"; "kilograms"; "mg"; "l"; "lt"; "ltr";
   "liter"; "litre"; "liters"; "litres"; "ml"; "pc"; "pcs"; "piece"; "pieces"; "pack";
   "packs"].

(** [[\s,-]] *)
Definition isTokenSeparator (c : ascii) : bool :=
  isSpace c || Ascii.eqb c ","%char || Ascii.eqb c "-"%char.

(** [/^\d+(\.\d+)?$/.test(t)] *)
Definition isPureNumber (t : string) : bool :=
  match matchNumber t with
  | Some (_, EmptyString) => true
  | _ => false
  end.

(** [/^\d+(\.\d+)?(kg|g|...|packs)$/.test(t)] *)
Definition isNumberWithUnit (t : string) : bool :=
  match matchNumber t with
  | Some (_, r) => has quantitySuffixes r
  | None => false
  end.

Definition extractCoreTokens (term : string) : list string :=
  filter nonEmpty
    (map normalizeToken
       (filter (fun t => negb (isNumberWithUnit t))
          (filter (fun t => negb (isPureNumber t))
             (filter (fun t => nonEmpty t && negb (has stopwords t))
                (map trim (split isTokenSeparator (toLowerCase term))))))).

(** The tokens of a product name, as [matchesSearchTerm] computes them. *)
Definition nameTokensOf (productName : string) : list string :=
  filter nonEmpty
    (map normalizeToken
       (filter nonEmpty
          (map trim (split isTokenSeparator (toLowerCase productName))))).

(** [/sun[-\s]?dried/] at the head of [s]. *)
Definition matchSunDried (s : string) : bool :=
  startsWith_ci "sun" s &&
  let r := dropPrefix "sun" s in
  (startsWith_ci "dried" r ||
   match r with
   | String c r' => (Ascii.eqb c "-"%char || isSpace c) && startsWith_ci "dried" r'
   | EmptyString => false
   end).

(** [/dried\s+(tomato|fruit|vegetable)/] at the head of [s]. *)
Definition matchDriedProduce (s : string) : bool :=
  startsWith_ci "dried" s &&
  let r := dropPrefix "dried" s in
  headIs isSpace r &&
  existsb (fun w => startsWith_ci w (dropWhile isSpace r)) ["tomato"; "fruit"; "vegetable"].

(** [/\bin\s+<what>/i.test(s)]; [prevWord] as in [searchWord]. *)
Fixpoint searchInMedium (what : string) (prevWord : bool) (s : string) : bool :=
  match s with
  | EmptyString => false
  | String c r =>
      (negb prevWord && startsWith_ci "in" s &&
       let r2 := dropPrefix "in" s in
       headIs isSpace r2 && startsWith_ci what (dropWhile isSpace r2))
      || searchInMedium what (isWordChar c) r
  end.

(** [/frozen\s+(and\s+)?dried/] at the head of [s]. *)
Definition matchFrozenDried (s : string) : bool :=
  startsWith_ci "frozen" s &&
  let r := dropPrefix "frozen" s in
  headIs isSpace r &&
  let r1 := dropWhile isSpace r in
  (startsWith_ci "dried" r1 ||
   (startsWith_ci "and" r1 &&
    let r2 := dropPrefix "and" r1 in
    headIs isSpace r2 && startsWith_ci "dried" (dropWhile isSpace r2))).

(** The ten [processedKeywords], in order. *)
Definition processedKeywords : list (string -> bool) :=
  [ existsSuffix matchSunDried;
    existsSuffix matchDriedProduce;
    searchInMedium "oil" false;
    searchInMedium "brine" false;
    includes_ci "pickle";
    includes_ci "preserved";
    includes_ci "canned";
    includes_ci "jarred";
    existsSuffix matchFrozenDried;
    includes_ci "dehydrated" ].

(** [/\btomato(es)?\b/i.test(String(term))] *)
Definition isTomatoSearch (term : string) : bool :=
  searchWord ["tomato"; "tomatoes"] false term.

Section NameFilters.
Context {num : Type} `{JsNumber num}.

(** Check if product is processed/preserved (not fresh produce). *)
Definition isProcessedProduct (productName : json num) : result bool :=
  s <- stringOrEmpty (Some productName) ;;
  let name := toLowerCase s in
  Ok (existsb (fun pattern => pattern name) processedKeywords).

Definition matchesSearchTerm (productName : json num) (term : string) : result bool :=
  s <- stringOrEmpty (Some productName) ;;
  let nameTokens := nameTokensOf s in
  let tokens := extractCoreTokens term in
  match tokens with
  | [] => Ok true
  | _ => Ok (forallb (fun token => has nameTokens token) tokens)
  end.
End NameFilters.

(** ** CSV writer ([batchCsvService.js]) *)

(** The characters of the test in [toCsvValue]: double quote, comma, line feed. *)
Definition isCsvSpecial (c : ascii) : bool :=
  Ascii.eqb c dquote || Ascii.eqb c ","%char || Ascii.eqb c newline.

Fixpoint hasCsvSpecial (str : string) : bool :=
  match str with
  | EmptyString => false
  | String c r => isCsvSpecial c || hasCsvSpecial r
  end.

(** The [replace] of [toCsvValue]: every double quote is written twice. *)
Fixpoint doubleQuotes (str : string) : string :=
  match str with
  | EmptyString => EmptyString
  | String c r =>
      if Ascii.eqb c dquote then String dquote (String dquote (doubleQuotes r))
      else String c (doubleQuotes r)
  end.

(** The body of [toCsvValue] once [value] is a string. *)
Definition csvField (str : string) : string :=
  if hasCsvSpecial str
  then String dquote (doubleQuotes str ++ String dquote EmptyString)
  else str.

Definition headers : list string :=
  ["pincode"; "searchTerm"; "service"; "id"; "name"; "price"; "originalPrice";
   "savings"; "quantity"; "deliveryTime"; "discount"; "imageUrl"; "available"].

(** [parts.join(sep)] *)
Fixpoint join (sep : string) (parts : list string) : string :=
  match parts with
  | [] => EmptyString
  | [p] => p
  | p :: rest => p ++ sep ++ join sep rest
  end.

(** [xs.map(f)] for an [f] that may throw. *)
Fixpoint mapM {A B : Type} (f : A -> result B) (xs : list A) : result (list B) :=
  match xs with
  | [] => Ok []
  | x :: rest => y <- f x ;; ys <- mapM f rest ;; Ok (y :: ys)
  end.

(** An output row: the object pushed to [rows]. *)
Definition row (num : Type) : Type := list (string * json num).

Section Csv.
Context {num : Type} `{JsNumber num}.

Definition toCsvValue (v : value num) : result string :=
  match v with
  | None | Some JNull => Ok EmptyString
  | Some x => str <- toStringJS x ;; Ok (csvField str)
  end.

Definition buildCsv (rows : list (row num)) : result string :=
  lines <- mapM (fun r => cells <- mapM (fun h => toCsvValue (lookup h r)) headers ;;
                          Ok (join "," cells)) rows ;;
  Ok (join (String newline EmptyString) (join "," headers :: lines)).
End Csv.

(** *** A reader for the format

    Fields as RFC 4180 defines them: a field that opens with a double quote
    runs to the closing quote, a doubled quote inside standing for one quote;
    any other field runs to the next comma or line break.  A line break is a
    line feed, a carriage return, or the two together: a carriage return
    outside quotes ends the field and the record. *)

(** The content of a quoted field after its opening quote, and what follows
    the closing quote; [None] when the quote is never closed. *)
Fixpoint readQuoted (s : string) : option (string * string) :=
  match s with
  | EmptyString => None
  | String c r =>
      if Ascii.eqb c dquote then
        match r with
        | String c2 r2 =>
            if Ascii.eqb c2 dquote then
              match readQuoted r2 with
              | Some (f, rest) => Some (String dquote f, rest)
              | None => None
              end
            else Some (EmptyString, r)
        | EmptyString => Some (EmptyString, EmptyString)
        end
      else
        match readQuoted r with
        | Some (f, rest) => Some (String c f, rest)
        | None => None
        end
  end.

Definition isCsvDelimiter (c : ascii) : bool :=
  Ascii.eqb c ","%char || Ascii.eqb c newline || Ascii.eqb c carriageReturn.

(** One field at the head of [s], and the input after it. *)
Definition readField (s : string) : option (string * string) :=
  match s with
  | String c r =>
      if Ascii.eqb c dquote then readQuoted r
      else Some (takeWhile (fun x => negb (isCsvDelimiter x)) s,
                 dropWhile (fun x => negb (isCsvDelimiter x)) s)
  | EmptyString => Some (EmptyString, EmptyString)
  end.




(** ** Sponsorship detection ([searchHelpers.js]) *)

(** [/\b(ad|ads|advertisement|sponsored|sponsor|advert)\b/i] *)
Definition adTextPattern (s : string) : bool :=
  searchWord ["ad"; "ads"; "advertisement"; "sponsored"; "sponsor"; "advert"] false s.

(** The four [adPatterns] of [hasAdSignal], in order. *)
Definition adPatterns : list (string -> bool) :=
  [ searchWord ["ad"] false;
    searchWord ["advertisement"] false;
    searchWord ["sponsored"] false;
    searchWord ["advert"] false ].

(** The nine [adKeyPatterns], in order. *)
Definition adKeyPatterns : list (string -> bool) :=
  [ String.eqb "ad";
    String.eqb "ads";
    startsWith "ad_";
    endsWith "_ad";
    String.eqb "sponsored";
    startsWith "sponsored_";
    endsWith "_sponsored";
    String.eqb "advertisement";
    String.eqb "advert" ].

(** The first alternative of the pattern below, [(^|[^a-z])ad([^a-z]|$)]
    under the [i] flag: an [ad] with no letter on either side; [prevAlpha]
    tells whether the character before [s] is a letter. *)
Fixpoint searchBareAd (prevAlpha : bool) (s : string) : bool :=
  match s with
  | EmptyString => false
  | String c r =>
      (negb prevAlpha && startsWith_ci "ad" s && negb (headIs isAlpha (dropPrefix "ad" s)))
      || searchBareAd (isAlpha c) r
  end.

(** [/(^|[^a-z])ad([^a-z]|$)|sponsor|advert/i] *)
Definition explicitAdText (val : string) : bool :=
  searchBareAd false val || includes_ci "sponsor" val || includes_ci "advert" val.

Definition flagKeys : list string := ["is_ad"; "is_sponsored"; "sponsored"; "advertisement"].

(** The properties of [raw] whose [text] goes into [textFields]. *)
Definition textFieldKeys : list string :=
  ["badge"; "ad_badge"; "label"; "sponsored_tag"; "promo_label"].

(** Keys the generic scan does not descend into. *)
Definition isGuardedKey (keyStr : string) : bool :=
  includes "address" keyStr || includes "badge" keyStr || includes "label" keyStr.

(** [xs.some(f)] for an [f] that may throw: stops at the first [true]. *)
Fixpoint someM {A : Type} (f : A -> result bool) (xs : list A) : result bool :=
  match xs with
  | [] => Ok false
  | x :: rest => b <- f x ;; if b then Ok true else someM f rest
  end.

Section Sponsored.
Context {num : Type} `{JsNumber num}.

(** [val === true || typeof val === "number" || typeof val === "string"] *)
Definition isScalarSignal (val : json num) : bool :=
  match val with
  | JBool true | JNum _ | JStr _ => true
  | _ => false
  end.

(** [hasAdSignal(value, depth)] with [fuel = 5 - depth]: no fuel is
    [depth > 4]. *)
Fixpoint adSignalWithin (fuel : nat) (v : json num) : bool :=
  match fuel with
  | O => false
  | S f =>
      match v with
      | JNull | JBool _ | JNum _ => false
      | JStr s => nonEmpty s && existsb (fun pattern => pattern s) adPatterns
      | JArr items => existsb (adSignalWithin f) items
      | JObj entries =>
          existsb
            (fun entry : string * json num =>
               let (key, val) := entry in
               let keyStr := toLowerCase key in
               if isGuardedKey keyStr then
                 match val with
                 | JStr s => explicitAdText s
                 | _ => false
                 end
               else
                 (existsb (fun pattern => pattern keyStr) adKeyPatterns && isScalarSignal val)
                 || adSignalWithin f val)
            entries
      end
  end.

Definition hasAdSignal (v : json num) (depth : nat) : bool :=
  adSignalWithin (5 - depth) v.

(** [raw.<key>?.text] for each key of [textFieldKeys], [.filter(Boolean)]. *)
Definition textsOf (holders : list (value num)) : list (json num) :=
  filter truthy
    (flat_map (fun h => match getOpt h "text" with Some t => [t] | None => [] end) holders).

(** [snip?.data || {}] *)
Definition rawOf (snip : json num) : json num :=
  match getOpt (Some snip) "data" with
  | Some d => if truthy d then d else JObj []
  | None => JObj []
  end.

(** [adTextPattern.test(String(txt))] *)
Definition isAdText (txt : json num) : result bool :=
  s <- toStringJS txt ;; Ok (adTextPattern s).

Definition isSponsoredSnippet (snip : json num) : result bool :=
  let raw := rawOf snip in
  wt <- stringOrEmpty (getOpt (Some snip) "widget_type") ;;
  let widgetType := toLowerCase wt in
  if includes "ad" widgetType || includes "sponsor" widgetType then Ok true
  else if existsb (fun key => isTrue (get raw key)) flagKeys then Ok true
  else
    let textFields := textsOf (map (get raw) textFieldKeys) in
    inText <- someM isAdText textFields ;;
    if inText then Ok true
    else
      let badgeTexts := match get raw "badges" with
                        | Some (JArr badges) => textsOf (map Some badges)
                        | _ => []
                        end in
      inBadge <- someM isAdText badgeTexts ;;
      if inBadge then Ok true
      else if hasAdSignal snip 0 then Ok true
      else Ok false.
End Sponsored.

(** ** Product extraction ([searchHelpers.js]) *)

(** A product record; [null] is [JNull]. *)
Record product (num : Type) : Type := Product {
  p_id : json num;
  p_name : json num;
  p_price : json num;
  p_originalPrice : json num;
  p_savings : json num;
  p_quantity : json num;
  p_deliveryTime : json num;
  p_discount : json num;
  p_imageUrl : json num;
  p_available : bool
}.

(** What the [forEach] callback does with one snippet. *)
Inductive snippetOutcome (num : Type) : Type :=
| Skipped
| Extracted (p : product num)
| Caught.
Arguments Skipped {num}.
Arguments Extracted {num} p.
Arguments Caught {num}.

(** [text.replace(/\n/g, ' ')] *)
Fixpoint replaceNewlines (s : string) : string :=
  match s with
  | EmptyString => EmptyString
  | String c r => String (if Ascii.eqb c newline then " "%char else c) (replaceNewlines r)
  end.

Section Extraction.
Context {num : Type} `{JsNumber num}.

(** The currency sign U+20B9.  It lies outside the code units of the
    model, so the text that stands for it is left open. *)
Variable rupee : string.

(** [str.match(/<rupee>\s*(\d+(?:\.\d+)?)/)]: group 1 of the leftmost match. *)
Fixpoint searchAmount (s : string) : option string :=
  match (if startsWith rupee s
         then matchNumber (dropWhile isSpace (dropPrefix rupee s)) else None) with
  | Some (n, _) => Some n
  | None =>
      match s with
      | EmptyString => None
      | String _ r => searchAmount r
      end
  end.

(** [c ? c : fallback] *)
Definition orElse (c : value num) (fallback : json num) : json num :=
  match c with
  | Some x => if truthy x then x else fallback
  | None => fallback
  end.

(** The body of the [try] block; [Throw] is an exception the [catch]
    receives. *)
Definition extractFields (raw : json num) (idx : nat) : result (product num) :=
  identityId <- getStrict (get raw "identity") "id" ;;
  let id := orElse identityId (JStr ("product_" ++ natural (N.of_nat idx))) in
  let name := orElse (andGet (get raw "name") "text") (JStr "Product Name Not Available") in
  let normalPrice := andGet (get raw "normal_price") "text" in
  let price :=
    if truthyV normalPrice then orElse normalPrice JNull
    else match get raw "price" with
         | Some (JNum n) =>
             if num_truthy n then JStr (rupee ++ num_toFixed 2 n)
             else JStr "Price Not Available"
         | _ => JStr "Price Not Available"
         end in
  let origPrice := orElse (andGet (get raw "mrp") "text") JNull in
  let qty := orElse (andGet (get raw "variant") "text") (JStr "N/A") in
  let imgUrl := orElse (andGet (get raw "image") "url") (JStr EmptyString) in
  let delTime := orElse (andGet (andGet (get raw "eta_tag") "title") "text") (JStr "N/A") in
  disc <- match orElse (andGet (andGet (get raw "offer_tag") "title") "text") JNull with
          | JNull => Ok JNull
          | JStr s => Ok (JStr (replaceNewlines s))
          | _ => Throw
          end ;;
  avail <- match raw with
           | JObj entries =>
               if hasKey "hasOwnProperty" entries then Throw
               else
                 match lookup "is_sold_out" entries with
                 | Some soldOut => Ok (negb (truthy soldOut))
                 | None =>
                     match lookup "inventory" entries with
                     | Some inventory => greaterThanZero inventory
                     | None => Ok true
                     end
                 end
           | _ => Ok true
           end ;;
  savings <- (if truthy origPrice && truthy price then
                match price, origPrice with
                | JStr p, JStr op =>
                    match searchAmount p, searchAmount op with
                    | Some pr, Some opr =>
                        let curPrice := parseFloat pr in
                        let orgPrice := parseFloat opr in
                        if negb (num_isNaN orgPrice) && negb (num_isNaN curPrice)
                           && num_gtb orgPrice curPrice
                        then Ok (JStr (rupee ++ num_toFixed 0 (num_sub orgPrice curPrice)))
                        else Ok JNull
                    | _, _ => Ok JNull
                    end
                | _, _ => Throw
                end
              else Ok JNull) ;;
  Ok (Product id name price origPrice savings qty delTime disc imgUrl avail).

(** The callback of [snippets.forEach]: a [Throw] here leaves the callback
    and the whole of [extractProductInformation]. *)
Definition extractSnippet (snip : json num) (idx : nat) : result (snippetOutcome num) :=
  sponsored <- isSponsoredSnippet snip ;;
  if sponsored then Ok Skipped
  else
    data <- getStrict (Some snip) "data" ;;
    if negb (truthyV data)
       || isString "image_text_vr_type_header" (get snip "widget_type")
       || negb (truthyV (getOpt data "name"))
       || negb (truthyV (getOpt data "identity"))
       || isString "product_container" (getOpt (getOpt data "identity") "id")
    then Ok Skipped
    else
      match data with
      | Some raw =>
          match extractFields raw idx with
          | Ok p => Ok (Extracted p)
          | Throw => Ok Caught
          end
      | None => Ok Skipped
      end.

Fixpoint forEachSnippet (snippets : list (json num)) (idx : nat) : result (list (product num)) :=
  match snippets with
  | [] => Ok []
  | snip :: rest =>
      outcome <- extractSnippet snip idx ;;
      prods <- forEachSnippet rest (S idx) ;;
      Ok (match outcome with
          | Extracted p => p :: prods
          | Skipped | Caught => prods
          end)
  end.

(** [prodJson.response.snippets] when it is an array. *)
Definition snippetsOf (prodJson : value num) : option (list (json num)) :=
  match andGet (andGet prodJson "response") "snippets" with
  | Some (JArr snippets) => Some snippets
  | _ => None
  end.

Definition extractProductInformation (prodJson : value num) : result (list (product num)) :=
  match snippetsOf prodJson with
  | None => Ok []
  | Some snippets => forEachSnippet snippets 0
  end.

(** *** The response race of [runBlinkitSearchWithMeta] *)

(** A network response seen by the listener: [body] is [None] when
    [response.json()] throws. *)
Record response : Type := Response {
  resourceType : string;
  url : string;
  body : option (json num)
}.

(** What the 30 second timer resolves the promise with; the page handle
    is an opaque object. *)
Definition fallbackMarker : json num :=
  JObj [("useHtmlExtraction", JBool true); ("page", JObj [])].

(** The condition under which [responseHandler] resolves the promise.  An
    exception of the test (a [null] snippet met by [some]) is swallowed by
    the handler's [catch]. *)
Definition qualifies (r : response) : bool :=
  ((resourceType r =? "xhr") || (resourceType r =? "fetch")) &&
  match snippetsOf (body r) with
  | Some snippets =>
      match someM (fun s => data <- getStrict (Some s) "data" ;;
                            Ok (truthyV (andGet data "identity"))) snippets with
      | Ok found => found && negb (includes "empty_search" (url r))
      | Throw => false
      end
  | None => false
  end.

(** The value of [productJsonPromise], for the responses that arrive
    before the timer fires: the first that qualifies, the marker if none
    does. *)
Fixpoint awaitProductJson (responses : list response) : json num :=
  match responses with
  | [] => fallbackMarker
  | r :: rest =>
      if qualifies r then match body r with Some j => j | None => fallbackMarker end
      else awaitProductJson rest
  end.

(** [runBlinkitSearch]: [None] is [undefined], the [products] property of
    the empty array returned when navigation fails. *)
Definition runBlinkitSearch (navigationSuccess : bool) (responses : list response)
  : result (option (list (product num))) :=
  if negb navigationSuccess then Ok None
  else
    products <- extractProductInformation (Some (awaitProductJson responses)) ;;
    Ok (Some products).
End Extraction.

(** ** Location setter ([set-location.js]) *)

(** What one candidate label selector yields: [waitForSelector] or [$eval]
    throws, or the element's [textContent] is read. *)
Inductive probe : Type :=
| ProbeFails
| ProbeText (textContent : string).

(** [/select|enter/i.test(txt)] *)
Definition isPlaceholderText (txt : string) : bool :=
  includes_ci "select" txt || includes_ci "enter" txt.

(** The five label selectors are probed in order. *)
Fixpoint getFirstTextFromSelectors (selectors : list probe) : string :=
  match selectors with
  | [] => EmptyString
  | ProbeFails :: rest => getFirstTextFromSelectors rest
  | ProbeText textContent :: rest =>
      let txt := trim textContent in
      if nonEmpty txt && negb (isPlaceholderText txt) then txt
      else getFirstTextFromSelectors rest
  end.

(** [/^\d{6}$/.test(locStr)] *)
Definition isPincode (locStr : string) : bool :=
  Nat.eqb (String.length locStr) 6 && negb (nonEmpty (dropWhile isDigit locStr)).

(** What the site shows during one pass through the picker: whether the
    steps before the label check complete (navigation, finding the input,
    typing) or one of them throws, and what the label selectors yield. *)
Record attemptView : Type := AttemptView {
  stepsComplete : bool;
  labels : list probe
}.

(** The page as the setter observes it: the view at each attempt, and
    whether the reload after that attempt succeeds. *)
Record page : Type := Page {
  viewAt : nat -> attemptView;
  reloadAfter : nat -> bool
}.

Inductive locationEvent : Type :=
| Attempt (n : nat)
| ReloadRoot.

Module Retrying.
(** The two-attempt setter. *)

Definition isLocationSet (labels : list probe) : string :=
  let txt := getFirstTextFromSelectors labels in
  if nonEmpty txt then txt else "400".

(** The body of the [try]: the title when the attempt returns one. *)
Definition attemptOnce (loc : string) (view : attemptView) : option string :=
  if stepsComplete view then
    let locTitle := isLocationSet (labels view) in
    if nonEmpty locTitle && negb (locTitle =? "400") then
      let locStr := loc in
      if negb (isPincode locStr) || includes locStr locTitle then Some locTitle
      else None
    else None
  else None.

(** The loop [for (attempt = 1; attempt <= 2; attempt += 1)], [budget]
    being the iterations left.  [Throw] is the rejection of the reload. *)
Fixpoint attemptLoop (pg : page) (loc : string) (attempt budget : nat)
  : result (option string) * list locationEvent :=
  match budget with
  | O => (Ok None, [])
  | S budget' =>
      match attemptOnce loc (viewAt pg attempt) with
      | Some locTitle => (Ok (Some locTitle), [Attempt attempt])
      | None =>
          if Nat.ltb attempt 2 then
            if reloadAfter pg attempt then
              let (r, evs) := attemptLoop pg loc (S attempt) budget' in
              (r, Attempt attempt :: ReloadRoot :: evs)
            else (Throw, [Attempt attempt; ReloadRoot])
          else
            let (r, evs) := attemptLoop pg loc (S attempt) budget' in
            (r, Attempt attempt :: evs)
      end
  end.

Definition setBlinkitLocation (pg : page) (loc : string)
  : result (option string) * list locationEvent :=
  attemptLoop pg loc 1 2.
End Retrying.

Module SingleAttempt.
(** The setter of [backend/blinkit/set-location.js]: one pass, the
    requested text standing in for a label that cannot be read. *)

Definition isLocationSet (labels : list probe) (fallbackValue : string) : string :=
  let txt := getFirstTextFromSelectors labels in
  if nonEmpty txt then txt
  else if nonEmpty fallbackValue then fallbackValue
  else "400".

Definition setBlinkitLocation (pg : page) (loc : string)
  : result (option string) * list locationEvent :=
  let view := viewAt pg 1 in
  if stepsComplete view then
    let locTitle := isLocationSet (labels view) loc in
    if nonEmpty locTitle && negb (locTitle =? "400")
    then (Ok (Some locTitle), [Attempt 1])
    else (Ok None, [Attempt 1])
  else (Ok None, [Attempt 1]).
End SingleAttempt.

(** ** Batch orchestrator ([batchCsvService.js]) *)

(** An argument of [runBlinkitBatchCsv]: an array of strings, or a value
    [Array.isArray] rejects. *)
Inductive jsArray : Type :=
| NotArray
| ArrayOf (items : list string).

(** The destructured argument; an omitted [quantities] takes the default
    [[]]. *)
Record batchInput : Type := BatchInput {
  pincodes : jsArray;
  searchTerms : jsArray;
  quantities : option jsArray
}.

Definition withDefault (q : option jsArray) : jsArray :=
  match q with
  | Some a => a
  | None => ArrayOf []
  end.

(** The three checks, in order: the message of the first that fails. *)
Definition validateInput (input : batchInput) : option string :=
  match pincodes input with
  | NotArray | ArrayOf [] => Some "pincodes must be a non-empty array"
  | ArrayOf (_ :: _) =>
      match searchTerms input with
      | NotArray | ArrayOf [] => Some "searchTerms must be a non-empty array"
      | ArrayOf (_ :: _) =>
          match withDefault (quantities input) with
          | NotArray => Some "quantities must be an array"
          | ArrayOf _ => None
          end
      end
  end.

(** Combine search terms with quantities if provided. *)
Definition expandSearchTerms (searchTerms quantities : list string) : list string :=
  match quantities with
  | _ :: _ =>
      flat_map (fun term => map (fun qty => trim (term ++ " " ++ qty)) quantities) searchTerms
  | [] => searchTerms
  end.

(** The fate of one product in the filter pipeline. *)
Inductive verdict : Type :=
| Keep
| DropProcessed
| DropOutOfStock
| DropNoDeliveryTime
| DropQuantityMismatch
| DropTermMismatch.

(** What a run does, in order: the calls of [mkdirSync], [launch],
    [newPage], [setBlinkitLocation], [runBlinkitSearch], [page.close] and
    [browser.close], whether or not they succeed, and the file written. *)
Inductive batchEvent : Type :=
| Mkdir
| Launch
| NewPage (pincode : string)
| SetLocation (pincode : string)
| Search (pincode term : string)
| ClosePage (pincode : string)
| CloseBrowser
| WriteCsv (filename csv : string).

Section Batch.
Context {num : Type} `{JsNumber num}.
Variable rupee : string.

(** The site and the machine as one batch observes them.  The answers of
    the site are given for each pincode and each term: a pincode or a term
    that occurs twice in the input is taken to be answered alike. *)
Record site : Type := Site {
  mkdirSucceeds : bool;
  launchSucceeds : bool;
  (** [browser.newPage], [setViewport] and [setUserAgent] resolve, for the
      page of a pincode *)
  pageOpens : string -> bool;
  (** the outcome of [setBlinkitLocation] on a fresh page *)
  locationFor : string -> result (option string);
  (** whether [navigateToSearch] succeeds, and the responses the listener
      handles, one after the other, before the timer fires *)
  navigationSucceeds : string -> string -> bool;
  responsesFor : string -> string -> list (response (num:=num));
  (** the responses whose bodies were still being read when the promise
      settled, in the order in which their handlers finish before the
      search returns *)
  inFlightFor : string -> string -> list (response (num:=num));
  (** [browser.close] resolves *)
  browserCloses : bool;
  (** [fs.writeFileSync] returns *)
  writeSucceeds : bool;
  (** [Date.now()] when the file is named *)
  now : string
}.

(** [requestedQty && !matchesQuantity(product.quantity, requestedQty)] *)
Definition quantityMismatch (requestedQty : option (NormalizedQuantity num))
           (productQty : json num) : result bool :=
  match requestedQty with
  | Some _ => m <- matchesQuantity productQty requestedQty ;; Ok (negb m)
  | None => Ok false
  end.

(** The line [console.log] prints before a product is skipped: the
    template converts the name to a string, which throws for an object with
    an own [toString] entry. *)
Definition logSkipped (p : product num) (v : verdict) : result verdict :=
  _ <- toStringJS (p_name p) ;; Ok v.

Definition filterProduct (term : string) (requestedQty : option (NormalizedQuantity num))
           (p : product num) : result verdict :=
  processed <- (if isTomatoSearch term then isProcessedProduct (p_name p) else Ok false) ;;
  if processed then logSkipped p DropProcessed
  else if negb (p_available p) then logSkipped p DropOutOfStock
  else
    noDelivery <- (if negb (truthy (p_deliveryTime p)) then Ok true
                   else s <- toStringJS (p_deliveryTime p) ;; Ok (toLowerCase s =? "n/a")) ;;
    if noDelivery then logSkipped p DropNoDeliveryTime
    else
      mismatch <- quantityMismatch requestedQty (p_quantity p) ;;
      if mismatch then
        _ <- toStringJS (p_name p) ;; _ <- toStringJS (p_quantity p) ;; Ok DropQuantityMismatch
      else
        matches <- matchesSearchTerm (p_name p) term ;;
        if negb matches then logSkipped p DropTermMismatch else Ok Keep.

Definition makeRow (pincode term : string) (p : product num) : row num :=
  [ ("pincode", JStr pincode);
    ("searchTerm", JStr term);
    ("service", JStr "blinkit");
    ("id", p_id p);
    ("name", p_name p);
    ("price", p_price p);
    ("originalPrice", p_originalPrice p);
    ("savings", p_savings p);
    ("quantity", p_quantity p);
    ("deliveryTime", p_deliveryTime p);
    ("discount", p_discount p);
    ("imageUrl", p_imageUrl p);
    ("available", JBool (p_available p)) ].

(** [for (const product of products)] *)
Fixpoint forEachProduct (pincode term : string) (requestedQty : option (NormalizedQuantity num))
         (products : list (product num)) : result (list (row num)) :=
  match products with
  | [] => Ok []
  | p :: rest =>
      v <- filterProduct term requestedQty p ;;
      rows <- forEachProduct pincode term requestedQty rest ;;
      Ok (match v with Keep => makeRow pincode term p :: rows | _ => rows end)
  end.

(** [for (const term of expandedSearchTerms)], on the page of [pincode]. *)
Fixpoint forEachTerm (s : site) (pincode : string) (terms : list string)
  : result (list (row num)) * list batchEvent :=
  match terms with
  | [] => (Ok [], [])
  | term :: rest =>
      match runBlinkitSearch rupee (navigationSucceeds s pincode term)
              (responsesFor s pincode term) with
      | Ok (Some products) =>
          match forEachProduct pincode term (extractQuantityFromTerm term) products with
          | Ok rows =>
              let (r, evs) := forEachTerm s pincode rest in
              (more <- r ;; Ok (rows ++ more)%list, Search pincode term :: evs)
          | Throw => (Throw, [Search pincode term])
          end
      | Ok None | Throw => (Throw, [Search pincode term])
      end
  end.

(** [locationTitle] is truthy: a title that is not empty. *)
Definition isSet (locationTitle : option string) : bool :=
  match locationTitle with
  | Some title => nonEmpty title
  | None => false
  end.

(** [for (const pincode of pincodes)] *)
Fixpoint forEachPincode (s : site) (pincodes terms : list string)
  : result (list (row num)) * list batchEvent :=
  match pincodes with
  | [] => (Ok [], [])
  | pincode :: rest =>
      if negb (pageOpens s pincode) then (Throw, [NewPage pincode])
      else
        match locationFor s pincode with
        | Throw => (Throw, [NewPage pincode; SetLocation pincode])
        | Ok locationTitle =>
            if negb (isSet locationTitle) then
              let (r, evs) := forEachPincode s rest terms in
              (r, NewPage pincode :: SetLocation pincode :: ClosePage pincode :: evs)
            else
              match forEachTerm s pincode terms with
              | (Ok rows, found) =>
                  let (r, evs) := forEachPincode s rest terms in
                  (more <- r ;; Ok (rows ++ more)%list,
                   NewPage pincode :: SetLocation pincode
                     :: found ++ ClosePage pincode :: evs)%list
              | (Throw, found) => (Throw, NewPage pincode :: SetLocation pincode :: found)
              end
        end
  end.

Record batchReport : Type := BatchReport {
  filename : string;
  rowCount : nat;
  reportedQuantities : option (list string);
  expandedSearchTerms : list string;
  items : list (row num)
}.

Inductive batchOutcome : Type :=
| InputError (message : string)
| Failed
| Completed (report : batchReport).

Definition runBlinkitBatchCsv (s : site) (input : batchInput)
  : batchOutcome * list batchEvent :=
  match validateInput input with
  | Some message => (InputError message, [])
  | None =>
      match pincodes input, searchTerms input, withDefault (quantities input) with
      | ArrayOf pins, ArrayOf terms, ArrayOf qtys =>
          let expanded := expandSearchTerms terms qtys in
          if negb (mkdirSucceeds s) then (Failed, [Mkdir])
          else if negb (launchSucceeds s) then (Failed, [Mkdir; Launch])
          else
            match forEachPincode s pins expanded with
            | (Throw, evs) => (Failed, Mkdir :: Launch :: evs ++ [CloseBrowser])%list
            | (Ok rows, evs) =>
                if negb (browserCloses s)
                then (Failed, Mkdir :: Launch :: evs ++ [CloseBrowser])%list
                else
                  match buildCsv rows with
                  | Throw => (Failed, Mkdir :: Launch :: evs ++ [CloseBrowser])%list
                  | Ok csv =>
                      let name := "blinkit-search-" ++ now s ++ ".csv" in
                      if negb (writeSucceeds s)
                      then (Failed, Mkdir :: Launch :: evs ++ [CloseBrowser])%list
                      else
                        (Completed (BatchReport name (List.length rows)
                                      (match qtys with [] => None | _ => Some qtys end)
                                      expanded rows),
                         Mkdir :: Launch :: evs ++ [CloseBrowser; WriteCsv name csv])%list
                  end
            end
      | _, _, _ => (Failed, [])
      end
  end.
End Batch.

(** ** The vocabulary of the specification *)

Section QuantityVocabulary.
Context {num : Type} `{JsNumber num}.

(** Normalisation as the specification words it: kilograms to grams
    (times 1000), milligrams to grams (divided by 1000), litres to
    millilitres (times 1000), every alias folded into [g], [ml] or [pc]. *)
Definition canonicalQuantity (value : num) (unit : string) : NormalizedQuantity num :=
  let u := toLowerCase unit in
  if has ["kg"; "kilogram"; "kilograms"] u
  then Quantity (num_mul value (parseFloat "1000")) "g" weight
  else if u =? "mg" then Quantity (num_div value (parseFloat "1000")) "g" weight
  else if has ["g"; "gm"; "gram"; "grams"] u then Quantity value "g" weight
  else if has ["l"; "lt"; "ltr"; "liter"; "litre"; "liters"; "litres"] u
  then Quantity (num_mul value (parseFloat "1000")) "ml" volume
  else if u =? "ml" then Quantity value "ml" volume
  else if has ["pc"; "pcs"; "piece"; "pieces"; "pack"; "packs"] u
  then Quantity value "pc" count
  else Quantity value u unknown.


End QuantityVocabulary.

(** The number a text [digits] or [digits.digits] denotes in decimal
    notation, exactly. *)
Definition decimalOf (n : string) : Q :=
  let ip := takeWhile isDigit n in
  let fp := match dropWhile isDigit n with
            | String "."%char f => takeWhile isDigit f
            | _ => EmptyString
            end in
  (inject_Z (Z.of_N (digitsValue (ip ++ fp) 0)) * pow10 (- Z.of_nat (String.length fp)))%Q.

(** A number above zero: the positive infinity or a positive rational. *)
Definition isPositive (x : double) : Prop :=
  x = Infinity false \/ exists q, x = Finite q /\ (0 < q)%Q.

(** A JSON value above zero, as the comparison converts it: a number as it
    is, [true] as one, [false] and [null] as zero, a text as the number it
    denotes, an array or an object as the number its text denotes. *)
Definition aboveZero (v : json double) : Prop :=
  match v with
  | JNull => False
  | JBool b => b = true
  | JNum x => isPositive x
  | JStr s => isPositive (dofString s)
  | JArr _ | JObj _ => exists s, toStringJS v = Ok s /\ isPositive (dofString s)
  end.

(** The expansion as the specification words it: the term, a space, the
    quantity. *)
Definition claimedExpansion (searchTerms quantities : list string) : list string :=
  flat_map (fun term => map (fun qty => term ++ " " ++ qty) quantities) searchTerms.

(** A text that does not open with white space, and is not empty. *)
Definition opensClean (s : string) : bool := nonEmpty s && negb (headIs isSpace s).

(** A text that does not close with white space, and is not empty. *)
Definition closesClean (s : string) : bool := opensClean (rev_string s).

(** [Array.isArray(a) && a.length > 0] *)
Definition isNonEmptyArray (a : jsArray) : bool :=
  match a with
  | ArrayOf (_ :: _) => true
  | _ => false
  end.





(** The raw tokens of a text: split on white space, commas and hyphens. *)
Definition rawTokens (text : string) : list string :=
  map trim (split isTokenSeparator (toLowerCase text)).


Section ScanVocabulary.
Context {num : Type} `{JsNumber num}.







End ScanVocabulary.

(** ** Sample inputs *)

(** A site where the browser starts and no location can be set. *)
Definition quietSite : site (num:=double) :=
  Site true true (fun _ => true) (fun _ => Ok None) (fun _ _ => false) (fun _ _ => [])
       (fun _ _ => []) true true "0".



(** A product snippet: onions, one kilogram, out of stock by its inventory. *)
Definition onionSnippet : json double :=
  JObj [("widget_type", JStr "product_card");
        ("data", JObj [("name", JObj [("text", JStr "Onion")]);
                       ("identity", JObj [("id", JStr "p1")]);
                       ("variant", JObj [("text", JStr "1 kg")]);
                       ("inventory", JNum (Finite 0))])].

(** The record extracted from [onionSnippet]. *)
Definition onionProduct : product double :=
  Product (JStr "p1") (JStr "Onion") (JStr "Price Not Available") JNull JNull
          (JStr "1 kg") (JStr "N/A") JNull (JStr EmptyString) false.

(** A product snippet whose price text is a number and whose list price is
    a text: the savings computation calls [match] on the number. *)
Definition brokenPriceSnippet : json double :=
  JObj [("data", JObj [("name", JObj [("text", JStr "Potato")]);
                       ("identity", JObj [("id", JStr "p2")]);
                       ("normal_price", JObj [("text", JNum (Finite 20))]);
                       ("mrp", JObj [("text", JStr "Rs 25")])])].

(** [{ response: { snippets } }] *)
Definition payloadOf (snippets : list (json double)) : json double :=
  JObj [("response", JObj [("snippets", JArr snippets)])].

(** A page whose first pass shows the label of another pincode and whose
    second pass shows the requested one. *)
Definition secondTryPage : page :=
  Page (fun attempt =>
          if Nat.eqb attempt 1
          then AttemptView true [ProbeFails; ProbeText " Delivery in 9 minutes - Bejai, Mangaluru 575004 "]
          else AttemptView true [ProbeText "Select Location"; ProbeText "Kottara, Mangaluru 575006"])
       (fun _ => true).

(** A search response carrying the snippets [snippets]. *)
Definition searchResponse (snippets : list (json double)) : response (num:=double) :=
  Response "fetch" "https://blinkit.com/v1/layout/search?q=onion" (Some (payloadOf snippets)).

(** A snippet with an ad-like key that holds an object. *)
Definition adInfoSnippet : json double :=
  JObj [("data", JObj [("ad_info", JObj [("x", JBool false)])])].



(** An onion in stock, sold by the kilogram, delivered in ten minutes. *)
Definition freshOnionSnippet : json double :=
  JObj [("widget_type", JStr "product_card");
        ("data", JObj [("name", JObj [("text", JStr "Onion")]);
                       ("identity", JObj [("id", JStr "p1")]);
                       ("variant", JObj [("text", JStr "1 kg")]);
                       ("eta_tag", JObj [("title", JObj [("text", JStr "10 mins")])]);
                       ("inventory", JNum (Finite 12))])].

(** A potato that is sold out. *)
Definition soldOutPotatoSnippet : json double :=
  JObj [("widget_type", JStr "product_card");
        ("data", JObj [("name", JObj [("text", JStr "Potato")]);
                       ("identity", JObj [("id", JStr "p2")]);
                       ("variant", JObj [("text", JStr "1 kg")]);
                       ("eta_tag", JObj [("title", JObj [("text", JStr "10 mins")])]);
                       ("is_sold_out", JBool true)])].

(** A site that confirms every location and answers every search with
    those two snippets. *)
Definition onionSite : site (num:=double) :=
  Site true true (fun _ => true) (fun pincode => Ok (Some ("Mangaluru " ++ pincode)))
       (fun _ _ => true)
       (fun _ _ => [searchResponse [freshOnionSnippet; soldOutPotatoSnippet]])
       (fun _ _ => []) true true
       "1700000000000".

(** ** Reading a batch trace *)

(** The events of one page: a batch emits only these between the launch
    and the close of the browser. *)
Definition isPageEvent (ev : batchEvent) : bool :=
  match ev with
  | NewPage _ | SetLocation _ | Search _ _ | ClosePage _ => true
  | Mkdir | Launch | CloseBrowser | WriteCsv _ _ => false
  end.

(** The pincodes of the pages opened, and of the pages closed, in order. *)
Fixpoint pagesOpened (evs : list batchEvent) : list string :=
  match evs with
  | [] => []
  | NewPage pincode :: rest => pincode :: pagesOpened rest
  | _ :: rest => pagesOpened rest
  end.

Fixpoint pagesClosed (evs : list batchEvent) : list string :=
  match evs with
  | [] => []
  | ClosePage pincode :: rest => pincode :: pagesClosed rest
  | _ :: rest => pagesClosed rest
  end.

(** The pincodes and the expanded terms a batch works on, read off its
    input as [runBlinkitBatchCsv] does once the input is accepted. *)
Definition pincodesOf (input : batchInput) : list string :=
  match pincodes input with
  | ArrayOf pins => pins
  | NotArray => []
  end.

Definition expandedOf (input : batchInput) : list string :=
  match searchTerms input, withDefault (quantities input) with
  | ArrayOf terms, ArrayOf qtys => expandSearchTerms terms qtys
  | _, _ => []
  end.

Definition isWriteCsv (ev : batchEvent) : bool :=
  match ev with WriteCsv _ _ => true | _ => false end.

(** The searches of a trace, in order: the pincode and the term of each. *)
Fixpoint searchesOf (evs : list batchEvent) : list (string * string) :=
  match evs with
  | [] => []
  | Search pincode term :: rest => (pincode, term) :: searchesOf rest
  | _ :: rest => searchesOf rest
  end.


Section Located.
Context {num : Type} `{JsNumber num}.

(** The pincodes whose location the setter confirms with a title. *)
Definition located (s : site (num:=num)) (pincode : string) : bool :=
  match locationFor s pincode with
  | Ok locationTitle => isSet locationTitle
  | Throw => false
  end.
End Located.
(** ** A reader for whole CSV files *)

(** The fields of the record at the head of [s], and what follows the line
    break that ends it ([None] at the end of the input).  A field is
    followed by a comma, a line break (a line feed, a carriage return, or a
    carriage return and a line feed) or the end of the input; each field
    takes one unit of [fuel]. *)
Fixpoint readRecord (fuel : nat) (s : string) : option (list string * option string) :=
  match fuel with
  | 0 => None
  | S fuel' =>
      match readField s with
      | Some (f, EmptyString) => Some ([f], None)
      | Some (f, String c r) =>
          if Ascii.eqb c ","%char then
            match readRecord fuel' r with
            | Some (fs, rest) => Some (f :: fs, rest)
            | None => None
            end
          else if Ascii.eqb c newline then Some ([f], Some r)
          else if Ascii.eqb c carriageReturn then
            Some ([f], Some (match r with
                             | String c2 r2 => if Ascii.eqb c2 newline then r2 else r
                             | EmptyString => r
                             end))
          else None
      | None => None
      end
  end.

(** The records of [s], one for each line; each record takes one unit of
    [fuel]. *)
Fixpoint readRecords (fuel : nat) (s : string) : option (list (list string)) :=
  match fuel with
  | 0 => None
  | S fuel' =>
      match readRecord (S (String.length s)) s with
      | Some (fs, None) => Some [fs]
      | Some (fs, Some r) =>
          match readRecords fuel' r with
          | Some rs => Some (fs :: rs)
          | None => None
          end
      | None => None
      end
  end.

Definition readCsv (s : string) : option (list (list string)) :=
  readRecords (S (String.length s)) s.


Section CellText.
Context {num : Type} `{JsNumber num}.


End CellText.
(** ** Reading the location label *)

(** The test of [getFirstTextFromSelectors] on the text content of one
    element: [txt && !/select|enter/i.test(txt)] after the [trim]. *)
Definition acceptableLabel (textContent : string) : bool :=
  nonEmpty (trim textContent) && negb (isPlaceholderText (trim textContent)).

(** ** The HTTP routes ([server.js]) *)

(** [value.split(sep)] for a separator of one character: the pieces
    between the separators, empty pieces included. *)
Fixpoint splitOn (sep : ascii) (s : string) : list string :=
  match s with
  | EmptyString => [EmptyString]
  | String c r =>
      if Ascii.eqb c sep then EmptyString :: splitOn sep r
      else match splitOn sep r with
           | piece :: pieces => String c piece :: pieces
           | [] => [String c EmptyString]
           end
  end.

(** The answer of a route.  [Unanswered] is an exception that leaves the
    [async] handler outside its [try] block: no status is sent. *)
Inductive answer (A : Type) : Type :=
| Status200 (result : A)
| Status400 (error : string)
| Status404 (error : string)
| Status500 (error : option string)
| Unanswered.
Arguments Status200 {A} result.
Arguments Status400 {A} error.
Arguments Status404 {A} error.
Arguments Status500 {A} error.
Arguments Unanswered {A}.

Section Routes.
Context {num : Type} `{JsNumber num}.
Variable rupee : string.

(** A field of the request body, [undefined] when the body or the field is
    missing: an array has each entry printed and trimmed, a string is split
    at the commas and each piece trimmed, and the empty texts are dropped;
    anything else gives the empty list. *)
Definition parseCommaList (v : value num) : result (list string) :=
  match v with
  | Some (JArr entries) =>
      printed <- mapM toStringJS entries ;;
      Ok (filter nonEmpty (map trim printed))
  | Some (JStr s) => Ok (filter nonEmpty (map trim (splitOn ","%char s)))
  | _ => Ok []
  end.

(** The three fields the batch route reads off [req.body]. *)
Record batchBody : Type := BatchBody {
  bodyPincodes : value num;
  bodySearchTerms : value num;
  bodyQuantities : value num
}.

(** [POST /api/blinkit/batch-csv].  The message of a [Failed] batch is
    that of an exception the model does not name. *)
Definition postBatchCsv (s : site) (body : batchBody)
  : answer (batchReport (num:=num)) * list batchEvent :=
  match parseCommaList (bodyPincodes body) with
  | Throw => (Unanswered, [])
  | Ok pincodes =>
      match parseCommaList (bodySearchTerms body) with
      | Throw => (Unanswered, [])
      | Ok searchTerms =>
          match parseCommaList (bodyQuantities body) with
          | Throw => (Unanswered, [])
          | Ok quantities =>
              if Nat.eqb (List.length pincodes) 0 || Nat.eqb (List.length searchTerms) 0
              then (Status400 "pincodes and searchTerms are required (comma-separated or arrays).",
                    [])
              else
                match runBlinkitBatchCsv rupee s
                        (BatchInput (ArrayOf pincodes) (ArrayOf searchTerms)
                                    (Some (ArrayOf quantities))) with
                | (Completed report, evs) => (Status200 report, evs)
                | (InputError message, evs) => (Status500 (Some message), evs)
                | (Failed, evs) => (Status500 None, evs)
                end
          end
      end
  end.

(** [path.basename(p)] of a POSIX path, scanned from its end as Node
    does: the slashes at the end are skipped, and the characters before
    them are taken up to the next slash. *)
Definition basename (p : string) : string :=
  rev_string
    (takeWhile (fun c => negb (Ascii.eqb c "/"%char))
       (dropWhile (fun c => Ascii.eqb c "/"%char) (rev_string p))).

(** What the file system holds at a path. *)
Inductive entry : Type := Missing | RegularFile | Directory.

(** What is at [path.join(outputDir, safeName)] for a name without a
    slash.  The names [.] and [..] pass the test of the route: the join
    resolves [..] to the directory of the server, which is there while the
    server runs, and [.] to the output directory itself.  [output] is
    [None] until the output directory is created and then the lookup of
    its entries. *)
Definition outputEntry (output : option (string -> entry)) (safeName : string) : entry :=
  if safeName =? ".." then Directory
  else
    match output with
    | None => Missing
    | Some entries => if safeName =? "." then Directory else entries safeName
    end.

(** A name that [send] treats as hidden: a dot and at least one more
    character.  The join has already resolved [..] away. *)
Definition isDotfile (name : string) : bool :=
  match name with
  | String c (String _ _) => Ascii.eqb c "."%char && negb (name =? "..")
  | _ => false
  end.

(** [res.download(filePath, safeName)] for a path that exists, as Express
    serves it with its default options: a hidden name is ignored and the
    error handler answers 404 with its own page; for a directory the
    request is passed on and the last route of the server answers it as an
    unknown path under [/api/]; a regular file is sent under its name.
    Files are taken to be readable, and the directories above the output
    directory not to be hidden. *)
Definition download (safeName : string) (found : entry) : answer string :=
  if isDotfile safeName then Status404 "Not Found"
  else
    match found with
    | Directory => Status404 "API endpoint not found"
    | RegularFile => Status200 safeName
    | Missing => Status404 "Not Found"
    end.

(** [GET /api/blinkit/batch-csv/:filename]: the answer carries the name
    under which the file is sent. *)
Definition getBatchCsv (output : option (string -> entry)) (requested : string)
  : answer string :=
  let safeName := basename requested in
  if negb (nonEmpty safeName) || negb (safeName =? requested)
  then Status400 "Invalid filename"
  else
    match outputEntry output safeName with
    | Missing => Status404 "File not found"
    | found => download safeName found
    end.
End Routes.
(** ** The other callers of the search ([server.js], [probeBlinkitSearch]) *)

Section SearchVariants.
Context {num : Type} `{JsNumber num}.
Variable rupee : string.

(** The response whose JSON resolves [productJsonPromise], when one does
    before the timer: the handler is removed as soon as a response
    qualifies, each response being handled before the next arrives. *)
Fixpoint capturedResponse (responses : list (response (num:=num)))
  : option (response (num:=num)) :=
  match responses with
  | [] => None
  | r :: rest => if qualifies r then Some r else capturedResponse rest
  end.

(** [runServiceSearchSimple] of [server.js], for the helpers of
    [searchHelpers.js] (all three are functions): the same race as the
    batch service runs, but a failed navigation throws. *)
Definition runServiceSearchSimple (navigationSuccess : bool)
           (responses : list (response (num:=num))) : result (list (product num)) :=
  if negb navigationSuccess then Throw
  else extractProductInformation rupee (Some (awaitProductJson responses)).








End SearchVariants.
(** ** More sample inputs *)

(** A site that knows one pincode only and cannot open the results of
    [leek]. *)
Definition patchySite : site (num:=double) :=
  Site true true (fun _ => true)
       (fun pincode => if pincode =? "575001" then Ok (Some "Mangaluru 575001") else Ok None)
       (fun _ term => negb (term =? "leek"))
       (fun _ _ => [searchResponse [freshOnionSnippet; soldOutPotatoSnippet]])
       (fun _ _ => []) true true
       "1700000000000".

Definition onionInput : batchInput :=
  BatchInput (ArrayOf ["575001"; "000000"]) (ArrayOf ["onion"]) None.

Definition leekInput : batchInput :=
  BatchInput (ArrayOf ["000000"; "575001"]) (ArrayOf ["onion"; "leek"]) (Some (ArrayOf [])).
(** ** The WebSocket session of one client ([server.js]) *)

(** A message that parses to an object: [data.type], [data.service] and
    [data.query], [None] when the field is missing, and [data.location], a
    text. *)
Record message : Type := Message {
  mtype : option string;
  service : option string;
  location : string;
  query : option string
}.

(** What the server sends back. *)
Inductive reply (num : Type) : Type :=
| ErrorReply (error : string) (svc : option string)
| LocationSet (svc : option string) (loc : string)
| SearchResults (svc : option string) (q : string) (products : list (product num))
| BrowserClosed (svc : string).
Arguments ErrorReply {num} error svc.
Arguments LocationSet {num} svc loc.
Arguments SearchResults {num} svc q products.
Arguments BrowserClosed {num} svc.

(** What a handler does: browser work and replies, in order. *)
Inductive effect (num : Type) : Type :=
| Launched (key : string)
| PageOpened (key : string)
| LocationTried (key : string) (loc : string)
| Searched (key : string) (q : string)
| Closed (key : string)
| Sent (r : reply num).
Arguments Launched {num} key.
Arguments PageOpened {num} key.
Arguments LocationTried {num} key loc.
Arguments Searched {num} key q.
Arguments Closed {num} key.
Arguments Sent {num} r.

(** The entries of the three tracking maps for one client: the keys
    (services) that have a browser, a page, and the location flag, in the
    order in which they were added. *)
Record tracked : Type := Tracked {
  browsers : list string;
  pages : list string;
  locSet : list string
}.

(** [None] once [cleanup] has deleted the entries of the client. *)
Definition session : Type := option tracked.

(** The state at connection. *)
Definition connected : session := Some (Tracked [] [] []).

(** [SVCS] *)
Definition SVCS : list string := ["blinkit"].

(** The property key [svc] stands for, and the text it prints as in a
    template: [undefined] gives the key and the text of that spelling. *)
Definition keyOf (svc : option string) : string :=
  match svc with
  | Some s => s
  | None => "undefined"
  end.

(** [svc] as a condition *)
Definition given (svc : option string) : bool :=
  match svc with
  | Some s => nonEmpty s
  | None => false
  end.

(** [delete obj[key]] *)
Definition deleteKey (key : string) (keys : list string) : list string :=
  filter (fun k => negb (k =? key)) keys.

(** [obj[key] = value] on the keys of an object: a key is listed once. *)
Definition setKey (key : string) (keys : list string) : list string :=
  if has keys key then keys else (keys ++ [key])%list.

(** [case text:] of the [switch] on [data.type] *)
Definition isType (text : string) (type : option string) : bool :=
  match type with
  | Some s => s =? text
  | None => false
  end.

(** The message of the [TypeError] of [map.get(cid)[key]] once the entry
    of the client is gone. *)
Definition noEntry (key : string) : string :=
  "Cannot read properties of undefined (reading '" ++ key ++ "')".

Section Session.
Context {num : Type} `{JsNumber num}.

(** What the browser and the site do while one message is handled. *)
Record world : Type := World {
  (** [puppet.launch] resolves *)
  launches : string -> bool;
  (** [browser.newPage] and the two settings resolve *)
  opensPage : string -> bool;
  (** the outcome of the location setter *)
  setsLocation : string -> string -> result (option string);
  (** the outcome of [runServiceSearchSimple] *)
  finds : string -> string -> result (list (product num));
  (** [browser.close] resolves *)
  closes : string -> bool;
  (** the message of the exception, when one of the above rejects *)
  raised : string
}.

(** [initBrowser]: the browser of the service is reused when there is
    one.  On the right, the message of the error the function throws. *)
Definition initBrowser (w : world) (t : tracked) (svc : option string)
  : (tracked + string) * list (effect num) :=
  if has (browsers t) (keyOf svc) then (inl t, [])
  else if launches w (keyOf svc)
       then (inl (Tracked (setKey (keyOf svc) (browsers t)) (pages t) (locSet t)),
             [Launched (keyOf svc)])
       else (inr ("Failed to initialize browser: " ++ raised w), []).

(** [getPage] *)
Definition getPage (w : world) (t : tracked) (svc : option string)
  : (tracked + string) * list (effect num) :=
  if has (pages t) (keyOf svc) then (inl t, [])
  else if opensPage w (keyOf svc)
       then (inl (Tracked (browsers t) (setKey (keyOf svc) (pages t)) (locSet t)),
             [PageOpened (keyOf svc)])
       else (inr ("Failed to create page: " ++ raised w), []).

(** The reply of the [catch] of [setLoc]. *)
Definition locationFailure (message : string) (svc : option string) : effect num :=
  Sent (ErrorReply ("Failed to set location: " ++ message) svc).

(** [setLoc].  The outcome of the setter is awaited and not looked at:
    only an exception keeps the flag from being set. *)
Definition setLoc (w : world) (st : session) (data : message)
  : session * list (effect num) :=
  let svc := service data in
  match st with
  | None =>
      (st, [locationFailure ("Failed to initialize browser: " ++ noEntry (keyOf svc)) svc])
  | Some t =>
      match initBrowser w t svc with
      | (inr message, evs) => (st, evs ++ [locationFailure message svc])%list
      | (inl t1, evs1) =>
          match getPage w t1 svc with
          | (inr message, evs) => (Some t1, evs1 ++ evs ++ [locationFailure message svc])%list
          | (inl t2, evs2) =>
              if negb (has SVCS (keyOf svc))
              then (Some t2,
                    evs1 ++ evs2
                    ++ [locationFailure ("Location setter missing for " ++ keyOf svc) svc])%list
              else
                match setsLocation w (keyOf svc) (location data) with
                | Throw =>
                    (Some t2,
                     evs1 ++ evs2 ++ [LocationTried (keyOf svc) (location data);
                                      locationFailure (raised w) svc])%list
                | Ok _ =>
                    (Some (Tracked (browsers t2) (pages t2) (setKey (keyOf svc) (locSet t2))),
                     evs1 ++ evs2 ++ [LocationTried (keyOf svc) (location data);
                                      Sent (LocationSet svc (location data))])%list
                end
          end
      end
  end.

(** [search] *)
Definition search (w : world) (st : session) (data : message)
  : session * list (effect num) :=
  let svc := service data in
  match query data with
  | None | Some EmptyString => (st, [Sent (ErrorReply "No search term provided" svc)])
  | Some q =>
      match st with
      | None => (st, [Sent (ErrorReply ("Search failed: " ++ noEntry (keyOf svc)) svc)])
      | Some t =>
          if negb (has (locSet t) (keyOf svc))
          then (st, [Sent (ErrorReply ("Location not set for " ++ keyOf svc
                                       ++ ". Set location first.") None)])
          else if negb (has (browsers t) (keyOf svc)) || negb (has (pages t) (keyOf svc))
          then (st, [Sent (ErrorReply ("Browser or page not initialized for " ++ keyOf svc)
                                      None)])
          else if negb (has SVCS (keyOf svc))
          then (st, [Sent (ErrorReply ("Search helpers not found for " ++ keyOf svc) svc)])
          else
            match finds w (keyOf svc) q with
            | Ok prods => (st, [Searched (keyOf svc) q; Sent (SearchResults svc q prods)])
            | Throw =>
                (st, [Searched (keyOf svc) q;
                      Sent (ErrorReply ("Search failed: " ++ raised w) svc)])
            end
      end
  end.

(** The loop of [cleanup] over the browsers of the client: it stops at
    the first [close] that rejects. *)
Fixpoint closeEach (w : world) (keys : list string) : bool * list (effect num) :=
  match keys with
  | [] => (true, [])
  | key :: rest =>
      if closes w key
      then let (ok, evs) := closeEach w rest in (ok, Closed key :: evs)
      else (false, [])
  end.

(** [cleanup]: the entries of the client are deleted unless a [close]
    rejects; the rejection is caught and logged. *)
Definition cleanup (w : world) (st : session) : session * list (effect num) :=
  match st with
  | None => (None, [])
  | Some t =>
      match closeEach w (browsers t) with
      | (true, evs) => (None, evs)
      | (false, evs) => (st, evs)
      end
  end.

(** [closeBrowser] *)
Definition closeBrowser (w : world) (st : session) (data : message)
  : session * list (effect num) :=
  let svc := service data in
  if given svc then
    match st with
    | Some t =>
        if has (browsers t) (keyOf svc) then
          if closes w (keyOf svc)
          then (Some (Tracked (deleteKey (keyOf svc) (browsers t))
                              (deleteKey (keyOf svc) (pages t))
                              (deleteKey (keyOf svc) (locSet t))),
                [Closed (keyOf svc); Sent (BrowserClosed (keyOf svc))])
          else (st, [Sent (ErrorReply ("Failed to close browser: " ++ raised w) svc)])
        else (st, [Sent (BrowserClosed (keyOf svc))])
    | None => (st, [Sent (BrowserClosed (keyOf svc))])
    end
  else
    let (st', evs) := cleanup w st in
    (st', evs ++ [Sent (BrowserClosed "all")])%list.

(** The handler of a message. *)
Definition handle (w : world) (st : session) (data : message)
  : session * list (effect num) :=
  if given (service data) && negb (has SVCS (keyOf (service data)))
  then (st, [Sent (ErrorReply "Invalid service specified" (service data))])
  else if isType "set-location" (mtype data) then setLoc w st data
  else if isType "search" (mtype data) then search w st data
  else if isType "close-browser" (mtype data) then closeBrowser w st data
  else (st, [Sent (ErrorReply ("Unknown message type: " ++ keyOf (mtype data)) None)]).

(** What reaches the server on one connection: a message, or the close of
    the socket. *)
Inductive arrival : Type :=
| Incoming (data : message)
| SocketClosed.

(** The arrivals of one connection, each handled to its end before the
    next, each in the world of its time. *)
Fixpoint handleAll (st : session) (inbox : list (world * arrival))
  : session * list (effect num) :=
  match inbox with
  | [] => (st, [])
  | (w, a) :: rest =>
      let (st1, evs1) := match a with
                         | Incoming data => handle w st data
                         | SocketClosed => cleanup w st
                         end in
      let (st2, evs2) := handleAll st1 rest in
      (st2, evs1 ++ evs2)%list
  end.

(** The keys whose browser is open after the effects [evs], [open] being
    those open before. *)
Fixpoint openAfter (open : list string) (evs : list (effect num)) : list string :=
  match evs with
  | [] => open
  | Launched key :: rest => openAfter (setKey key open) rest
  | Closed key :: rest => openAfter (deleteKey key open) rest
  | _ :: rest => openAfter open rest
  end.

(** No browser is launched for a key that has one open, and none is
    closed that is not open. *)
Fixpoint wellBracketed (open : list string) (evs : list (effect num)) : bool :=
  match evs with
  | [] => true
  | Launched key :: rest => negb (has open key) && wellBracketed (setKey key open) rest
  | Closed key :: rest => has open key && wellBracketed (deleteKey key open) rest
  | _ :: rest => wellBracketed open rest
  end.

(** A reply that refuses or only acknowledges: an error, or the
    acknowledgement of a close. *)
Definition isRefusal (ev : effect num) : bool :=
  match ev with
  | Sent (ErrorReply _ _) | Sent (BrowserClosed _) => true
  | _ => false
  end.

(** The services for which a [location-set] reply has been sent after the
    effects [evs], [flagged] being those before. *)
Fixpoint flaggedAfter (flagged : list string) (evs : list (effect num)) : list string :=
  match evs with
  | [] => flagged
  | Sent (LocationSet svc _) :: rest => flaggedAfter (keyOf svc :: flagged) rest
  | _ :: rest => flaggedAfter flagged rest
  end.

(** Every search of the trace is for a service of [SVCS] and comes after a
    [location-set] reply for that service. *)
Fixpoint searchesGated (flagged : list string) (evs : list (effect num)) : bool :=
  match evs with
  | [] => true
  | Sent (LocationSet svc _) :: rest => searchesGated (keyOf svc :: flagged) rest
  | Searched key _ :: rest => has flagged key && has SVCS key && searchesGated flagged rest
  | _ :: rest => searchesGated flagged rest
  end.
End Session.

(** The tracking maps agree with each other: one entry for a key, a page
    only for a key with a browser, the flag only for a key with a page and
    only for a service of [SVCS]. *)
Definition consistent (t : tracked) : Prop :=
  NoDup (browsers t) /\ incl (pages t) (browsers t)
  /\ incl (locSet t) (pages t) /\ incl (locSet t) SVCS.

(** The session agrees with the browsers that are open. *)
Definition tracks (st : session) (open : list string) : Prop :=
  match st with
  | Some t => browsers t = open /\ consistent t
  | None => open = []
  end.

(** The flag of a session is set only for a service in [flagged]. *)
Definition flagsKnown (st : session) (flagged : list string) : Prop :=
  match st with
  | Some t => incl (locSet t) flagged
  | None => True
  end.

(** ** Sample messages *)

Definition setLocationMessage (loc : string) : message :=
  Message (Some "set-location") (Some "blinkit") loc None.

Definition searchMessage (q : string) : message :=
  Message (Some "search") (Some "blinkit") EmptyString (Some q).

Definition closeAllMessage : message :=
  Message (Some "close-browser") None EmptyString None.

(** A world in which everything works, the setter reports a failure
    ([null]) and a search finds nothing. *)
Definition calmWorld : world (num:=double) :=
  World (fun _ => true) (fun _ => true) (fun _ _ => Ok None) (fun _ _ => Ok [])
        (fun _ => true) EmptyString.
(** ** The address of a search ([navigateToSearch]) *)

(** The characters [encodeURIComponent] leaves alone: letters, digits and
    [- _ . ! ~ * ' ( )]. *)
Definition isUnreserved (c : ascii) : bool :=
  isAlpha c || isDigit c
  || existsb (Ascii.eqb c) ["-"; "_"; "."; "!"; "~"; "*"; "'"; "("; ")"]%char.

(** One hexadecimal digit, in upper case. *)
Definition hexDigit (n : nat) : ascii :=
  ascii_of_nat (if Nat.ltb n 10 then 48 + n else 55 + n).

(** [%XX] for one byte *)
Definition percentByte (byte : nat) : string :=
  String "%" (String (hexDigit (byte / 16)) (String (hexDigit (byte mod 16)) EmptyString)).

(** The escape of one code unit below 256: its UTF-8 bytes, one below 128
    and two from there on. *)
Definition encodeChar (c : ascii) : string :=
  let n := nat_of_ascii c in
  if isUnreserved c then String c EmptyString
  else if Nat.ltb n 128 then percentByte n
  else percentByte (192 + n / 64) ++ percentByte (128 + n mod 64).

Fixpoint encodeURIComponent (s : string) : string :=
  match s with
  | EmptyString => EmptyString
  | String c r => encodeChar c ++ encodeURIComponent r
  end.

(** The address [navigateToSearch] goes to. *)
Definition searchUrl (searchTerm : string) : string :=
  "https://blinkit.com/s/?q=" ++ encodeURIComponent searchTerm.

(** [navigateToSearch]: [true] when [page.goto] resolves for that
    address, [false] when it rejects (the rejection is caught). *)
Definition navigateToSearch (gotoResolves : string -> bool) (searchTerm : string) : bool :=
  gotoResolves (searchUrl searchTerm).

(** The value of a hexadecimal digit in upper case. *)
Definition hexValue (c : ascii) : option nat :=
  let n := nat_of_ascii c in
  if isDigit c then Some (n - 48)
  else if Nat.leb 65 n && Nat.leb n 70 then Some (n - 55)
  else None.

(** The reading of an escaped text: the inverse of the escape, for bytes
    below 128 and for the two-byte sequences of the code units below 256. *)
Fixpoint percentDecode (s : string) : option string :=
  match s with
  | EmptyString => Some EmptyString
  | String c rest =>
      if Ascii.eqb c "%"%char then
        match rest with
        | String h1 (String h2 rest1) =>
            match hexValue h1, hexValue h2 with
            | Some a, Some b =>
                let byte := 16 * a + b in
                if Nat.ltb byte 128 then
                  match percentDecode rest1 with
                  | Some r => Some (String (ascii_of_nat byte) r)
                  | None => None
                  end
                else
                  match rest1 with
                  | String p (String h3 (String h4 rest2)) =>
                      match Ascii.eqb p "%"%char, hexValue h3, hexValue h4 with
                      | true, Some c3, Some d =>
                          match percentDecode rest2 with
                          | Some r =>
                              Some (String (ascii_of_nat ((byte - 192) * 64
                                                          + (16 * c3 + d - 128))) r)
                          | None => None
                          end
                      | _, _, _ => None
                      end
                  | _ => None
                  end
            | _, _ => None
            end
        | _ => None
        end
      else
        match percentDecode rest with
        | Some r => Some (String c r)
        | None => None
        end
  end.

(** * Properties *)

Unset Implicit Arguments.

(** ** Strings *)

Lemma append_empty_r (s : string) : s ++ EmptyString = s.
Proof. induction s as [|c s IH]; simpl; [reflexivity | now rewrite IH]. Qed.

Lemma append_assoc (a b c : string) : (a ++ b) ++ c = a ++ (b ++ c).
Proof. induction a as [|x a IH]; simpl; [reflexivity | now rewrite IH]. Qed.


Lemma rev_string_acc_spec (s acc : string) :
  rev_string_acc s acc = rev_string s ++ acc.
Proof.
  unfold rev_string. revert acc.
  induction s as [|c s IH]; intro acc; simpl; [reflexivity|].
  rewrite IH, (IH (String c EmptyString)), append_assoc. reflexivity.
Qed.

Lemma rev_string_cons (c : ascii) (s : string) :
  rev_string (String c s) = rev_string s ++ String c EmptyString.
Proof. unfold rev_string at 1. simpl. apply rev_string_acc_spec. Qed.

Lemma rev_string_append (a b : string) :
  rev_string (a ++ b) = rev_string b ++ rev_string a.
Proof.
  induction a as [|c a IH]; simpl.
  - unfold rev_string at 2. simpl. now rewrite append_empty_r.
  - rewrite !rev_string_cons, IH, append_assoc. reflexivity.
Qed.

Lemma rev_string_involutive (s : string) : rev_string (rev_string s) = s.
Proof.
  induction s as [|c s IH]; [reflexivity|].
  rewrite rev_string_cons, rev_string_append, IH. reflexivity.
Qed.


Lemma startsWith_spec (p s : string) :
  startsWith p s = true <-> exists r, s = p ++ r.
Proof.
  revert s. induction p as [|a p IH]; intro s; simpl.
  - split; [intros _; now exists s | reflexivity].
  - destruct s as [|b s].
    + split; [discriminate | intros [r Hr]; discriminate].
    + rewrite andb_true_iff, IH. split.
      * intros [Hab [r ->]]. apply Ascii.eqb_eq in Hab. subst. now exists r.
      * intros [r Hr]. injection Hr as -> ->. split; [apply Ascii.eqb_refl | now exists r].
Qed.

Lemma startsWith_append (p r : string) : startsWith p (p ++ r) = true.
Proof. apply startsWith_spec. now exists r. Qed.

Lemma dropPrefix_append (p r : string) : dropPrefix p (p ++ r) = r.
Proof. induction p as [|a p IH]; simpl; [reflexivity | exact IH]. Qed.





Lemma toLowerChar_idempotent (c : ascii) : toLowerChar (toLowerChar c) = toLowerChar c.
Proof. destruct c as [[] [] [] [] [] [] [] []]; reflexivity. Qed.

Lemma toLowerCase_idempotent (s : string) : toLowerCase (toLowerCase s) = toLowerCase s.
Proof.
  induction s as [|c s IH]; simpl; [reflexivity|].
  now rewrite toLowerChar_idempotent, IH.
Qed.

Lemma dropWhile_head_false (p : ascii -> bool) (s : string) :
  headIs p s = false -> dropWhile p s = s.
Proof. destruct s as [|c s]; simpl; [reflexivity | now intros ->]. Qed.

(** [trim] leaves a text alone when neither end is white space. *)
Lemma trim_fixed (s : string) :
  headIs isSpace s = false -> headIs isSpace (rev_string s) = false -> trim s = s.
Proof.
  intros Hh Ht. unfold trim, trimEnd, trimStart.
  rewrite (dropWhile_head_false _ _ Hh), (dropWhile_head_false _ _ Ht).
  apply rev_string_involutive.
Qed.

Lemma dropWhile_headIs (p : ascii -> bool) (s : string) :
  headIs p (dropWhile p s) = false.
Proof.
  induction s as [|c s IH]; simpl; [reflexivity|].
  destruct (p c) eqn:Hc; [exact IH | simpl; exact Hc].
Qed.

Lemma nonEmpty_false (s : string) : nonEmpty s = false <-> s = EmptyString.
Proof. destruct s; simpl; split; congruence. Qed.

Lemma In_takeWhile (p : ascii -> bool) (c : ascii) (s : string) :
  In c (list_ascii_of_string (takeWhile p s)) -> p c = true.
Proof.
  induction s as [|x s IH]; simpl; [tauto|].
  destruct (p x) eqn:Hx; simpl; [|tauto].
  intros [<- | Hin]; auto.
Qed.

Lemma takeWhile_all (p : ascii -> bool) (s : string) :
  (forall c, In c (list_ascii_of_string s) -> p c = true) -> takeWhile p s = s.
Proof.
  induction s as [|x s IH]; simpl; intros Hall; [reflexivity|].
  rewrite (Hall x (or_introl eq_refl)), IH; [reflexivity|].
  intros c Hc. apply Hall. now right.
Qed.


Lemma takeWhile_head_false (p : ascii -> bool) (s : string) :
  headIs p s = false -> takeWhile p s = EmptyString.
Proof. destruct s as [|c s]; simpl; [reflexivity | now intros ->]. Qed.


Lemma takeWhile_takeWhile (p : ascii -> bool) (s : string) :
  takeWhile p (takeWhile p s) = takeWhile p s.
Proof. apply takeWhile_all. intros c. apply In_takeWhile. Qed.

Lemma In_append (c : ascii) (a b : string) :
  In c (list_ascii_of_string (a ++ b))
  <-> In c (list_ascii_of_string a) \/ In c (list_ascii_of_string b).
Proof.
  induction a as [|x a IH]; simpl; [tauto|]. rewrite IH. tauto.
Qed.

Lemma dropWhile_append_keep (p : ascii -> bool) (x : string) (c : ascii) :
  p c = false ->
  dropWhile p (x ++ String c EmptyString) = dropWhile p x ++ String c EmptyString.
Proof.
  intros Hc. induction x as [|a x IH]; simpl; [now rewrite Hc|].
  destruct (p a); [exact IH | reflexivity].
Qed.

(** [trim] leaves no white space at either end. *)
Lemma trim_clean (s : string) :
  headIs isSpace (trim s) = false /\ headIs isSpace (rev_string (trim s)) = false.
Proof.
  unfold trim, trimEnd, trimStart. split.
  - pose proof (dropWhile_headIs isSpace s) as Hh.
    destruct (dropWhile isSpace s) as [|c t]; [reflexivity|]. simpl in Hh.
    rewrite rev_string_cons, (dropWhile_append_keep isSpace _ c Hh), rev_string_append.
    simpl. exact Hh.
  - rewrite rev_string_involutive. apply dropWhile_headIs.
Qed.
(** ** Rounding to the nearest double *)


Section RoundingIntegers.
Local Open Scope Z_scope.



End RoundingIntegers.

Section RoundingRationals.
Local Open Scope Q_scope.







Lemma max_split (e : Z) : (Z.max 0 (- e) - Z.max 0 e = - e)%Z.
Proof. lia. Qed.
















End RoundingRationals.

(** ** Quantities *)

Section QuantityFacts.
Context {num : Type} `{JsNumber num}.

Lemma normalizeUnit_lower (unit : string) :
  normalizeUnit unit = normalizeUnit (toLowerCase unit).
Proof. unfold normalizeUnit. now rewrite toLowerCase_idempotent. Qed.

Lemma normalizeQuantity_lower (v : num) (unit : string) :
  normalizeQuantity v unit = normalizeQuantity v (toLowerCase unit).
Proof. unfold normalizeQuantity. now rewrite <- normalizeUnit_lower. Qed.

Lemma canonicalQuantity_lower (v : num) (unit : string) :
  canonicalQuantity v unit = canonicalQuantity v (toLowerCase unit).
Proof. unfold canonicalQuantity. now rewrite toLowerCase_idempotent. Qed.

(** [normalizeQuantity] computes the normalisation of the specification. *)
Lemma normalizeQuantity_canonical (v : num) (unit : string) :
  normalizeQuantity v unit = canonicalQuantity v unit.
Proof.
  pose proof (toLowerCase_idempotent unit) as Hidem.
  destruct (in_dec string_dec (toLowerCase unit) unitLiterals) as [Hin | Hout].
  - rewrite normalizeQuantity_lower, canonicalQuantity_lower.
    simpl in Hin.
    repeat (destruct Hin as [Hin | Hin]; [rewrite <- Hin; reflexivity|]).
    contradiction.
  - remember (toLowerCase unit) as l eqn:Hl.
    assert (Ht : forall lit, In lit unitLiterals -> (l =? lit) = false).
    { intros lit Hlit. apply String.eqb_neq. intros ->. contradiction. }
    assert (N1 : normalizeUnit unit = l).
    { unfold normalizeUnit. rewrite <- Hl. rewrite !Ht by (simpl; tauto). reflexivity. }
    assert (N2 : normalizeUnit l = l).
    { unfold normalizeUnit. rewrite Hidem. rewrite !Ht by (simpl; tauto). reflexivity. }
    assert (N3 : unitCategory l = unknown).
    { unfold unitCategory. rewrite N2.
      cbv [has existsb WEIGHT_UNITS VOLUME_UNITS COUNT_UNITS].
      rewrite !Ht by (simpl; tauto). reflexivity. }
    unfold normalizeQuantity, canonicalQuantity.
    rewrite N1, N3, <- Hl.
    cbv [has existsb]. rewrite !Ht by (simpl; tauto). reflexivity.
Qed.



End QuantityFacts.

(** *** The quantities as doubles *)










(** C1 as the specification words it fails at the boundary, in both
    directions.  For the request [1g] a product of [1.1 g] is rejected,
    though the decimal values are exactly a tenth apart: the double nearest
    1.1 lies above it.  For the request [3.1g] a product of [3.41 g] is
    accepted, though the two doubles are more than a tenth of the
    requested double apart: the tolerance is rounded up. *)
Lemma C1_tolerance_counterexample :
  matchesQuantity (num:=double) (JStr "1.1 g") (extractQuantityFromTerm "salt 1g") = Ok false
  /\ (Qabs (decimalOf "1.1" - decimalOf "1") <= (1 # 10) * decimalOf "1")%Q
  /\ extractQuantityFromTerm (num:=double) "salt 3.1g"
     = Some (Quantity (Finite (6980579422424269 # 2251799813685248)) "g" weight)
  /\ normalizeQuantityValue (num:=double) (JStr "3.41 g")
     = Ok (Some (Quantity (Finite (959829670583337 # 281474976710656)) "g" weight))
  /\ ~ (Qabs ((959829670583337 # 281474976710656) - (6980579422424269 # 2251799813685248))
        <= (1 # 10) * (6980579422424269 # 2251799813685248))%Q
  /\ matchesQuantity (num:=double) (JStr "3.41 g") (extractQuantityFromTerm "salt 3.1g") = Ok true.
Proof.
  split; [vm_compute; reflexivity|].
  split; [vm_compute; discriminate|].
  split; [vm_compute; reflexivity|].
  split; [vm_compute; reflexivity|].
  split; [vm_compute; intros Hle; now apply Hle|].
  vm_compute. reflexivity.
Qed.

(** ** The quantity stage of the batch filter *)

Section QuantityFilter.
Context {num : Type} `{JsNumber num}.

Lemma quantityMismatch_open (requestedQty : option (NormalizedQuantity num)) (productQty : json num) :
  requestedQty = None \/ normalizeQuantityValue productQty = Ok None ->
  quantityMismatch requestedQty productQty = Ok false.
Proof.
  intros [-> | Hp]; [reflexivity|].
  destruct requestedQty as [requested|]; [|reflexivity].
  unfold quantityMismatch, matchesQuantity. rewrite Hp. reflexivity.
Qed.

(** The log line changes no verdict: it lets it through or throws. *)
Lemma logSkipped_verdict (p : product num) (v w : verdict) :
  logSkipped p v = Ok w -> w = v.
Proof. unfold logSkipped. destruct (toStringJS (p_name p)); simpl; congruence. Qed.

Lemma filterProduct_quantity_stage (term : string) (requestedQty : option (NormalizedQuantity num))
      (p : product num) :
  quantityMismatch requestedQty (p_quantity p) = Ok false ->
  filterProduct term requestedQty p <> Ok DropQuantityMismatch.
Proof.
  intros Hm. unfold filterProduct. rewrite Hm.
  destruct (if isTomatoSearch term then isProcessedProduct (p_name p) else Ok false)
    as [[]|]; cbn [bind]; try discriminate.
  { intros Hd. apply logSkipped_verdict in Hd. discriminate. }
  destruct (negb (p_available p)).
  { intros Hd. apply logSkipped_verdict in Hd. discriminate. }
  destruct (if negb (truthy (p_deliveryTime p)) then Ok true
            else s <- toStringJS (p_deliveryTime p);; Ok (toLowerCase s =? "n/a"))
    as [[]|]; cbn [bind]; try discriminate.
  { intros Hd. apply logSkipped_verdict in Hd. discriminate. }
  destruct (matchesSearchTerm (p_name p) term) as [[]|]; cbn [bind negb]; try discriminate.
  intros Hd. apply logSkipped_verdict in Hd. discriminate.
Qed.

(** C8. The quantity filter is fail-open: when the term holds no quantity
    token, or the product's quantity text does not parse (the sentinel
    [N/A] does not), [matchesQuantity] answers [true], the mismatch test of
    the batch loop is [false], and no product is dropped for its quantity. *)
Theorem C8_quantity_filter_fail_open (term productQty : string)
        (Hopen : extractQuantityFromTerm term = None
                 \/ normalizeQuantityValue (JStr productQty) = Ok None) :
  matchesQuantity (JStr productQty) (extractQuantityFromTerm term) = Ok true
  /\ quantityMismatch (extractQuantityFromTerm term) (JStr productQty) = Ok false
  /\ (forall p : product num,
        p_quantity p = JStr productQty ->
        filterProduct term (extractQuantityFromTerm term) p <> Ok DropQuantityMismatch)
  /\ normalizeQuantityValue (JStr "N/A") = Ok None.
Proof.
  split; [|split; [|split]].
  - destruct Hopen as [-> | Hp]; [reflexivity|].
    unfold matchesQuantity. rewrite Hp.
    destruct (extractQuantityFromTerm term); reflexivity.
  - now apply quantityMismatch_open.
  - intros p Hq. apply filterProduct_quantity_stage. rewrite Hq.
    now apply quantityMismatch_open.
  - reflexivity.
Qed.
End QuantityFilter.

(** C8 at the term [onions], which requests no quantity, and the product
    quantity [500g]. *)
Lemma C8_quantity_filter_fail_open_witness :
  extractQuantityFromTerm (num:=double) "onions" = None
  /\ matchesQuantity (num:=double) (JStr "500g") (extractQuantityFromTerm "onions") = Ok true
  /\ quantityMismatch (num:=double) (extractQuantityFromTerm "onions") (JStr "500g") = Ok false.
Proof.
  assert (Hn : extractQuantityFromTerm (num:=double) "onions" = None) by (vm_compute; reflexivity).
  split; [exact Hn|].
  split.
  - exact (proj1 (C8_quantity_filter_fail_open "onions" "500g" (or_introl Hn))).
  - exact (proj1 (proj2 (C8_quantity_filter_fail_open "onions" "500g" (or_introl Hn)))).
Defined.

(** ** Batch orchestrator: validation and expansion *)

Lemma trim_joined (term qty : string) :
  opensClean term = true -> closesClean qty = true ->
  trim (term ++ " " ++ qty) = term ++ " " ++ qty.
Proof.
  unfold closesClean, opensClean. intros Ht Hq.
  apply andb_true_iff in Ht as [Ht1 Ht2]. apply andb_true_iff in Hq as [Hq1 Hq2].
  apply negb_true_iff in Ht2, Hq2.
  apply trim_fixed.
  - destruct term; [discriminate | exact Ht2].
  - rewrite rev_string_append, rev_string_append.
    destruct (rev_string qty); [discriminate | exact Hq2].
Qed.

Lemma flat_map_ext_in {A B : Type} (f g : A -> list B) (l : list A) :
  (forall x, In x l -> f x = g x) -> flat_map f l = flat_map g l.
Proof.
  induction l as [|a l IH]; intros Hfg; simpl; [reflexivity|].
  rewrite (Hfg a (or_introl eq_refl)), IH; [reflexivity|].
  intros x Hx. apply Hfg. now right.
Qed.



Section BatchFacts.
Context {num : Type} `{JsNumber num}.
Variable rupee : string.

Lemma forEachTerm_searches (s : site) (pincode : string) (terms : list string) :
  forall ev, In ev (snd (forEachTerm rupee s pincode terms)) ->
             exists term, ev = Search pincode term /\ In term terms.
Proof.
  induction terms as [|term rest IH]; simpl; [intros ev []|].
  intros ev.
  destruct (runBlinkitSearch rupee (navigationSucceeds s pincode term)
              (responsesFor s pincode term)) as [[products|]|].
  - destruct (forEachProduct pincode term (extractQuantityFromTerm term) products).
    + destruct (forEachTerm rupee s pincode rest) as [r evs]. simpl in *.
      intros [<- | Hin]; [exists term; auto|].
      destruct (IH ev Hin) as [t [-> Ht]]. exists t; auto.
    + simpl. intros [<- | []]. exists term; auto.
  - simpl. intros [<- | []]. exists term; auto.
  - simpl. intros [<- | []]. exists term; auto.
Qed.



(** C7. The batch fails with an input-validation error exactly when
    [pincodes] or [searchTerms] is not a non-empty array or [quantities] is
    given and is not an array; it then fails before anything else happens:
    no directory, no browser, no page, no second try. *)
Theorem C7_input_validation (s : site) (input : batchInput) :
  ((exists message, fst (runBlinkitBatchCsv rupee s input) = InputError message)
   <-> (isNonEmptyArray (pincodes input) = false
        \/ isNonEmptyArray (searchTerms input) = false
        \/ quantities input = Some NotArray))
  /\ (forall message,
        fst (runBlinkitBatchCsv rupee s input) = InputError message ->
        snd (runBlinkitBatchCsv rupee s input) = []
        /\ validateInput input = Some message).
Proof.
  destruct input as [pins terms q]. unfold runBlinkitBatchCsv.
  destruct (validateInput (BatchInput pins terms q)) as [message|] eqn:Hv.
  - split.
    + split; [|intros _; now exists message].
      intros _. revert Hv. unfold validateInput. cbn [pincodes searchTerms quantities].
      destruct pins as [|[|p pins]]; auto.
      destruct terms as [|[|t terms]]; auto.
      destruct q as [[|qs]|]; simpl; auto; discriminate.
    + simpl. intros m [= ->]. auto.
  - assert (Hok : exists ps ts qs, pins = ArrayOf ps /\ terms = ArrayOf ts
                                   /\ withDefault q = ArrayOf qs
                                   /\ isNonEmptyArray pins = true
                                   /\ isNonEmptyArray terms = true
                                   /\ q <> Some NotArray).
    { revert Hv. unfold validateInput. cbn [pincodes searchTerms quantities].
      destruct pins as [|[|p pins]]; try discriminate.
      destruct terms as [|[|t terms]]; try discriminate.
      destruct q as [[|qs]|]; simpl; try discriminate; intros _.
      - exists (p :: pins), (t :: terms), qs. repeat split; auto; discriminate.
      - exists (p :: pins), (t :: terms), []. repeat split; auto; discriminate. }
    destruct Hok as [ps [ts [qs [-> [-> [Hq [Hp [Ht Hn]]]]]]]].
    cbn [pincodes searchTerms quantities]. rewrite Hq.
    assert (Hnot : forall message,
               fst (runBlinkitBatchCsv rupee s (BatchInput (ArrayOf ps) (ArrayOf ts) q))
               <> InputError message).
    { intros message. unfold runBlinkitBatchCsv. rewrite Hv.
      cbn [pincodes searchTerms quantities]. rewrite Hq.
      destruct (negb (mkdirSucceeds s)); [discriminate|].
      destruct (negb (launchSucceeds s)); [discriminate|].
      destruct (forEachPincode rupee s ps (expandSearchTerms ts qs)) as [[rows|] evs];
        [|discriminate].
      destruct (negb (browserCloses s)); [discriminate|].
      destruct (buildCsv rows); [|discriminate].
      destruct (negb (writeSucceeds s)); discriminate. }
    unfold runBlinkitBatchCsv in Hnot. rewrite Hv in Hnot.
    cbn [pincodes searchTerms quantities] in Hnot. rewrite Hq in Hnot.
    split.
    + split.
      * intros [message Hm]. now apply Hnot in Hm.
      * intros [Hc | [Hc | Hc]]; congruence.
    + intros message Hm. now apply Hnot in Hm.
Qed.
End BatchFacts.



(** C7 at an empty list of pincodes. *)
Lemma C7_input_validation_witness :
  fst (runBlinkitBatchCsv "Rs" quietSite (BatchInput (ArrayOf []) (ArrayOf ["onions"]) None))
  = InputError "pincodes must be a non-empty array"
  /\ snd (runBlinkitBatchCsv "Rs" quietSite (BatchInput (ArrayOf []) (ArrayOf ["onions"]) None))
     = [].
Proof.
  split; [reflexivity|].
  apply (proj2 (C7_input_validation "Rs" quietSite
                  (BatchInput (ArrayOf []) (ArrayOf ["onions"]) None))
               "pincodes must be a non-empty array").
  reflexivity.
Defined.

(** ** CSV *)








Section CsvFacts.
Context {num : Type} `{JsNumber num}.

End CsvFacts.


(** C9 as the specification words it fails on a carriage return: the text
    [a], carriage return, [b] holds none of the three characters, is
    written without quotes, and is read back as [a], the rest being taken
    for the next record. *)
Lemma C9_carriage_return_counterexample :
  hasCsvSpecial ("a" ++ String carriageReturn "b") = false
  /\ toCsvValue (num:=double) (Some (JStr ("a" ++ String carriageReturn "b")))
     = Ok ("a" ++ String carriageReturn "b")
  /\ readField ("a" ++ String carriageReturn "b") = Some ("a", String carriageReturn "b")
  /\ readCsv ("a" ++ String carriageReturn "b") = Some [["a"]; ["b"]].
Proof. repeat split; vm_compute; reflexivity. Qed.

(** ** Product extraction *)

Section ExtractionFacts.
Context {num : Type} `{JsNumber num}.
Variable rupee : string.

Lemma forEachSnippet_extracted (snippets : list (json num)) :
  forall idx prods p,
    forEachSnippet rupee snippets idx = Ok prods -> In p prods ->
    exists snip i, In snip snippets /\ extractSnippet rupee snip i = Ok (Extracted p).
Proof.
  induction snippets as [|snip rest IH]; simpl; intros idx prods p.
  - intros [= <-] [].
  - destruct (extractSnippet rupee snip idx) as [outcome|] eqn:Ho; [|discriminate]. simpl.
    destruct (forEachSnippet rupee rest (S idx)) as [more|] eqn:Hm; [|discriminate]. simpl.
    intros [= <-] Hin.
    assert (Hrest : In p more -> exists snip0 i,
                 (snip = snip0 \/ In snip0 rest) /\ extractSnippet rupee snip0 i = Ok (Extracted p)).
    { intros Hp. destruct (IH _ _ _ Hm Hp) as [s [i [Hs He]]]. exists s, i. auto. }
    destruct outcome as [|q|]; auto.
    destruct Hin as [<- | Hin]; [|auto].
    exists snip, idx. auto.
Qed.

Lemma extractSnippet_extracted (snip : json num) (idx : nat) (p : product num) :
  extractSnippet rupee snip idx = Ok (Extracted p) ->
  exists entries, get snip "data" = Some (JObj entries)
                  /\ extractFields rupee (JObj entries) idx = Ok p.
Proof.
  unfold extractSnippet.
  destruct (isSponsoredSnippet snip) as [[]|]; simpl; try discriminate.
  destruct snip as [| | | | |entries0]; simpl; try discriminate.
  destruct (lookup "data" entries0) as [raw|]; simpl; [|discriminate].
  destruct (truthy raw) eqn:Hraw; simpl; [|discriminate].
  destruct (isString "image_text_vr_type_header" (lookup "widget_type" entries0));
    simpl; [discriminate|].
  destruct raw as [| | | | |entries]; simpl in *; try discriminate.
  destruct (negb (truthyV (lookup "name" entries)) || negb (truthyV (lookup "identity" entries))
            || isString "product_container" (getOpt (lookup "identity" entries) "id"));
    [discriminate|].
  destruct (extractFields rupee (JObj entries) idx) as [q|] eqn:Hq; [|discriminate].
  intros [= <-]. exists entries. auto.
Qed.

Lemma extractFields_available (entries : list (string * json num)) (idx : nat) (p : product num) :
  extractFields rupee (JObj entries) idx = Ok p ->
  match lookup "is_sold_out" entries with
  | Some soldOut => p_available p = negb (truthy soldOut)
  | None =>
      match lookup "inventory" entries with
      | Some inventory => greaterThanZero inventory = Ok (p_available p)
      | None => p_available p = true
      end
  end.
Proof.
  unfold extractFields.
  destruct (getStrict (get (JObj entries) "identity") "id") as [identityId|]; [|discriminate].
  cbn [bind].
  destruct (match orElse (andGet (andGet (get (JObj entries) "offer_tag") "title") "text") JNull
            with JNull => Ok JNull | JStr s => Ok (JStr (replaceNewlines s)) | _ => Throw end)
    as [disc|]; [|discriminate].
  cbn [bind].
  destruct (hasKey "hasOwnProperty" entries); [discriminate|].
  destruct (lookup "is_sold_out" entries) as [soldOut|].
  - cbn [bind]. match goal with |- (bind ?e _) = _ -> _ => destruct e; [|discriminate] end.
    intros [= <-]. reflexivity.
  - destruct (lookup "inventory" entries) as [inventory|].
    + destruct (greaterThanZero inventory) as [b|]; [|discriminate].
      cbn [bind]. match goal with |- (bind ?e _) = _ -> _ => destruct e; [|discriminate] end.
      intros [= <-]. reflexivity.
    + cbn [bind]. match goal with |- (bind ?e _) = _ -> _ => destruct e; [|discriminate] end.
      intros [= <-]. reflexivity.
Qed.

(** A payload without a [response.snippets] array yields no product. *)
Lemma extractProductInformation_no_snippets (payload : value num) :
  snippetsOf payload = None -> extractProductInformation rupee payload = Ok [].
Proof. unfold extractProductInformation. now intros ->. Qed.

(** The marker of the timeout is such a payload. *)
Lemma extractProductInformation_fallback :
  extractProductInformation rupee (Some fallbackMarker) = Ok []
  /\ awaitProductJson [] = fallbackMarker.
Proof. split; reflexivity. Qed.

(** An exception inside the [try] block drops that snippet alone. *)
Lemma forEachSnippet_caught (snip : json num) (rest : list (json num)) (idx : nat) :
  extractSnippet rupee snip idx = Ok Caught ->
  forEachSnippet rupee (snip :: rest) idx
  = (prods <- forEachSnippet rupee rest (S idx) ;; Ok prods).
Proof. simpl. intros ->. reflexivity. Qed.

(** A [null] among the snippets makes the callback throw outside the [try]
    block: the whole extraction is lost. *)
Lemma forEachSnippet_null (before after : list (json num)) :
  forall idx, forEachSnippet rupee (before ++ JNull :: after)%list idx = Throw.
Proof.
  induction before as [|snip before IH]; intro idx; simpl.
  - reflexivity.
  - destruct (extractSnippet rupee snip idx); [|reflexivity]. simpl.
    now rewrite IH.
Qed.
End ExtractionFacts.

(** *** The stock flag *)

Lemma dgtb_zero (x : double) : dgtb x (Finite 0) = true <-> isPositive x.
Proof.
  unfold isPositive. destruct x as [|[]| |q]; simpl.
  - split; [discriminate | intros [Hd | [q [Hd _]]]; discriminate].
  - split; [discriminate | intros [Hd | [q [Hd _]]]; discriminate].
  - split; [auto | reflexivity].
  - split; [discriminate | intros [Hd | [q [Hd _]]]; discriminate].
  - unfold dgtb, dleb, valueOf. rewrite negb_true_iff. split.
    + intros Hle. right. exists q. split; [reflexivity|].
      destruct (Qlt_le_dec 0 q) as [Hlt | Hge]; [exact Hlt|].
      apply Qle_bool_iff in Hge. congruence.
    + intros [Hd | [q' [[= <-] Hpos]]]; [discriminate|].
      destruct (Qle_bool q 0) eqn:Hle; [|reflexivity].
      apply Qle_bool_iff in Hle. exfalso. apply (Qlt_not_le _ _ Hpos Hle).
Qed.

(** [v > 0] holds exactly of the values above zero. *)
Lemma greaterThanZero_spec (v : json double) (b : bool) :
  greaterThanZero v = Ok b -> (b = true <-> aboveZero v).
Proof.
  assert (Hzero : parseFloat (JsNumber:=double_JsNumber) "0" = Finite 0) by reflexivity.
  destruct v as [|c|x|s|items|entries]; unfold greaterThanZero, aboveZero.
  - intros [= <-]. split; [discriminate | tauto].
  - intros [= <-]. tauto.
  - rewrite Hzero. intros [= <-]. apply dgtb_zero.
  - rewrite Hzero. intros [= <-]. apply dgtb_zero.
  - destruct (toStringJS (JArr items)) as [s|] eqn:Hs; [|discriminate].
    cbn [bind]. rewrite Hzero. intros [= <-]. split.
    + intros Hg. exists s. split; [reflexivity | now apply dgtb_zero].
    + intros [s' [[= <-] Hp]]. now apply dgtb_zero.
  - destruct (toStringJS (JObj entries)) as [s|] eqn:Hs; [|discriminate].
    cbn [bind]. rewrite Hzero. intros [= <-]. split.
    + intros Hg. exists s. split; [reflexivity | now apply dgtb_zero].
    + intros [s' [[= <-] Hp]]. now apply dgtb_zero.
Qed.

(** C10. Every extracted product is the record extracted from one snippet
    of the payload, whose [data] is an object, and its [available] flag is:
    the negation of [is_sold_out] when the object has that key, whatever
    [inventory] says; otherwise [inventory > 0] when it has that key, which
    holds exactly of a number above zero (the positive infinity or a
    positive value), of [true], of a text that denotes such a number, and
    of an array or object whose text does; otherwise [true].  So the flag
    is [false] only for a truthy [is_sold_out], or an [inventory] not above
    zero in the absence of [is_sold_out]. *)
Theorem C10_available_default
        (rupee : string) (payload : value double) (prods : list (product double))
        (p : product double)
        (Hextracted : extractProductInformation rupee payload = Ok prods)
        (Hin : In p prods) :
  exists snippets snip idx entries,
    snippetsOf payload = Some snippets
    /\ In snip snippets
    /\ get snip "data" = Some (JObj entries)
    /\ extractFields rupee (JObj entries) idx = Ok p
    /\ (forall soldOut, lookup "is_sold_out" entries = Some soldOut ->
                        p_available p = negb (truthy soldOut))
    /\ (forall inventory, lookup "is_sold_out" entries = None ->
                          lookup "inventory" entries = Some inventory ->
                          greaterThanZero inventory = Ok (p_available p)
                          /\ (p_available p = true <-> aboveZero inventory))
    /\ (lookup "is_sold_out" entries = None -> lookup "inventory" entries = None ->
        p_available p = true)
    /\ (p_available p = false ->
        (exists soldOut, lookup "is_sold_out" entries = Some soldOut /\ truthy soldOut = true)
        \/ (lookup "is_sold_out" entries = None
            /\ exists inventory, lookup "inventory" entries = Some inventory
                                 /\ ~ aboveZero inventory)).
Proof.
  unfold extractProductInformation in Hextracted.
  destruct (snippetsOf payload) as [snippets|] eqn:Hs.
  2:{ injection Hextracted as <-. destruct Hin. }
  destruct (forEachSnippet_extracted rupee snippets 0 prods p Hextracted Hin)
    as [snip [i [Hsnip He]]].
  destruct (extractSnippet_extracted rupee snip i p He) as [entries [Hdata Hf]].
  pose proof (extractFields_available rupee entries i p Hf) as Ha.
  exists snippets, snip, i, entries.
  split; [reflexivity|]. split; [exact Hsnip|]. split; [exact Hdata|]. split; [exact Hf|].
  destruct (lookup "is_sold_out" entries) as [soldOut|].
  - repeat split; try discriminate.
    + intros s [= <-]. exact Ha.
    + intros Hfalse. left. exists soldOut. split; [reflexivity|].
      rewrite Hfalse in Ha. symmetry in Ha. now apply negb_false_iff in Ha.
  - destruct (lookup "inventory" entries) as [inventory|].
    + pose proof (greaterThanZero_spec inventory (p_available p) Ha) as Hspec.
      split; [discriminate|]. split.
      { intros inv _ [= <-]. split; [exact Ha | exact Hspec]. }
      split; [discriminate|].
      intros Hfalse. right. split; [reflexivity|]. exists inventory.
      split; [reflexivity|]. intros Habove. apply Hspec in Habove. congruence.
    + repeat split; try discriminate.
      * intros _ _. exact Ha.
      * intros Hfalse. congruence.
Qed.

(** C10 at a snippet whose inventory is zero and which has no
    [is_sold_out] key. *)
Lemma C10_available_default_witness :
  extractProductInformation "Rs" (Some (payloadOf [onionSnippet])) = Ok [onionProduct]
  /\ p_available onionProduct = false
  /\ exists snip entries,
       get snip "data" = Some (JObj entries)
       /\ lookup "is_sold_out" entries = None
       /\ exists inventory, lookup "inventory" entries = Some inventory
                            /\ ~ aboveZero inventory.
Proof.
  assert (He : extractProductInformation "Rs" (Some (payloadOf [onionSnippet])) = Ok [onionProduct])
    by (vm_compute; reflexivity).
  split; [exact He|]. split; [reflexivity|].
  destruct (C10_available_default "Rs" _ _ onionProduct He (or_introl eq_refl))
    as [snippets [snip [idx [entries [Hs [Hsnip [Hd [_ [_ [_ [_ Hfalse]]]]]]]]]]].
  exists snip, entries. split; [exact Hd|].
  vm_compute in Hs. injection Hs as <-.
  destruct Hsnip as [<- | []].
  vm_compute in Hd. injection Hd as <-.
  destruct (Hfalse eq_refl) as [[soldOut [Hso _]] | [Hn Hi]].
  - discriminate Hso.
  - split; [exact Hn | exact Hi].
Defined.

(** C5, where the code departs from it.  A payload whose snippets are a
    product followed by [null] qualifies for capture and reaches the
    extractor; there the [null] makes the callback throw before its [try]
    block, so the product already extracted is lost along with the rest,
    although without the [null] it is extracted, and although an exception
    inside the [try] block (here a numeric price text) drops only its own
    snippet.  The same holds wherever the [null] stands.  A payload without
    a [response.snippets] array, the marker of the timeout among them,
    yields the empty list, as C5 says. *)
Theorem C5_null_snippet_aborts :
  qualifies (searchResponse [onionSnippet; JNull]) = true
  /\ awaitProductJson [searchResponse [onionSnippet; JNull]] = payloadOf [onionSnippet; JNull]
  /\ extractProductInformation "Rs" (Some (payloadOf [onionSnippet; JNull])) = Throw
  /\ runBlinkitSearch "Rs" true [searchResponse [onionSnippet; JNull]] = Throw
  /\ extractProductInformation "Rs" (Some (payloadOf [onionSnippet])) = Ok [onionProduct]
  /\ extractSnippet "Rs" brokenPriceSnippet 0 = Ok Caught
  /\ extractProductInformation "Rs" (Some (payloadOf [brokenPriceSnippet; onionSnippet]))
     = Ok [onionProduct]
  /\ (forall before after,
        extractProductInformation "Rs" (Some (payloadOf (before ++ JNull :: after)%list)) = Throw)
  /\ (forall payload : value double,
        snippetsOf payload = None -> extractProductInformation "Rs" payload = Ok [])
  /\ extractProductInformation "Rs" (Some (fallbackMarker (num:=double))) = Ok [].
Proof.
  do 7 (split; [vm_compute; reflexivity|]).
  split; [|split].
  - intros before after. unfold extractProductInformation.
    change (snippetsOf (Some (payloadOf (before ++ JNull :: after)%list)))
      with (Some (before ++ JNull :: after)%list).
    apply forEachSnippet_null.
  - apply extractProductInformation_no_snippets.
  - reflexivity.
Qed.

(** ** Term tokens *)

Lemma has_In (l : list string) (s : string) : has l s = true <-> In s l.
Proof.
  unfold has. rewrite existsb_exists. split.
  - intros [x [Hx He]]. apply String.eqb_eq in He. now subst.
  - intros Hs. exists s. split; [exact Hs | apply String.eqb_refl].
Qed.

Lemma nonEmpty_true (s : string) : nonEmpty s = true <-> s <> EmptyString.
Proof. destruct s; simpl; split; congruence. Qed.

Lemma toLowerCase_append (a b : string) :
  toLowerCase (a ++ b) = toLowerCase a ++ toLowerCase b.
Proof. induction a as [|c a IH]; simpl; [reflexivity | now rewrite IH]. Qed.






Lemma nameTokensOf_In (name t : string) :
  In t (nameTokensOf name)
  <-> exists w, In w (rawTokens name) /\ w <> EmptyString
                /\ t = normalizeToken w /\ t <> EmptyString.
Proof.
  unfold nameTokensOf. fold (rawTokens name).
  rewrite filter_In, in_map_iff, nonEmpty_true. split.
  - intros [[w [<- Hw]] Hne]. apply filter_In in Hw as [Hw H1].
    apply nonEmpty_true in H1. exists w. auto.
  - intros [w [Hw [H1 [-> Hne]]]]. split; [|exact Hne].
    exists w. split; [reflexivity|]. apply filter_In. split; [exact Hw|].
    now apply nonEmpty_true.
Qed.





Section TermFacts.
Context {num : Type} `{JsNumber num}.

Lemma matchesSearchTerm_string (name term : string) :
  matchesSearchTerm (JStr name) term
  = Ok (forallb (has (nameTokensOf name)) (extractCoreTokens term)).
Proof.
  unfold matchesSearchTerm, stringOrEmpty. simpl.
  assert (Hs : (if nonEmpty name then Ok name else Ok EmptyString) = Ok name)
    by (destruct name; reflexivity).
  rewrite Hs. simpl.
  destruct (extractCoreTokens term); reflexivity.
Qed.

End TermFacts.



(** ** Location setter *)

Lemma allDigits_spec (s : string) :
  nonEmpty (dropWhile isDigit s) = false
  <-> forall c, In c (list_ascii_of_string s) -> isDigit c = true.
Proof.
  induction s as [|a s IH]; simpl.
  - split; [intros _ c [] | reflexivity].
  - destruct (isDigit a) eqn:Ha.
    + rewrite IH. split.
      * intros Hall c [<- | Hc]; auto.
      * intros Hall c Hc. apply Hall. now right.
    + simpl. split; [discriminate|].
      intros Hall. rewrite (Hall a (or_introl eq_refl)) in Ha. discriminate.
Qed.

Lemma isPincode_spec (loc : string) :
  isPincode loc = true
  <-> String.length loc = 6 /\ forall c, In c (list_ascii_of_string loc) -> isDigit c = true.
Proof.
  unfold isPincode. rewrite andb_true_iff, Nat.eqb_eq, negb_true_iff, allDigits_spec.
  reflexivity.
Qed.




(** The setter of [backend/blinkit/set-location.js] differs: it makes a
    single attempt, never reloads, and takes the requested text as the
    label when none can be read, without comparing a label with the
    requested pincode. *)
Lemma single_attempt_variant (pg : page) (loc : string) :
  snd (SingleAttempt.setBlinkitLocation pg loc) = [Attempt 1]
  /\ (stepsComplete (viewAt pg 1) = true ->
      getFirstTextFromSelectors (labels (viewAt pg 1)) = EmptyString ->
      loc <> EmptyString -> loc <> "400" ->
      fst (SingleAttempt.setBlinkitLocation pg loc) = Ok (Some loc))
  /\ fst (SingleAttempt.setBlinkitLocation secondTryPage "575006")
     = Ok (Some "Delivery in 9 minutes - Bejai, Mangaluru 575004").
Proof.
  unfold SingleAttempt.setBlinkitLocation, SingleAttempt.isLocationSet.
  split; [|split].
  - destruct (stepsComplete (viewAt pg 1)); [|reflexivity].
    match goal with |- snd (if ?c then _ else _) = _ => destruct c; reflexivity end.
  - intros -> -> Hne H400. simpl.
    assert (Hl : nonEmpty loc = true) by (destruct loc; [contradiction | reflexivity]).
    apply String.eqb_neq in H400. rewrite !Hl, H400. reflexivity.
  - reflexivity.
Qed.

(** ** Sponsorship detection *)

Lemma someM_true {A : Type} (f : A -> result bool) (xs : list A) :
  someM f xs = Ok true -> exists x, In x xs /\ f x = Ok true.
Proof.
  induction xs as [|x xs IH]; simpl; [discriminate|].
  destruct (f x) as [[]|] eqn:Hx; simpl; try discriminate.
  - intros _. exists x. auto.
  - intros Hs. destruct (IH Hs) as [y [Hy Hfy]]. exists y. auto.
Qed.


Section SponsoredFacts.
Context {num : Type} `{JsNumber num}.







End SponsoredFacts.



(** ** The code on concrete inputs *)

Example quantity_from_term :
  extractQuantityFromTerm (num:=double) "onions 1kg" = Some (Quantity (Finite 1000) "g" weight).
Proof. vm_compute. reflexivity. Qed.

Example quantity_with_multiplier :
  normalizeQuantityValue (num:=double) (JStr "2 x 500 g")
  = Ok (Some (Quantity (Finite 1000) "g" weight)).
Proof. vm_compute. reflexivity. Qed.

Example quantity_within_tenth :
  matchesQuantity (num:=double) (JStr "1.05 Kg") (extractQuantityFromTerm "onions 1kg") = Ok true
  /\ matchesQuantity (num:=double) (JStr "1.2 Kg") (extractQuantityFromTerm "onions 1kg") = Ok false
  /\ matchesQuantity (num:=double) (JStr "5 mg") (extractQuantityFromTerm "saffron 0.005g") = Ok true.
Proof. repeat split; vm_compute; reflexivity. Qed.

Example tokens_of_term :
  extractCoreTokens "Onions 1kg pack of 2 x fresh 1.5 2l" = ["onion"]
  /\ nameTokensOf "Fresh Red Tomatoes 1kg" = ["fresh"; "red"; "tomato"; "1kg"]
  /\ split isTokenSeparator ",a, -b," = [EmptyString; "a"; "b"; EmptyString].
Proof. repeat split; reflexivity. Qed.

Example singular_forms :
  map normalizeToken ["berries"; "tomatoes"; "onions"; "glass"; "pies"; "bus"; "Gas"]
  = ["berry"; "tomato"; "onion"; "glass"; "pie"; "bus"; "gas"].
Proof. reflexivity. Qed.

Example processed_names :
  isProcessedProduct (num:=double) (JStr "Sun Dried Tomatoes in Oil") = Ok true
  /\ isProcessedProduct (num:=double) (JStr "Tomato Hybrid") = Ok false
  /\ isTomatoSearch "fresh tomatoes 1kg" = true.
Proof. repeat split; reflexivity. Qed.

Example header_widget_is_sponsored :
  isSponsoredSnippet (num:=double) (JObj [("widget_type", JStr "image_text_vr_type_header")])
  = Ok true.
Proof. reflexivity. Qed.

(** Doubles as JavaScript prints and reads them: [0.1 * 3], [1e21],
    [(1.005).toFixed(2)], [(2.5).toFixed(0)], [Number(" -1.5e2 ")],
    [Number("0x10")], [parseFloat("12.5kg")]. *)
Example number_printing :
  (num_toString (num_mul (parseFloat "0.1") (parseFloat "3")),
   num_toString (parseFloat "1e21"),
   num_toFixed 2 (parseFloat "1.005"),
   num_toFixed 0 (parseFloat "2.5"),
   num_ofString " -1.5e2 ",
   num_ofString "0x10",
   parseFloat "12.5kg")
  = ("0.30000000000000004", "1e+21", "1.00", "3", Finite (-150), Finite 16, Finite (25 # 2)).
Proof. vm_compute. reflexivity. Qed.

(** One batch: the pincode of the request is confirmed, the search for
    [onions 1kg] returns an onion in stock at 1 kg and a potato out of
    stock; the file has the header and one row. *)
Example batch_one_row :
  exists report evs csv,
    runBlinkitBatchCsv "Rs" onionSite
      (BatchInput (ArrayOf ["575006"]) (ArrayOf ["onions"]) (Some (ArrayOf ["1kg"])))
    = (Completed report, evs)
    /\ expandedSearchTerms report = ["onions 1kg"]
    /\ rowCount report = 1
    /\ evs = [Mkdir; Launch; NewPage "575006"; SetLocation "575006";
              Search "575006" "onions 1kg"; ClosePage "575006"; CloseBrowser;
              WriteCsv "blinkit-search-1700000000000.csv" csv]
    /\ List.length (split (Ascii.eqb newline) csv) = 2.
Proof.
  eexists. eexists. eexists.
  split; [vm_compute; reflexivity|].
  repeat split; reflexivity.
Qed.
(** ** More on strings *)

Lemma trim_idempotent (s : string) : trim (trim s) = trim s.
Proof. destruct (trim_clean s) as [Hh Ht]. now apply trim_fixed. Qed.

(** ** Batch orchestrator: the life of the browser, pages and rows *)

Lemma pagesOpened_app (a b : list batchEvent) :
  pagesOpened (a ++ b) = (pagesOpened a ++ pagesOpened b)%list.
Proof.
  induction a as [|ev a IH]; [reflexivity|].
  destruct ev; simpl; rewrite IH; reflexivity.
Qed.

Lemma pagesClosed_app (a b : list batchEvent) :
  pagesClosed (a ++ b) = (pagesClosed a ++ pagesClosed b)%list.
Proof.
  induction a as [|ev a IH]; [reflexivity|].
  destruct ev; simpl; rewrite IH; reflexivity.
Qed.

(** The four ways one turn of the loop over the pincodes can go: the
    location is set and the terms are searched; the title is empty or
    [null] and the pincode is skipped; the setter throws; the page cannot
    be opened. *)
Ltac pincodeCases s pin title Hloc Hset :=
  destruct (pageOpens s pin); cbn [negb];
  [destruct (locationFor s pin) as [title|] eqn:Hloc;
   [destruct (isSet title) eqn:Hset; cbn [negb]|]|].

Lemma isSet_title (locationTitle : option string) :
  isSet locationTitle = true ->
  exists title, locationTitle = Some title /\ nonEmpty title = true.
Proof.
  destruct locationTitle as [title|]; simpl; [eauto|discriminate].
Qed.

Section BatchTrace.
Context {num : Type} `{JsNumber num}.
Variable rupee : string.

Lemma forEachTerm_only_searches (s : site) (pincode : string) (terms : list string) :
  forallb isPageEvent (snd (forEachTerm rupee s pincode terms)) = true
  /\ pagesOpened (snd (forEachTerm rupee s pincode terms)) = []
  /\ pagesClosed (snd (forEachTerm rupee s pincode terms)) = [].
Proof.
  induction terms as [|term rest IH]; simpl; [auto|].
  destruct (runBlinkitSearch rupee (navigationSucceeds s pincode term)
              (responsesFor s pincode term)) as [[products|]|]; simpl; auto.
  destruct (forEachProduct pincode term (extractQuantityFromTerm term) products); simpl; auto.
  destruct (forEachTerm rupee s pincode rest) as [r evs]. simpl in *. exact IH.
Qed.

Lemma forEachPincode_page_events (s : site) (pins terms : list string) :
  forallb isPageEvent (snd (forEachPincode rupee s pins terms)) = true.
Proof.
  induction pins as [|pin rest IH]; simpl; [reflexivity|].
  pincodeCases s pin title Hloc Hset; simpl; [| |reflexivity|reflexivity].
  - pose proof (forEachTerm_only_searches s pin terms) as [Hs _].
    destruct (forEachTerm rupee s pin terms) as [[rows|] found]; simpl in *; [|exact Hs].
    destruct (forEachPincode rupee s rest terms) as [r evs]. simpl in *.
    rewrite forallb_app, Hs. simpl. exact IH.
  - destruct (forEachPincode rupee s rest terms) as [r evs]. simpl in *. exact IH.
Qed.

(** A loop over the pincodes that ends normally has opened one page for
    each pincode, in order, and closed every one of them. *)
Lemma forEachPincode_pages (s : site) (pins terms : list string) :
  forall rows, fst (forEachPincode rupee s pins terms) = Ok rows ->
  pagesOpened (snd (forEachPincode rupee s pins terms)) = pins
  /\ pagesClosed (snd (forEachPincode rupee s pins terms)) = pins.
Proof.
  induction pins as [|pin rest IH]; simpl; [auto|].
  pincodeCases s pin title Hloc Hset; simpl; [| |discriminate|discriminate].
  - pose proof (forEachTerm_only_searches s pin terms) as [_ [Ho Hc]].
    destruct (forEachTerm rupee s pin terms) as [[rows|] found]; simpl in *;
      [|discriminate].
    destruct (forEachPincode rupee s rest terms) as [[more|] evs]; simpl in *;
      [|discriminate].
    intros ? _. destruct (IH more eq_refl) as [IHo IHc].
    rewrite pagesOpened_app, pagesClosed_app, Ho, Hc. simpl. now rewrite IHo, IHc.
  - destruct (forEachPincode rupee s rest terms) as [[more|] evs]; simpl in *;
      [|discriminate].
    intros ? _. destruct (IH more eq_refl) as [IHo IHc]. now rewrite IHo, IHc.
Qed.

(** X1. Once the input is accepted, a batch whose output directory and
    browser are available runs as: [Mkdir], [Launch], page events only,
    [CloseBrowser], and then the file write if and only if it completes.
    The browser is closed exactly once, whether the batch completes or
    fails, and the file is written after that, under the name
    [blinkit-search-<now>.csv], with the CSV text of the reported rows;
    a completed batch has opened and closed one page per pincode, in the
    order given.  When the directory or the browser is not available the
    batch fails without a browser to close. *)
Theorem batch_browser_lifecycle (s : site) (input : batchInput) out evs
        (Hvalid : validateInput input = None)
        (Hrun : runBlinkitBatchCsv rupee s input = (out, evs)) :
  if mkdirSucceeds s && launchSucceeds s then
    exists pageEvents tail,
      evs = (Mkdir :: Launch :: pageEvents ++ CloseBrowser :: tail)%list
      /\ forallb isPageEvent pageEvents = true
      /\ match out with
         | Completed report =>
             exists csv, buildCsv (items report) = Ok csv
                         /\ filename report = "blinkit-search-" ++ now s ++ ".csv"
                         /\ tail = [WriteCsv (filename report) csv]
                         /\ rowCount report = List.length (items report)
                         /\ pincodes input = ArrayOf (pagesOpened pageEvents)
                         /\ pagesClosed pageEvents = pagesOpened pageEvents
         | Failed => tail = []
         | InputError _ => False
         end
  else out = Failed /\ ~ In CloseBrowser evs
       /\ evs = if mkdirSucceeds s then [Mkdir; Launch] else [Mkdir].
Proof.
  unfold runBlinkitBatchCsv in Hrun. rewrite Hvalid in Hrun.
  unfold validateInput in Hvalid.
  destruct (pincodes input) as [|pins]; [discriminate|].
  destruct (searchTerms input) as [|terms]; [destruct pins; discriminate|].
  destruct (withDefault (quantities input)) as [|qtys];
    [destruct pins; [|destruct terms]; discriminate|].
  destruct (mkdirSucceeds s); simpl in *.
  2:{ injection Hrun as <- <-. split; [reflexivity|split; [|reflexivity]].
      intros [Hd | []]; discriminate. }
  destruct (launchSucceeds s); simpl in *.
  2:{ injection Hrun as <- <-. split; [reflexivity|split; [|reflexivity]].
      intros [Hd | [Hd | []]]; discriminate. }
  pose proof (forEachPincode_page_events s pins (expandSearchTerms terms qtys)) as Hpage.
  pose proof (forEachPincode_pages s pins (expandSearchTerms terms qtys)) as Hpages.
  destruct (forEachPincode rupee s pins (expandSearchTerms terms qtys)) as [[rows|] found];
    simpl in *.
  - destruct (browserCloses s); cbn [negb] in Hrun.
    2:{ injection Hrun as <- <-. exists found, []. auto. }
    destruct (buildCsv rows) as [csv|] eqn:Hcsv.
    + destruct (writeSucceeds s); cbn [negb] in Hrun.
      2:{ injection Hrun as <- <-. exists found, []. auto. }
      injection Hrun as <- <-. eexists found, _. split; [reflexivity|].
      split; [exact Hpage|]. exists csv. simpl.
      destruct (Hpages rows eq_refl) as [Ho Hc].
      repeat split; try assumption; try reflexivity.
      * now rewrite Ho.
      * now rewrite Ho, Hc.
    + injection Hrun as <- <-. exists found, []. auto.
  - injection Hrun as <- <-. exists found, []. auto.
Qed.

(** What a kept product has passed. *)
Lemma filterProduct_keep (term : string) (requestedQty : option (NormalizedQuantity num))
      (p : product num) :
  filterProduct term requestedQty p = Ok Keep ->
  (isTomatoSearch term = true -> isProcessedProduct (p_name p) = Ok false)
  /\ p_available p = true
  /\ truthy (p_deliveryTime p) = true
  /\ (exists s, toStringJS (p_deliveryTime p) = Ok s /\ (toLowerCase s =? "n/a") = false)
  /\ matchesQuantity (p_quantity p) requestedQty = Ok true
  /\ matchesSearchTerm (p_name p) term = Ok true.
Proof.
  unfold filterProduct. intros Hk.
  assert (Hproc : (if isTomatoSearch term then isProcessedProduct (p_name p) else Ok false)
                  = Ok false).
  { destruct (if isTomatoSearch term then isProcessedProduct (p_name p) else Ok false)
      as [[]|]; cbn [bind] in Hk; [|reflexivity|discriminate].
    apply logSkipped_verdict in Hk. discriminate. }
  rewrite Hproc in Hk. cbn [bind] in Hk.
  split; [intros Ht; now rewrite Ht in Hproc|].
  destruct (p_available p); cbn [negb] in Hk;
    [|apply logSkipped_verdict in Hk; discriminate].
  split; [reflexivity|].
  destruct (truthy (p_deliveryTime p)); cbn [negb bind] in Hk;
    [|apply logSkipped_verdict in Hk; discriminate].
  split; [reflexivity|].
  destruct (toStringJS (p_deliveryTime p)) as [d|]; cbn [bind] in Hk; [|discriminate].
  destruct (toLowerCase d =? "n/a") eqn:Hna;
    [apply logSkipped_verdict in Hk; discriminate|].
  split; [exists d; auto|].
  assert (Hlog : forall k : result verdict,
             (_ <- toStringJS (p_name p) ;; _ <- toStringJS (p_quantity p) ;;
              Ok DropQuantityMismatch) <> Ok Keep).
  { intros _. destruct (toStringJS (p_name p)); cbn [bind]; [|discriminate].
    destruct (toStringJS (p_quantity p)); cbn [bind]; discriminate. }
  specialize (Hlog (Ok Keep)).
  unfold quantityMismatch in Hk.
  destruct requestedQty as [requested|].
  - destruct (matchesQuantity (p_quantity p) (Some requested)) as [[]|];
      cbn [bind negb] in Hk; try discriminate; [|contradiction].
    split; [reflexivity|].
    destruct (matchesSearchTerm (p_name p) term) as [[]|]; cbn [bind negb] in Hk;
      try discriminate; [reflexivity|].
    apply logSkipped_verdict in Hk. discriminate.
  - cbn [bind] in Hk. split; [reflexivity|].
    destruct (matchesSearchTerm (p_name p) term) as [[]|]; cbn [bind negb] in Hk;
      try discriminate; [reflexivity|].
    apply logSkipped_verdict in Hk. discriminate.
Qed.

(** The rows of one product list are the kept products, in order. *)
Lemma forEachProduct_rows (pincode term : string)
      (requestedQty : option (NormalizedQuantity num)) (products : list (product num)) :
  forall rows, forEachProduct pincode term requestedQty products = Ok rows ->
  forall r, In r rows ->
  exists p, In p products /\ r = makeRow pincode term p
            /\ filterProduct term requestedQty p = Ok Keep.
Proof.
  induction products as [|p rest IH]; simpl.
  - intros rows [= <-] r [].
  - intros rows Hrows r Hin.
    destruct (filterProduct term requestedQty p) as [v|] eqn:Hv; simpl in Hrows;
      [|discriminate].
    destruct (forEachProduct pincode term requestedQty rest) as [more|]; simpl in Hrows;
      [|discriminate].
    injection Hrows as <-.
    assert (Hrest : In r more -> exists q, In q (p :: rest) /\ r = makeRow pincode term q
                                           /\ filterProduct term requestedQty q = Ok Keep).
    { intros Hm. destruct (IH more eq_refl r Hm) as [q [Hq Hr]]. exists q. split; [now right|exact Hr]. }
    destruct v; try (now apply Hrest).
    destruct Hin as [<- | Hin]; [|now apply Hrest].
    exists p. split; [now left|]. split; [reflexivity|exact Hv].
Qed.

Lemma forEachTerm_rows (s : site) (pincode : string) (terms : list string) :
  forall rows, fst (forEachTerm rupee s pincode terms) = Ok rows ->
  forall r, In r rows ->
  exists term products p,
    In term terms
    /\ runBlinkitSearch rupee (navigationSucceeds s pincode term)
         (responsesFor s pincode term) = Ok (Some products)
    /\ In p products /\ r = makeRow pincode term p
    /\ filterProduct term (extractQuantityFromTerm term) p = Ok Keep.
Proof.
  induction terms as [|term rest IH]; simpl.
  - intros rows [= <-] r [].
  - destruct (runBlinkitSearch rupee (navigationSucceeds s pincode term)
                (responsesFor s pincode term)) as [[products|]|] eqn:Hsearch;
      try (intros ? Hd; discriminate).
    pose proof (forEachProduct_rows pincode term (extractQuantityFromTerm term) products)
      as Hprod.
    destruct (forEachProduct pincode term (extractQuantityFromTerm term) products)
      as [here|]; [|intros ? Hd; discriminate].
    destruct (forEachTerm rupee s pincode rest) as [[more|] evs]; simpl in *;
      [|intros ? Hd; discriminate].
    intros rows [= <-] r Hin. apply in_app_or in Hin as [Hin | Hin].
    + destruct (Hprod here eq_refl r Hin) as [p [Hp [Hr Hk]]].
      exists term, products, p. auto.
    + destruct (IH more eq_refl r Hin) as [t [ps [p [Ht Hrest]]]].
      exists t, ps, p. split; [now right|exact Hrest].
Qed.

Lemma forEachPincode_rows (s : site) (pins terms : list string) :
  forall rows, fst (forEachPincode rupee s pins terms) = Ok rows ->
  forall r, In r rows ->
  exists pincode title term products p,
    In pincode pins
    /\ (locationFor s pincode = Ok (Some title) /\ nonEmpty title = true)
    /\ In term terms
    /\ runBlinkitSearch rupee (navigationSucceeds s pincode term)
         (responsesFor s pincode term) = Ok (Some products)
    /\ In p products /\ r = makeRow pincode term p
    /\ filterProduct term (extractQuantityFromTerm term) p = Ok Keep.
Proof.
  induction pins as [|pin rest IH]; simpl.
  - intros rows [= <-] r [].
  - pincodeCases s pin found0 Hloc Hset; try (intros ? Hd; discriminate).
    + apply isSet_title in Hset as [title [-> Hset]].
      pose proof (forEachTerm_rows s pin terms) as Hterm.
      destruct (forEachTerm rupee s pin terms) as [[here|] found]; simpl in *;
        [|intros ? Hd; discriminate].
      destruct (forEachPincode rupee s rest terms) as [[more|] evs]; simpl in *;
        [|intros ? Hd; discriminate].
      intros rows [= <-] r Hin. apply in_app_or in Hin as [Hin | Hin].
      * destruct (Hterm here eq_refl r Hin) as [t [ps [p Hrest]]].
        exists pin, title, t, ps, p. auto.
      * destruct (IH more eq_refl r Hin) as [pc [ti [t [ps [p [Hpc Hrest]]]]]].
        exists pc, ti, t, ps, p. split; [now right|exact Hrest].
    + destruct (forEachPincode rupee s rest terms) as [[more|] evs]; simpl in *;
        [|intros ? Hd; discriminate].
      intros rows [= <-] r Hin.
      destruct (IH more eq_refl r Hin) as [pc [ti [t [ps [p [Hpc Hrest]]]]]].
      exists pc, ti, t, ps, p. split; [now right|exact Hrest].
Qed.

(** Opening the definition of a run that completes. *)
Lemma runBlinkitBatchCsv_completed (s : site) (input : batchInput) report evs :
  runBlinkitBatchCsv rupee s input = (Completed report, evs) ->
  exists pins terms qtys found csv,
    pincodes input = ArrayOf pins /\ searchTerms input = ArrayOf terms
    /\ withDefault (quantities input) = ArrayOf qtys
    /\ expandedSearchTerms report = expandSearchTerms terms qtys
    /\ rowCount report = List.length (items report)
    /\ forEachPincode rupee s pins (expandSearchTerms terms qtys) = (Ok (items report), found)
    /\ buildCsv (items report) = Ok csv
    /\ evs = (Mkdir :: Launch :: found ++ [CloseBrowser; WriteCsv (filename report) csv])%list.
Proof.
  unfold runBlinkitBatchCsv.
  destruct (validateInput input); [discriminate|].
  destruct (pincodes input) as [|pins]; [discriminate|].
  destruct (searchTerms input) as [|terms]; [discriminate|].
  destruct (withDefault (quantities input)) as [|qtys]; [discriminate|].
  destruct (negb (mkdirSucceeds s)); [discriminate|].
  destruct (negb (launchSucceeds s)); [discriminate|].
  destruct (forEachPincode rupee s pins (expandSearchTerms terms qtys)) as [[rows|] found]
    eqn:Hloop; [|discriminate].
  destruct (negb (browserCloses s)); [discriminate|].
  destruct (buildCsv rows) as [csv|] eqn:Hcsv; [|discriminate].
  destruct (negb (writeSucceeds s)); [discriminate|].
  intros [= <- <-]. exists pins, terms, qtys, found, csv. simpl.
  do 5 (split; [reflexivity|]). split; [exact Hloop|]. split; [exact Hcsv|reflexivity].
Qed.

(** A search that a loop over the terms reaches is in its trace. *)
Lemma forEachTerm_searched (s : site) (pincode : string) (terms : list string) :
  forall rows, fst (forEachTerm rupee s pincode terms) = Ok rows ->
  forall term, In term terms ->
               In (Search pincode term) (snd (forEachTerm rupee s pincode terms)).
Proof.
  induction terms as [|t l IH]; [intros ? _ ? []|]. simpl.
  destruct (runBlinkitSearch rupee (navigationSucceeds s pincode t)
              (responsesFor s pincode t)) as [[ps|]|]; try (intros ? Hd; discriminate).
  destruct (forEachProduct pincode t (extractQuantityFromTerm t) ps);
    [|intros ? Hd; discriminate].
  destruct (forEachTerm rupee s pincode l) as [[more|] evl]; simpl in *;
    [|intros ? Hd; discriminate].
  intros rows' _ term [-> | Hl]; [now left|right]. now apply (IH more).
Qed.

Lemma forEachPincode_searched (s : site) (pins terms : list string) :
  forall rows, fst (forEachPincode rupee s pins terms) = Ok rows ->
  forall pincode title term,
    In pincode pins -> locationFor s pincode = Ok (Some title) ->
    nonEmpty title = true -> In term terms ->
    In (Search pincode term) (snd (forEachPincode rupee s pins terms)).
Proof.
  induction pins as [|pin rest IH]; [intros ? _ ? ? ? []|].
  simpl. intros rows Hok pincode title term Hpin Hloc Hset Hterm.
  destruct Hpin as [-> | Hpin].
  - destruct (pageOpens s pincode); cbn [negb] in *; [|discriminate].
    rewrite Hloc in *. cbn [isSet] in *. rewrite Hset in *. cbn [negb] in *.
    pose proof (forEachTerm_searched s pincode terms) as Hts.
    destruct (forEachTerm rupee s pincode terms) as [[here|] found]; simpl in *;
      [|discriminate].
    destruct (forEachPincode rupee s rest terms) as [[more|] evr]; simpl in *;
      [|discriminate].
    right. right. apply in_or_app. left. now apply (Hts here).
  - pincodeCases s pin ti Hti Hs; try discriminate.
    + destruct (forEachTerm rupee s pin terms) as [[here|] found]; simpl in *;
        [|discriminate].
      destruct (forEachPincode rupee s rest terms) as [[more|] evr]; simpl in *;
        [|discriminate].
      right. right. apply in_or_app. right. right. now apply (IH more eq_refl _ title).
    + destruct (forEachPincode rupee s rest terms) as [[more|] evr]; simpl in *;
        [|discriminate].
      right. right. right. now apply (IH more eq_refl _ title).
Qed.

(** X2. Every row of a completed batch is a product that one of the
    batch's own searches returned and the filter pipeline kept: its pincode
    is one of the input whose location was set, its search term one of the
    expanded terms, searched on that pincode's page; its service is
    [blinkit]; it has the thirteen columns of the header, in order; the
    product is in stock, has a delivery time other than [N/A], matches the
    quantity and the words of the term, and, for a tomato search, is not a
    processed product.  The reported row count is the number of rows. *)
Theorem batch_rows_sound (s : site) (input : batchInput) report evs
        (Hrun : runBlinkitBatchCsv rupee s input = (Completed report, evs)) :
  rowCount report = List.length (items report)
  /\ forall r, In r (items report) ->
     exists pincode title term products p,
       r = makeRow pincode term p
       /\ map fst r = headers
       /\ lookup "service" r = Some (JStr "blinkit")
       /\ lookup "available" r = Some (JBool true)
       /\ (exists pins, pincodes input = ArrayOf pins /\ In pincode pins)
       /\ locationFor s pincode = Ok (Some title)
       /\ In term (expandedSearchTerms report)
       /\ In (Search pincode term) evs
       /\ runBlinkitSearch rupee (navigationSucceeds s pincode term)
            (responsesFor s pincode term) = Ok (Some products)
       /\ In p products
       /\ (isTomatoSearch term = true -> isProcessedProduct (p_name p) = Ok false)
       /\ truthy (p_deliveryTime p) = true
       /\ (exists d, toStringJS (p_deliveryTime p) = Ok d /\ (toLowerCase d =? "n/a") = false)
       /\ matchesQuantity (p_quantity p) (extractQuantityFromTerm term) = Ok true
       /\ matchesSearchTerm (p_name p) term = Ok true.
Proof.
  destruct (runBlinkitBatchCsv_completed s input report evs Hrun)
    as [pins [terms [qtys [found [csv [Hp [Ht [Hq [Hexp [Hcount [Hloop [Hcsv Hevs]]]]]]]]]]]].
  split; [exact Hcount|].
  intros r Hin.
  pose proof (forEachPincode_rows s pins (expandSearchTerms terms qtys) (items report)) as Hrows.
  pose proof (forEachPincode_searched s pins (expandSearchTerms terms qtys) (items report))
    as Hsearched.
  rewrite Hloop in Hrows, Hsearched.
  destruct (Hrows eq_refl r Hin)
    as [pincode [title [term [products [p [Hpin [[Hloc Hset] [Hterm [Hsearch [Hprod [Hr Hk]]]]]]]]]]].
  apply filterProduct_keep in Hk as [Hproc [Havail [Hd1 [Hd2 [Hqty Hname]]]]].
  exists pincode, title, term, products, p.
  split; [exact Hr|]. subst r.
  split; [reflexivity|]. split; [reflexivity|].
  split; [simpl; now rewrite Havail|].
  split; [exists pins; auto|]. split; [exact Hloc|].
  split; [now rewrite Hexp|].
  split; [|auto 10].
  rewrite Hevs. right. right. apply in_or_app. left.
  now apply (Hsearched eq_refl pincode title term).
Qed.

Lemma pagesClosed_In (evs : list batchEvent) (pincode : string) :
  In pincode (pagesClosed evs) -> In (ClosePage pincode) evs.
Proof.
  induction evs as [|ev evs IH]; simpl; [auto|].
  destruct ev; simpl; try (intros Hin; right; now apply IH).
  intros [-> | Hin]; [now left|right; now apply IH].
Qed.

(** A search is made only on the page of a pincode whose location was set. *)
Lemma forEachPincode_search_located (s : site) (pins terms : list string) :
  forall pincode term, In (Search pincode term) (snd (forEachPincode rupee s pins terms)) ->
                       exists title, locationFor s pincode = Ok (Some title)
                                     /\ nonEmpty title = true.
Proof.
  induction pins as [|pin rest IH]; simpl; [intros ? ? []|].
  intros pincode term.
  pincodeCases s pin found0 Hloc Hset.
  - apply isSet_title in Hset as [title [-> Hset]].
    pose proof (forEachTerm_searches rupee s pin terms) as Hterms.
    destruct (forEachTerm rupee s pin terms) as [[rows|] found]; simpl in *.
    + destruct (forEachPincode rupee s rest terms) as [r evs]. simpl in *.
      intros [Hd | [Hd | Hin]]; try discriminate.
      apply in_app_or in Hin as [Hin | [Hd | Hin]]; try discriminate.
      * destruct (Hterms _ Hin) as [t [[= -> ->] Ht]]. eauto.
      * eauto.
    + intros [Hd | [Hd | Hin]]; try discriminate.
      destruct (Hterms _ Hin) as [t [[= -> ->] Ht]]. eauto.
  - destruct (forEachPincode rupee s rest terms) as [r evs]. simpl in *.
    intros [Hd | [Hd | [Hd | Hin]]]; try discriminate. eauto.
  - simpl. intros [Hd | [Hd | []]]; discriminate.
  - simpl. intros [Hd | []]; discriminate.
Qed.

(** The events of a run, whatever its outcome, around those of the loop. *)
Lemma runBlinkitBatchCsv_searches (s : site) (input : batchInput) :
  forall pincode term,
    In (Search pincode term) (snd (runBlinkitBatchCsv rupee s input)) ->
    In (Search pincode term)
       (snd (forEachPincode rupee s (pincodesOf input) (expandedOf input))).
Proof.
  intros pincode term. unfold runBlinkitBatchCsv, pincodesOf, expandedOf.
  destruct (validateInput input); [intros []|].
  destruct (pincodes input) as [|pins]; [intros []|].
  destruct (searchTerms input) as [|terms]; [intros []|].
  destruct (withDefault (quantities input)) as [|qtys]; [intros []|].
  destruct (negb (mkdirSucceeds s)); [intros [Hd | []]; discriminate|].
  destruct (negb (launchSucceeds s)); [intros [Hd | [Hd | []]]; discriminate|].
  destruct (forEachPincode rupee s pins (expandSearchTerms terms qtys)) as [[rows|] found].
  - destruct (negb (browserCloses s)); [|destruct (buildCsv rows);
                                          [destruct (negb (writeSucceeds s))|]]; simpl;
      intros [Hd | [Hd | Hin]]; try discriminate;
      apply in_app_or in Hin as [Hin | Hin]; try exact Hin;
      simpl in Hin; destruct Hin as [Hd | Hin]; try discriminate;
      try destruct Hin as [Hd | []]; try discriminate; destruct Hin.
  - simpl. intros [Hd | [Hd | Hin]]; try discriminate.
    apply in_app_or in Hin as [Hin | [Hd | []]]; [exact Hin | discriminate].
Qed.

(** An input that passes the checks never yields the input error. *)
Lemma runBlinkitBatchCsv_no_input_error (s : site) (input : batchInput) :
  validateInput input = None ->
  forall message, fst (runBlinkitBatchCsv rupee s input) <> InputError message.
Proof.
  intros Hvalid message. unfold runBlinkitBatchCsv. rewrite Hvalid.
  destruct (pincodes input); [discriminate|].
  destruct (searchTerms input); [discriminate|].
  destruct (withDefault (quantities input)); [discriminate|].
  destruct (negb (mkdirSucceeds s)); [discriminate|].
  destruct (negb (launchSucceeds s)); [discriminate|].
  destruct (forEachPincode rupee s _ _) as [[rows|] found]; [|discriminate].
  destruct (negb (browserCloses s)); [discriminate|].
  destruct (buildCsv rows); [|discriminate].
  destruct (negb (writeSucceeds s)); discriminate.
Qed.

(** X3. A pincode whose location cannot be set (the setter returns
    [null]) is skipped and the batch goes on: no search is made for it,
    whatever the outcome of the batch, and a batch that completes has no
    row for it and has closed its page. *)
Theorem batch_skips_unlocated_pincode (s : site) (input : batchInput) (pincode : string)
        (Hloc : locationFor s pincode = Ok None) :
  (forall term, ~ In (Search pincode term) (snd (runBlinkitBatchCsv rupee s input)))
  /\ forall report evs,
       runBlinkitBatchCsv rupee s input = (Completed report, evs) ->
       (forall r, In r (items report) -> lookup "pincode" r <> Some (JStr pincode))
       /\ (In pincode (pincodesOf input) -> In (ClosePage pincode) evs).
Proof.
  split.
  - intros term Hin. apply runBlinkitBatchCsv_searches in Hin.
    apply forEachPincode_search_located in Hin as [title [Ht _]]. congruence.
  - intros report evs Hrun.
    destruct (runBlinkitBatchCsv_completed s input report evs Hrun)
      as [pins [terms [qtys [found [csv [Hp [Ht [Hq [Hexp [Hcount [Hloop [Hcsv Hevs]]]]]]]]]]]].
    split.
    + intros r Hin Hlook.
      pose proof (forEachPincode_rows s pins (expandSearchTerms terms qtys) (items report))
        as Hrows.
      rewrite Hloop in Hrows.
      destruct (Hrows eq_refl r Hin)
        as [pc [title [term [products [p [Hpin [[Hl _] [_ [_ [_ [Hr _]]]]]]]]]]].
      subst r. simpl in Hlook. injection Hlook as ->. congruence.
    + unfold pincodesOf. rewrite Hp. intros Hin.
      pose proof (forEachPincode_pages s pins (expandSearchTerms terms qtys) (items report))
        as Hpages.
      rewrite Hloop in Hpages. destruct (Hpages eq_refl) as [_ Hc].
      rewrite Hevs. right. right. apply in_or_app. left.
      apply pagesClosed_In. simpl in Hc. now rewrite Hc.
Qed.

(** A loop over the terms that ends normally has had every search return
    a product list. *)
Lemma forEachTerm_ok (s : site) (pincode : string) (terms : list string) :
  forall rows, fst (forEachTerm rupee s pincode terms) = Ok rows ->
  forall term, In term terms ->
  exists products,
    runBlinkitSearch rupee (navigationSucceeds s pincode term) (responsesFor s pincode term)
    = Ok (Some products).
Proof.
  induction terms as [|t l IH]; [intros ? _ ? []|]. simpl.
  destruct (runBlinkitSearch rupee (navigationSucceeds s pincode t)
              (responsesFor s pincode t)) as [[ps|]|] eqn:Hs; try (intros ? Hd; discriminate).
  destruct (forEachProduct pincode t (extractQuantityFromTerm t) ps);
    [|intros ? Hd; discriminate].
  destruct (forEachTerm rupee s pincode l) as [[more|] evl]; simpl in *;
    [|intros ? Hd; discriminate].
  intros rows' _ term [<- | Hl]; [eauto|]. now apply (IH more).
Qed.

Lemma forEachPincode_ok (s : site) (pins terms : list string) :
  forall rows, fst (forEachPincode rupee s pins terms) = Ok rows ->
  forall pincode, In pincode pins ->
  locationFor s pincode <> Throw
  /\ forall title term,
       locationFor s pincode = Ok (Some title) -> nonEmpty title = true -> In term terms ->
       exists products,
         runBlinkitSearch rupee (navigationSucceeds s pincode term)
           (responsesFor s pincode term) = Ok (Some products).
Proof.
  induction pins as [|pin rest IH]; [intros ? _ ? []|].
  simpl. intros rows Hok pincode Hpin.
  pincodeCases s pin ti Hloc Hset; try discriminate.
  - pose proof (forEachTerm_ok s pin terms) as Hts.
    destruct (forEachTerm rupee s pin terms) as [[here|] found]; simpl in *;
      [|discriminate].
    destruct (forEachPincode rupee s rest terms) as [[more|] evr]; simpl in *;
      [|discriminate].
    destruct Hpin as [<- | Hpin]; [|now apply (IH more)].
    split; [congruence|]. intros title term _ _ Hterm. now apply (Hts here).
  - destruct (forEachPincode rupee s rest terms) as [[more|] evr]; simpl in *;
      [|discriminate].
    destruct Hpin as [<- | Hpin]; [|now apply (IH more)].
    split; [congruence|]. intros title term Hd Hne. rewrite Hloc in Hd.
    injection Hd as ->. simpl in Hset. congruence.
Qed.

(** X4. A batch is all or nothing.  If the location setter throws for one
    of the pincodes, or if, on the page of a pincode whose location was
    set, the navigation to the results of one expanded term fails (the
    search then returns [undefined], which the loop over the products
    cannot iterate) or the extraction of its results throws (a [null]
    snippet in the captured payload), the batch fails: no file is written
    and no rows are returned, whatever the other searches found; a browser
    that was launched is still closed, as the last event. *)
Theorem batch_all_or_nothing (s : site) (input : batchInput) (pincode term : string)
        (Hvalid : validateInput input = None)
        (Hpin : In pincode (pincodesOf input))
        (Hfail : locationFor s pincode = Throw
                 \/ (exists title, locationFor s pincode = Ok (Some title)
                                   /\ nonEmpty title = true)
                    /\ In term (expandedOf input)
                    /\ (navigationSucceeds s pincode term = false
                        \/ extractProductInformation rupee
                             (Some (awaitProductJson (responsesFor s pincode term)))
                           = Throw)) :
  fst (runBlinkitBatchCsv rupee s input) = Failed
  /\ existsb isWriteCsv (snd (runBlinkitBatchCsv rupee s input)) = false
  /\ (mkdirSucceeds s && launchSucceeds s = true ->
      exists before, snd (runBlinkitBatchCsv rupee s input) = (before ++ [CloseBrowser])%list).
Proof.
  revert Hpin Hfail. unfold runBlinkitBatchCsv, pincodesOf, expandedOf. rewrite Hvalid.
  unfold validateInput in Hvalid.
  destruct (pincodes input) as [|pins]; [discriminate|].
  destruct (searchTerms input) as [|terms]; [destruct pins; discriminate|].
  destruct (withDefault (quantities input)) as [|qtys];
    [destruct pins; [|destruct terms]; discriminate|].
  intros Hpin Hfail.
  destruct (mkdirSucceeds s); simpl; [|split; [reflexivity|split; [reflexivity|discriminate]]].
  destruct (launchSucceeds s); simpl; [|split; [reflexivity|split; [reflexivity|discriminate]]].
  pose proof (forEachPincode_ok s pins (expandSearchTerms terms qtys)) as Hok.
  pose proof (forEachPincode_page_events s pins (expandSearchTerms terms qtys)) as Hpage.
  destruct (forEachPincode rupee s pins (expandSearchTerms terms qtys)) as [[rows|] found];
    simpl in *.
  - exfalso. destruct (Hok rows eq_refl pincode Hpin) as [Hnt Hall].
    destruct Hfail as [Ht | [[title [Hloc Hset]] [Hterm Hbad]]]; [contradiction|].
    destruct (Hall title term Hloc Hset Hterm) as [products Hs].
    unfold runBlinkitSearch in Hs.
    destruct Hbad as [Hnav | Hthrow].
    + rewrite Hnav in Hs. discriminate.
    + rewrite Hthrow in Hs. destruct (navigationSucceeds s pincode term); discriminate.
  - assert (Hw : forall l, forallb isPageEvent l = true -> existsb isWriteCsv l = false).
    { induction l as [|e l IHl]; [reflexivity|]. simpl.
      intros Hl. apply andb_true_iff in Hl as [He Hl].
      rewrite (IHl Hl). destruct e; try discriminate; reflexivity. }
    split; [reflexivity|].
    split; [rewrite existsb_app, (Hw found Hpage); reflexivity|].
    intros _. exists (Mkdir :: Launch :: found). reflexivity.
Qed.
End BatchTrace.

(** On a site that knows only the pincode 575001, a batch for the pincodes
    575001 and 000000 searches on the first page only and closes the
    second page. *)
Lemma batch_skips_unlocated_pincode_witness :
  locationFor patchySite "000000" = Ok None
  /\ (forall term, ~ In (Search "000000" term)
                        (snd (runBlinkitBatchCsv "Rs" patchySite onionInput)))
  /\ forall report evs,
       runBlinkitBatchCsv "Rs" patchySite onionInput = (Completed report, evs) ->
       (forall r, In r (items report) -> lookup "pincode" r <> Some (JStr "000000"))
       /\ (In "000000" (pincodesOf onionInput) -> In (ClosePage "000000") evs).
Proof.
  split; [reflexivity|].
  exact (batch_skips_unlocated_pincode "Rs" patchySite onionInput "000000" eq_refl).
Defined.

Lemma batch_browser_lifecycle_witness :
  validateInput onionInput = None
  /\ exists out evs,
       runBlinkitBatchCsv "Rs" patchySite onionInput = (out, evs)
       /\ exists pageEvents tail,
            evs = (Mkdir :: Launch :: pageEvents ++ CloseBrowser :: tail)%list
            /\ forallb isPageEvent pageEvents = true.
Proof.
  split; [reflexivity|].
  destruct (runBlinkitBatchCsv "Rs" patchySite onionInput) as [out evs] eqn:Hrun.
  exists out, evs. split; [reflexivity|].
  destruct (batch_browser_lifecycle "Rs" patchySite onionInput out evs eq_refl Hrun)
    as [pageEvents [tail [Hevs [Hpage _]]]].
  exists pageEvents, tail. split; assumption.
Defined.

Lemma batch_rows_sound_witness :
  exists report evs,
    runBlinkitBatchCsv "Rs" patchySite onionInput = (Completed report, evs)
    /\ rowCount report = 1
    /\ rowCount report = List.length (items report).
Proof.
  destruct (runBlinkitBatchCsv "Rs" patchySite onionInput) as [out evs] eqn:Hrun.
  vm_compute in Hrun. injection Hrun as <- <-.
  eexists _, _. split; [reflexivity|]. split; [reflexivity|].
  refine (proj1 (batch_rows_sound "Rs" patchySite onionInput _ _ _)).
  vm_compute. reflexivity.
Defined.

Lemma batch_all_or_nothing_witness :
  validateInput leekInput = None
  /\ In "575001" (pincodesOf leekInput)
  /\ In "leek" (expandedOf leekInput)
  /\ navigationSucceeds patchySite "575001" "leek" = false
  /\ fst (runBlinkitBatchCsv "Rs" patchySite leekInput) = Failed.
Proof.
  split; [reflexivity|]. split; [right; left; reflexivity|].
  split; [right; left; reflexivity|]. split; [reflexivity|].
  refine (proj1 (batch_all_or_nothing "Rs" patchySite leekInput "575001" "leek" eq_refl _ _)).
  - right. left. reflexivity.
  - right. split; [exists "Mangaluru 575001"; split; reflexivity|].
    split; [right; left; reflexivity | left; reflexivity].
Defined.
(** ** CSV: the file as a whole *)


Lemma join_cons_cons (sep p q : string) (rest : list string) :
  join sep (p :: q :: rest) = p ++ sep ++ join sep (q :: rest).
Proof. reflexivity. Qed.






Section CsvFile.
Context {num : Type} `{JsNumber num}.






End CsvFile.

(** ** Product extraction: where a product comes from and what it holds *)



Section ExtractionMore.
Context {num : Type} `{JsNumber num}.
Variable rupee : string.


Lemma orElse_cases (c : value num) (fallback : json num) :
  (c = Some (orElse c fallback) /\ truthy (orElse c fallback) = true)
  \/ (truthyV c = false /\ orElse c fallback = fallback).
Proof.
  unfold orElse. destruct c as [x|]; [|now right].
  simpl. destruct (truthy x) eqn:Hx; [left | right]; auto.
Qed.

(** The product at each place of the result, with the place of its snippet
    in the array. *)
Lemma forEachSnippet_positions (snippets : list (json num)) :
  forall idx prods p,
    forEachSnippet rupee snippets idx = Ok prods -> In p prods ->
    exists k snip, nth_error snippets k = Some snip
                   /\ extractSnippet rupee snip (idx + k) = Ok (Extracted p).
Proof.
  induction snippets as [|snip rest IH]; simpl; intros idx prods p.
  - intros [= <-] [].
  - destruct (extractSnippet rupee snip idx) as [outcome|] eqn:Ho; [|discriminate]. simpl.
    destruct (forEachSnippet rupee rest (S idx)) as [more|] eqn:Hm; [|discriminate]. simpl.
    intros [= <-] Hin.
    assert (Hrest : In p more ->
                    exists k snip0, nth_error (snip :: rest) k = Some snip0
                                    /\ extractSnippet rupee snip0 (idx + k) = Ok (Extracted p)).
    { intros Hp. destruct (IH _ _ _ Hm Hp) as [k [s [Hs He]]]. exists (S k), s.
      split; [exact Hs|]. now rewrite Nat.add_succ_r. }
    destruct outcome as [|q|]; auto.
    destruct Hin as [<- | Hin]; [|auto].
    exists 0, snip. split; [reflexivity|]. now rewrite Nat.add_0_r.
Qed.

Lemma forEachSnippet_length (snippets : list (json num)) :
  forall idx prods,
    forEachSnippet rupee snippets idx = Ok prods ->
    List.length prods <= List.length snippets.
Proof.
  induction snippets as [|snip rest IH]; simpl; intros idx prods.
  - intros [= <-]. reflexivity.
  - destruct (extractSnippet rupee snip idx) as [outcome|]; [|discriminate]. simpl.
    destruct (forEachSnippet rupee rest (S idx)) as [more|] eqn:Hm; [|discriminate]. simpl.
    intros [= <-]. specialize (IH _ _ Hm). destruct outcome; simpl; lia.
Qed.

(** The guards a snippet has passed when a product is extracted from it. *)
Lemma extractSnippet_guards (snip : json num) (idx : nat) (p : product num) :
  extractSnippet rupee snip idx = Ok (Extracted p) ->
  isSponsoredSnippet snip = Ok false
  /\ isString "image_text_vr_type_header" (get snip "widget_type") = false
  /\ exists entries,
       get snip "data" = Some (JObj entries)
       /\ truthyV (lookup "name" entries) = true
       /\ truthyV (lookup "identity" entries) = true
       /\ isString "product_container" (getOpt (lookup "identity" entries) "id") = false
       /\ extractFields rupee (JObj entries) idx = Ok p.
Proof.
  unfold extractSnippet.
  destruct (isSponsoredSnippet snip) as [[]|]; simpl; try discriminate.
  destruct snip as [| | | | |entries0]; simpl; try discriminate.
  destruct (lookup "data" entries0) as [raw|]; simpl; [|discriminate].
  destruct (truthy raw) eqn:Hraw; simpl; [|discriminate].
  destruct (isString "image_text_vr_type_header" (lookup "widget_type" entries0));
    simpl; [discriminate|].
  destruct raw as [| | | | |entries]; simpl in *; try discriminate.
  destruct (truthyV (lookup "name" entries)) eqn:Hname; simpl; [|discriminate].
  destruct (truthyV (lookup "identity" entries)) eqn:Hidentity; simpl; [|discriminate].
  destruct (isString "product_container" (getOpt (lookup "identity" entries) "id"))
    eqn:Hid; simpl; [discriminate|].
  destruct (extractFields rupee (JObj entries) idx) as [q|] eqn:Hq; [|discriminate].
  intros [= <-]. split; [reflexivity|]. split; [reflexivity|].
  exists entries. auto.
Qed.

(** X6. No product comes from a sponsored snippet, from the header
    widget, from a snippet without a name or an identity, or from the
    [product_container] placeholder: every product of the result was
    extracted from a snippet of the payload that the sponsorship detector
    rejected and that passed each of those guards.  There are at most as
    many products as snippets, and none when the payload has no
    [response.snippets] array. *)
Theorem extraction_provenance (payload : value num) (prods : list (product num))
        (Hextracted : extractProductInformation rupee payload = Ok prods) :
  match snippetsOf payload with
  | None => prods = []
  | Some snippets =>
      List.length prods <= List.length snippets
      /\ forall p, In p prods ->
         exists k snip entries,
           nth_error snippets k = Some snip
           /\ isSponsoredSnippet snip = Ok false
           /\ isString "image_text_vr_type_header" (get snip "widget_type") = false
           /\ get snip "data" = Some (JObj entries)
           /\ truthyV (lookup "name" entries) = true
           /\ truthyV (lookup "identity" entries) = true
           /\ isString "product_container" (getOpt (lookup "identity" entries) "id") = false
           /\ extractFields rupee (JObj entries) k = Ok p
  end.
Proof.
  unfold extractProductInformation in Hextracted.
  destruct (snippetsOf payload) as [snippets|]; [|congruence].
  split; [exact (forEachSnippet_length snippets 0 prods Hextracted)|].
  intros p Hin.
  destruct (forEachSnippet_positions snippets 0 prods p Hextracted Hin) as [k [snip [Hk He]]].
  simpl in He.
  destruct (extractSnippet_guards snip k p He) as [Hs [Hw [entries Hrest]]].
  exists k, snip, entries. auto.
Qed.

(** The fields of an extracted product, one equation each. *)
Lemma extractFields_fields (raw : json num) (idx : nat) (p : product num) :
  extractFields rupee raw idx = Ok p ->
  (exists identityId,
      getStrict (get raw "identity") "id" = Ok identityId
      /\ p_id p = orElse identityId (JStr ("product_" ++ natural (N.of_nat idx))))
  /\ p_name p = orElse (andGet (get raw "name") "text") (JStr "Product Name Not Available")
  /\ p_price p
     = (if truthyV (andGet (get raw "normal_price") "text")
        then orElse (andGet (get raw "normal_price") "text") JNull
        else match get raw "price" with
             | Some (JNum n) =>
                 if num_truthy n then JStr (rupee ++ num_toFixed 2 n)
                 else JStr "Price Not Available"
             | _ => JStr "Price Not Available"
             end)
  /\ p_originalPrice p = orElse (andGet (get raw "mrp") "text") JNull
  /\ p_quantity p = orElse (andGet (get raw "variant") "text") (JStr "N/A")
  /\ p_imageUrl p = orElse (andGet (get raw "image") "url") (JStr EmptyString)
  /\ p_deliveryTime p
     = orElse (andGet (andGet (get raw "eta_tag") "title") "text") (JStr "N/A")
  /\ match orElse (andGet (andGet (get raw "offer_tag") "title") "text") JNull with
     | JNull => p_discount p = JNull
     | JStr s => p_discount p = JStr (replaceNewlines s)
     | _ => False
     end
  /\ (p_savings p = JNull
      \/ exists price original pr opr,
           p_price p = JStr price /\ p_originalPrice p = JStr original
           /\ searchAmount rupee price = Some pr
           /\ searchAmount rupee original = Some opr
           /\ num_isNaN (parseFloat opr) = false /\ num_isNaN (parseFloat pr) = false
           /\ num_gtb (parseFloat opr) (parseFloat pr) = true
           /\ p_savings p
              = JStr (rupee ++ num_toFixed 0 (num_sub (parseFloat opr) (parseFloat pr)))).
Proof.
  unfold extractFields.
  destruct (getStrict (get raw "identity") "id") as [identityId|]; [|discriminate].
  cbn [bind].
  destruct (orElse (andGet (andGet (get raw "offer_tag") "title") "text") JNull)
    as [| | |d| |]; cbn [bind]; try discriminate.
  - match goal with |- (bind ?e _) = _ -> _ => destruct e as [avail|]; [|discriminate] end.
    cbn [bind].
    match goal with |- (bind ?e _) = _ -> _ => destruct e as [sv|] eqn:Hsv; [|discriminate] end.
    cbn [bind]. intros [= <-]. cbn.
    split; [eauto|]. do 7 (split; [reflexivity|]).
    revert Hsv.
    match goal with |- context [truthy ?o && truthy ?q] => set (orig := o); set (price := q) end.
    destruct (truthy orig && truthy price); [|intros [= <-]; now left].
    destruct price as [| | |pt| |]; try discriminate.
    destruct orig as [| | |ot| |]; try discriminate.
    destruct (searchAmount rupee pt) as [pr|] eqn:Hpr; [|intros [= <-]; now left].
    destruct (searchAmount rupee ot) as [opr|] eqn:Hopr; [|intros [= <-]; now left].
    destruct (num_isNaN (parseFloat opr)) eqn:Hn1; simpl; [intros [= <-]; now left|].
    destruct (num_isNaN (parseFloat pr)) eqn:Hn2; simpl; [intros [= <-]; now left|].
    destruct (num_gtb (parseFloat opr) (parseFloat pr)) eqn:Hgt; [|intros [= <-]; now left].
    intros [= <-]. right. exists pt, ot, pr, opr. auto 10.
  - match goal with |- (bind ?e _) = _ -> _ => destruct e as [avail|]; [|discriminate] end.
    cbn [bind].
    match goal with |- (bind ?e _) = _ -> _ => destruct e as [sv|] eqn:Hsv; [|discriminate] end.
    cbn [bind]. intros [= <-]. cbn.
    split; [eauto|]. do 7 (split; [reflexivity|]).
    revert Hsv.
    match goal with |- context [truthy ?o && truthy ?q] => set (orig := o); set (price := q) end.
    destruct (truthy orig && truthy price); [|intros [= <-]; now left].
    destruct price as [| | |pt| |]; try discriminate.
    destruct orig as [| | |ot| |]; try discriminate.
    destruct (searchAmount rupee pt) as [pr|] eqn:Hpr; [|intros [= <-]; now left].
    destruct (searchAmount rupee ot) as [opr|] eqn:Hopr; [|intros [= <-]; now left].
    destruct (num_isNaN (parseFloat opr)) eqn:Hn1; simpl; [intros [= <-]; now left|].
    destruct (num_isNaN (parseFloat pr)) eqn:Hn2; simpl; [intros [= <-]; now left|].
    destruct (num_gtb (parseFloat opr) (parseFloat pr)) eqn:Hgt; [|intros [= <-]; now left].
    intros [= <-]. right. exists pt, ot, pr, opr. auto 10.
Qed.

End ExtractionMore.

(** The onion of the samples: no product but the onion, and it comes from
    the first snippet. *)
Lemma extraction_provenance_witness :
  extractProductInformation "Rs" (Some (payloadOf [onionSnippet; adInfoSnippet]))
  = Ok [onionProduct]
  /\ List.length [onionProduct] <= List.length [onionSnippet; adInfoSnippet]
  /\ forall p, In p [onionProduct] ->
       exists k snip entries,
         nth_error [onionSnippet; adInfoSnippet] k = Some snip
         /\ isSponsoredSnippet snip = Ok false
         /\ isString "image_text_vr_type_header" (get snip "widget_type") = false
         /\ get snip "data" = Some (JObj entries)
         /\ truthyV (lookup "name" entries) = true
         /\ truthyV (lookup "identity" entries) = true
         /\ isString "product_container" (getOpt (lookup "identity" entries) "id") = false
         /\ extractFields "Rs" (JObj entries) k = Ok p.
Proof.
  assert (He : extractProductInformation "Rs" (Some (payloadOf [onionSnippet; adInfoSnippet]))
               = Ok [onionProduct]) by (vm_compute; reflexivity).
  split; [exact He|].
  exact (extraction_provenance "Rs" (Some (payloadOf [onionSnippet; adInfoSnippet]))
           [onionProduct] He).
Defined.

(** ** Location setters: the label that is read *)

(** The first acceptable label wins; the text returned is trimmed and is
    no placeholder. *)
Lemma getFirstTextFromSelectors_spec (selectors : list probe) :
  (getFirstTextFromSelectors selectors = EmptyString
   /\ forall textContent, In (ProbeText textContent) selectors ->
                          acceptableLabel textContent = false)
  \/ exists before textContent after,
       selectors = (before ++ ProbeText textContent :: after)%list
       /\ (forall t, In (ProbeText t) before -> acceptableLabel t = false)
       /\ acceptableLabel textContent = true
       /\ getFirstTextFromSelectors selectors = trim textContent.
Proof.
  induction selectors as [|pr rest IH]; [left; split; [reflexivity | intros ? []]|].
  destruct pr as [|text].
  - destruct IH as [[He Hall] | [before [t [after [Hs [Hb [Ha Hr]]]]]]].
    + left. split; [exact He|]. intros t [Hd | Hin]; [discriminate | auto].
    + right. exists (ProbeFails :: before), t, after. subst rest.
      split; [reflexivity|]. split; [|auto].
      intros u [Hd | Hin]; [discriminate | auto].
  - simpl. fold (acceptableLabel text).
    destruct (acceptableLabel text) eqn:Hacc.
    + right. exists [], text, rest. split; [reflexivity|]. split; [intros ? []|]. auto.
    + destruct IH as [[He Hall] | [before [t [after [Hs [Hb [Ha Hr]]]]]]].
      * left. split; [exact He|]. intros t [[= <-] | Hin]; auto.
      * right. exists (ProbeText text :: before), t, after. subst rest.
        split; [reflexivity|]. split; [|auto].
        intros u [[= <-] | Hin]; auto.
Qed.

(** X8. The label selectors are tried in order and the first acceptable
    text wins: the label read is empty exactly when every selector fails
    or shows a text that is empty after trimming or contains [select] or
    [enter] in any letter case; otherwise it is the trimmed text of the
    first selector that shows an acceptable one, it has no white space at
    either end, and the selectors after it are not consulted.  The
    two-attempt setter turns an empty label into the sentinel [400], the
    single-attempt setter into the requested text, or [400] when that is
    empty. *)
Theorem label_first_acceptable (selectors : list probe) :
  (getFirstTextFromSelectors selectors = EmptyString
   <-> forall textContent, In (ProbeText textContent) selectors ->
                           acceptableLabel textContent = false)
  /\ (getFirstTextFromSelectors selectors <> EmptyString ->
      exists before textContent after,
        selectors = (before ++ ProbeText textContent :: after)%list
        /\ (forall t, In (ProbeText t) before -> acceptableLabel t = false)
        /\ getFirstTextFromSelectors selectors = trim textContent
        /\ isPlaceholderText (getFirstTextFromSelectors selectors) = false
        /\ headIs isSpace (getFirstTextFromSelectors selectors) = false
        /\ headIs isSpace (rev_string (getFirstTextFromSelectors selectors)) = false
        /\ forall others,
             getFirstTextFromSelectors (before ++ ProbeText textContent :: others)%list
             = getFirstTextFromSelectors selectors)
  /\ (Retrying.isLocationSet selectors = "400"
      <-> getFirstTextFromSelectors selectors = EmptyString
          \/ getFirstTextFromSelectors selectors = "400")
  /\ (forall fallbackValue,
        getFirstTextFromSelectors selectors = EmptyString ->
        SingleAttempt.isLocationSet selectors fallbackValue
        = if nonEmpty fallbackValue then fallbackValue else "400").
Proof.
  assert (Hacc : forall t, acceptableLabel t = true ->
                           trim t <> EmptyString /\ isPlaceholderText (trim t) = false).
  { intros t Ht. unfold acceptableLabel in Ht. apply andb_true_iff in Ht as [Hn Hp].
    apply negb_true_iff in Hp. split; [|exact Hp]. intros He. rewrite He in Hn. discriminate. }
  assert (Hskip : forall before t others,
             (forall u, In (ProbeText u) before -> acceptableLabel u = false) ->
             acceptableLabel t = true ->
             getFirstTextFromSelectors (before ++ ProbeText t :: others)%list = trim t).
  { induction before as [|pr before IHb]; intros t others Hb Ht.
    - simpl. fold (acceptableLabel t). now rewrite Ht.
    - destruct pr as [|u]; simpl.
      + apply IHb; [|exact Ht]. intros v Hv. apply Hb. now right.
      + fold (acceptableLabel u). rewrite (Hb u (or_introl eq_refl)).
        apply IHb; [|exact Ht]. intros v Hv. apply Hb. now right. }
  split; [|split; [|split]].
  - destruct (getFirstTextFromSelectors_spec selectors)
      as [[He Hall] | [before [t [after [Hs [Hb [Ha Hr]]]]]]].
    + split; auto.
    + split.
      * intros He. rewrite Hr in He. destruct (Hacc t Ha) as [Hne _]. contradiction.
      * intros Hall. rewrite (Hall t) in Ha; [discriminate|].
        rewrite Hs. apply in_or_app. right. now left.
  - intros Hne.
    destruct (getFirstTextFromSelectors_spec selectors)
      as [[He Hall] | [before [t [after [Hs [Hb [Ha Hr]]]]]]]; [contradiction|].
    exists before, t, after. rewrite Hr.
    destruct (Hacc t Ha) as [_ Hp]. destruct (trim_clean t) as [Hh Ht].
    do 6 (split; [assumption || reflexivity|]).
    intros others. now apply Hskip.
  - unfold Retrying.isLocationSet.
    destruct (getFirstTextFromSelectors selectors) as [|c r]; simpl.
    + split; auto.
    + split; [now right | intros [Hd | He]; [discriminate | exact He]].
  - intros fallbackValue He. unfold SingleAttempt.isLocationSet. now rewrite He.
Qed.


(** X10. The single-attempt setter does not compare the label with the
    request.  It never rejects, makes one attempt and never reloads; it
    returns [null] exactly when a step of the attempt fails, or the label
    read is the text [400], or no label can be read and the request is
    empty or [400].  So for a six-digit pincode whose steps complete it
    returns a title unless the label reads [400]: the label shown, even if
    that names another place, or the pincode itself when no label can be
    read. *)
Theorem single_attempt_accepts (pg : page) (loc : string) :
  snd (SingleAttempt.setBlinkitLocation pg loc) = [Attempt 1]
  /\ fst (SingleAttempt.setBlinkitLocation pg loc) <> Throw
  /\ (fst (SingleAttempt.setBlinkitLocation pg loc) = Ok None
      <-> stepsComplete (viewAt pg 1) = false
          \/ getFirstTextFromSelectors (labels (viewAt pg 1)) = "400"
          \/ (getFirstTextFromSelectors (labels (viewAt pg 1)) = EmptyString
              /\ (loc = EmptyString \/ loc = "400")))
  /\ (forall title,
        fst (SingleAttempt.setBlinkitLocation pg loc) = Ok (Some title) ->
        title <> EmptyString /\ title <> "400"
        /\ (title = getFirstTextFromSelectors (labels (viewAt pg 1))
            \/ getFirstTextFromSelectors (labels (viewAt pg 1)) = EmptyString /\ title = loc))
  /\ (isPincode loc = true -> stepsComplete (viewAt pg 1) = true ->
      getFirstTextFromSelectors (labels (viewAt pg 1)) <> "400" ->
      exists title, fst (SingleAttempt.setBlinkitLocation pg loc) = Ok (Some title)).
Proof.
  unfold SingleAttempt.setBlinkitLocation, SingleAttempt.isLocationSet. cbv zeta.
  destruct (stepsComplete (viewAt pg 1)).
  2:{ cbn [fst snd]. split; [reflexivity|]. split; [discriminate|].
      split; [split; auto|]. split; [discriminate | discriminate]. }
  assert (Hpin : isPincode loc = true -> nonEmpty loc = true /\ loc <> "400").
  { intros Hp. apply isPincode_spec in Hp as [Hlen _].
    split; [destruct loc; [discriminate | reflexivity]|].
    intros ->. discriminate. }
  generalize (getFirstTextFromSelectors (labels (viewAt pg 1))) as txt. intros txt.
  destruct (nonEmpty txt) eqn:Ht.
  - assert (Hne : txt <> EmptyString) by (intros ->; discriminate).
    rewrite Ht. cbn [andb].
    destruct (String.eqb_spec txt "400") as [H400 | H400]; cbn [negb fst snd].
    + split; [reflexivity|]. split; [discriminate|].
      split; [split; auto|]. split; [discriminate|].
      intros _ _ Hd. contradiction.
    + split; [reflexivity|]. split; [discriminate|].
      split.
      { split; [discriminate|].
        intros [Hd | [Hd | [Hd _]]]; [discriminate | contradiction | contradiction]. }
      split; [|eauto].
      intros title [= <-]. auto.
  - apply nonEmpty_false in Ht. subst txt.
    destruct (nonEmpty loc) eqn:Hl.
    + assert (Hne : loc <> EmptyString) by (intros ->; discriminate).
      rewrite Hl. cbn [andb].
      destruct (String.eqb_spec loc "400") as [H400 | H400]; cbn [negb fst snd].
      * split; [reflexivity|]. split; [discriminate|].
        split; [split; auto|]. split; [discriminate|].
        intros Hp. destruct (Hpin Hp) as [_ Hd]. contradiction.
      * split; [reflexivity|]. split; [discriminate|].
        split.
        { split; [discriminate|].
          intros [Hd | [Hd | [_ [Hd | Hd]]]]; [discriminate | discriminate | | ];
            contradiction. }
        split; [|eauto].
        intros title [= <-]. auto.
    + apply nonEmpty_false in Hl. subst loc. cbn.
      split; [reflexivity|]. split; [discriminate|].
      split; [split; auto|]. split; [discriminate|].
      intros Hp. discriminate.
Qed.

(** ** The HTTP routes *)

(** The characters of a text. *)
Lemma In_rev_string (c : ascii) (s : string) :
  In c (list_ascii_of_string (rev_string s)) <-> In c (list_ascii_of_string s).
Proof.
  induction s as [|x s IH]; [reflexivity|].
  rewrite rev_string_cons, In_append, IH. simpl. tauto.
Qed.

Lemma In_dropWhile (p : ascii -> bool) (c : ascii) (s : string) :
  In c (list_ascii_of_string (dropWhile p s)) -> In c (list_ascii_of_string s).
Proof.
  induction s as [|x s IH]; simpl; [auto|].
  destruct (p x); simpl; auto.
Qed.

Lemma In_trim (c : ascii) (s : string) :
  In c (list_ascii_of_string (trim s)) -> In c (list_ascii_of_string s).
Proof.
  unfold trim, trimEnd, trimStart. rewrite In_rev_string. intros Hin.
  apply In_dropWhile in Hin. rewrite In_rev_string in Hin.
  now apply In_dropWhile in Hin.
Qed.

Lemma splitOn_not_nil (sep : ascii) (s : string) : splitOn sep s <> [].
Proof.
  destruct s as [|c r]; simpl; [discriminate|].
  destruct (Ascii.eqb c sep); [discriminate|].
  destruct (splitOn sep r); discriminate.
Qed.

(** No piece of a split holds the separator. *)
Lemma splitOn_pieces (sep : ascii) (s : string) :
  forall piece, In piece (splitOn sep s) -> ~ In sep (list_ascii_of_string piece).
Proof.
  induction s as [|c r IH]; simpl.
  - intros piece [<- | []]. simpl. tauto.
  - destruct (Ascii.eqb c sep) eqn:Hc.
    + intros piece [<- | Hin]; [simpl; tauto | now apply IH].
    + apply Ascii.eqb_neq in Hc.
      destruct (splitOn sep r) as [|q qs] eqn:Hq.
      * intros piece [<- | []]. simpl. intros [He | []]. congruence.
      * intros piece [<- | Hin].
        -- simpl. intros [He | Hin]; [congruence|].
           exact (IH q (or_introl eq_refl) Hin).
        -- apply IH. now right.
Qed.

(** Splitting what [join] has joined gives the pieces back. *)
Lemma splitOn_append (sep : ascii) (piece rest : string) :
  ~ In sep (list_ascii_of_string piece) ->
  splitOn sep (piece ++ String sep rest) = piece :: splitOn sep rest.
Proof.
  induction piece as [|c piece IH]; simpl; intros Hfree.
  - now rewrite Ascii.eqb_refl.
  - destruct (Ascii.eqb c sep) eqn:Hc.
    + apply Ascii.eqb_eq in Hc. tauto.
    + rewrite IH; [reflexivity | tauto].
Qed.

Lemma splitOn_single (sep : ascii) (piece : string) :
  ~ In sep (list_ascii_of_string piece) -> splitOn sep piece = [piece].
Proof.
  induction piece as [|c piece IH]; simpl; intros Hfree; [reflexivity|].
  destruct (Ascii.eqb c sep) eqn:Hc.
  - apply Ascii.eqb_eq in Hc. tauto.
  - rewrite IH; [reflexivity | tauto].
Qed.

Lemma splitOn_join (sep : ascii) (pieces : list string) :
  pieces <> [] ->
  Forall (fun piece => ~ In sep (list_ascii_of_string piece)) pieces ->
  splitOn sep (join (String sep EmptyString) pieces) = pieces.
Proof.
  induction pieces as [|p [|q qs] IH]; [congruence| |]; intros _ Hfree.
  - simpl. inversion Hfree; subst. now apply splitOn_single.
  - inversion Hfree as [|? ? Hp Hrest]; subst.
    rewrite join_cons_cons.
    change (String sep EmptyString ++ join (String sep EmptyString) (q :: qs))
      with (String sep (join (String sep EmptyString) (q :: qs))).
    rewrite splitOn_append; [|exact Hp].
    rewrite IH; [reflexivity | discriminate | exact Hrest].
Qed.

(** A text that neither opens nor closes with white space is what [trim]
    leaves alone. *)
Lemma clean_trim (s : string) :
  opensClean s = true -> closesClean s = true -> trim s = s /\ nonEmpty s = true.
Proof.
  unfold closesClean, opensClean. intros Ho Hc.
  apply andb_true_iff in Ho as [Hn Ho]. apply andb_true_iff in Hc as [_ Hc].
  apply negb_true_iff in Ho, Hc. split; [now apply trim_fixed | exact Hn].
Qed.

Lemma trim_opens_closes (s : string) :
  nonEmpty (trim s) = true -> opensClean (trim s) = true /\ closesClean (trim s) = true.
Proof.
  intros Hn. destruct (trim_clean s) as [Hh Ht].
  unfold closesClean, opensClean. rewrite Hn, Hh, Ht. split; [reflexivity|].
  destruct (trim s) as [|c r]; [discriminate|].
  rewrite rev_string_cons. destruct (rev_string r); reflexivity.
Qed.

Lemma filter_trim_clean (pieces : list string) :
  Forall (fun s => opensClean s = true /\ closesClean s = true)
         (filter nonEmpty (map trim pieces)).
Proof.
  apply Forall_forall. intros s Hin. apply filter_In in Hin as [Hin Hn].
  apply in_map_iff in Hin as [piece [<- _]]. now apply trim_opens_closes.
Qed.

Lemma filter_trim_fixed (l : list string) :
  Forall (fun s => opensClean s = true /\ closesClean s = true) l ->
  filter nonEmpty (map trim l) = l.
Proof.
  induction l as [|s l IH]; [reflexivity|]. intros Hall.
  inversion Hall as [|? ? [Ho Hc] Hrest]; subst. simpl.
  destruct (clean_trim s Ho Hc) as [-> ->]. now rewrite IH.
Qed.

(** A path is its own base name exactly when it holds no slash. *)
Lemma basename_plain (requested : string) :
  basename requested = requested <-> ~ In "/"%char (list_ascii_of_string requested).
Proof.
  unfold basename. split.
  - intros Hb Hin. rewrite <- Hb in Hin. rewrite In_rev_string in Hin.
    apply In_takeWhile in Hin. discriminate Hin.
  - intros Hfree.
    assert (Hrev : forall c, In c (list_ascii_of_string (rev_string requested)) ->
                             Ascii.eqb c "/"%char = false).
    { intros c Hc. rewrite In_rev_string in Hc. apply Ascii.eqb_neq. congruence. }
    rewrite dropWhile_head_false.
    + rewrite takeWhile_all; [apply rev_string_involutive|].
      intros c Hc. now rewrite (Hrev c Hc).
    + destruct (rev_string requested) as [|c r]; [reflexivity|].
      simpl. apply Hrev. now left.
Qed.

Section RouteFacts.
Context {num : Type} `{JsNumber num}.
Variable rupee : string.

Lemma mapM_toStringJS_strings (l : list string) :
  mapM (toStringJS (num:=num)) (map JStr l) = Ok l.
Proof. induction l as [|s l IH]; simpl; [reflexivity | now rewrite IH]. Qed.

(** X11. [parseCommaList] returns clean entries only: none is empty and
    none opens or closes with white space; for a string input none holds a
    comma, and the result is the input split at every comma, trimmed, the
    empty pieces dropped.  A missing field, [null], a number, a boolean or
    an object gives the empty list; the empty string and a string of commas
    and white space give it too. *)
Theorem parseCommaList_clean (v : value num) (entries : list string)
        (Hparsed : parseCommaList v = Ok entries) :
  Forall (fun s => s <> EmptyString /\ opensClean s = true /\ closesClean s = true) entries
  /\ (forall str, v = Some (JStr str) ->
        entries = filter nonEmpty (map trim (splitOn ","%char str))
        /\ Forall (fun s => ~ In ","%char (list_ascii_of_string s)) entries)
  /\ ((forall items, v <> Some (JArr items)) -> (forall str, v <> Some (JStr str)) ->
      entries = []).
Proof.
  assert (Hclean : forall pieces,
             Forall (fun s => s <> EmptyString /\ opensClean s = true /\ closesClean s = true)
                    (filter nonEmpty (map trim pieces))).
  { intros pieces. eapply Forall_impl; [|apply filter_trim_clean].
    intros s [Ho Hc]. split; [|auto]. intros ->. discriminate. }
  split; [|split].
  - destruct v as [[| | | s | items |]|]; simpl in Hparsed;
      try (injection Hparsed as <-; constructor).
    + injection Hparsed as <-. apply Hclean.
    + destruct (mapM toStringJS items) as [printed|]; [|discriminate].
      injection Hparsed as <-. apply Hclean.
  - intros str ->. simpl in Hparsed. injection Hparsed as <-.
    split; [reflexivity|]. apply Forall_forall. intros s Hin.
    apply filter_In in Hin as [Hin _]. apply in_map_iff in Hin as [piece [<- Hpiece]].
    intros Hc. apply In_trim in Hc. exact (splitOn_pieces _ _ _ Hpiece Hc).
  - intros Harr Hstr.
    destruct v as [[| | | s | items |]|]; simpl in Hparsed;
      try (injection Hparsed as <-; reflexivity).
    + now destruct (Hstr s).
    + now destruct (Harr items).
Qed.

(** X12. A list of clean entries (none empty, none opening or closing
    with white space) survives the trip through the request: sent as an
    array of strings it is parsed back unchanged, and so it is when sent
    joined with commas, provided no entry holds a comma.  More generally a
    comma-joined list of comma-free pieces is parsed as those pieces,
    trimmed, without the empty ones. *)
Theorem parseCommaList_roundtrip (entries : list string)
        (Hclean : Forall (fun s => opensClean s = true /\ closesClean s = true) entries) :
  parseCommaList (Some (JArr (map (JStr (num:=num)) entries))) = Ok entries
  /\ (Forall (fun s => ~ In ","%char (list_ascii_of_string s)) entries ->
      parseCommaList (num:=num) (Some (JStr (join "," entries))) = Ok entries)
  /\ (forall pieces,
        Forall (fun s => ~ In ","%char (list_ascii_of_string s)) pieces ->
        parseCommaList (num:=num) (Some (JStr (join "," pieces)))
        = Ok (filter nonEmpty (map trim pieces))).
Proof.
  assert (Hpieces : forall pieces,
             Forall (fun s => ~ In ","%char (list_ascii_of_string s)) pieces ->
             parseCommaList (num:=num) (Some (JStr (join "," pieces)))
             = Ok (filter nonEmpty (map trim pieces))).
  { intros pieces Hfree. simpl. destruct pieces as [|p ps]; [reflexivity|].
    rewrite splitOn_join; [reflexivity | discriminate | exact Hfree]. }
  split; [|split].
  - simpl. rewrite mapM_toStringJS_strings. simpl. now rewrite filter_trim_fixed.
  - intros Hfree. rewrite (Hpieces entries Hfree). now rewrite filter_trim_fixed.
  - exact Hpieces.
Qed.

(** X13. The batch route answers 400, before any browser work, exactly
    when the parsed pincodes or the parsed search terms are empty.
    Otherwise it runs the batch on the three parsed lists, which always
    pass the batch's own input validation, so that a 500 of this route is
    never an input error; and since parsed entries are trimmed, the
    expanded terms of a 200 answer are the plain concatenations of term,
    space and quantity.  An entry whose printing throws leaves the request
    unanswered, without any browser work. *)
Theorem postBatchCsv_answers (s : site) (body : batchBody) :
  match parseCommaList (bodyPincodes body), parseCommaList (bodySearchTerms body),
        parseCommaList (bodyQuantities body) with
  | Ok pincodes, Ok searchTerms, Ok quantities =>
      let input := BatchInput (ArrayOf pincodes) (ArrayOf searchTerms)
                              (Some (ArrayOf quantities)) in
      if match pincodes, searchTerms with
         | _ :: _, _ :: _ => false
         | _, _ => true
         end
      then postBatchCsv rupee s body
           = (Status400 "pincodes and searchTerms are required (comma-separated or arrays).",
              [])
      else validateInput input = None
           /\ snd (postBatchCsv rupee s body) = snd (runBlinkitBatchCsv rupee s input)
           /\ match fst (runBlinkitBatchCsv rupee s input) with
              | Completed report =>
                  fst (postBatchCsv rupee s body) = Status200 report
                  /\ expandedSearchTerms report
                     = match quantities with
                       | [] => searchTerms
                       | _ :: _ => claimedExpansion searchTerms quantities
                       end
              | Failed => fst (postBatchCsv rupee s body) = Status500 None
              | InputError _ => False
              end
  | _, _, _ => postBatchCsv rupee s body = (Unanswered, [])
  end.
Proof.
  unfold postBatchCsv.
  destruct (parseCommaList (bodyPincodes body)) as [pincodes|] eqn:Hp; [|reflexivity].
  destruct (parseCommaList (bodySearchTerms body)) as [searchTerms|] eqn:Ht; [|reflexivity].
  destruct (parseCommaList (bodyQuantities body)) as [quantities|] eqn:Hq; [|reflexivity].
  cbv zeta.
  destruct pincodes as [|pin pins]; [reflexivity|].
  destruct searchTerms as [|term terms]; [reflexivity|].
  cbn [List.length Nat.eqb orb].
  split; [reflexivity|].
  destruct (runBlinkitBatchCsv rupee s
              (BatchInput (ArrayOf (pin :: pins)) (ArrayOf (term :: terms))
                          (Some (ArrayOf quantities)))) as [out evs] eqn:Hrun.
  cbn [fst snd].
  destruct out as [message | | report]; cbn [fst snd].
  - split; [reflexivity|].
    apply (runBlinkitBatchCsv_no_input_error rupee s
             (BatchInput (ArrayOf (pin :: pins)) (ArrayOf (term :: terms))
                         (Some (ArrayOf quantities))) eq_refl message).
    now rewrite Hrun.
  - split; reflexivity.
  - split; [reflexivity|]. split; [reflexivity|].
    destruct (runBlinkitBatchCsv_completed rupee s _ report evs Hrun)
      as [ps [ts [qs [found [csv [Hps [Hts [Hqs [Hexp _]]]]]]]]].
    cbn in Hps, Hts, Hqs. injection Hps as <-. injection Hts as <-. injection Hqs as <-.
    rewrite Hexp.
    destruct quantities as [|q qs]; [reflexivity|].
    unfold expandSearchTerms, claimedExpansion.
    destruct (parseCommaList_clean _ _ Ht) as [Hterms _].
    destruct (parseCommaList_clean _ _ Hq) as [Hqtys _].
    rewrite Forall_forall in Hterms, Hqtys.
    apply flat_map_ext_in. intros t Hin. apply map_ext_in. intros qty Hqin.
    apply trim_joined; [apply (Hterms t Hin) | apply (Hqtys qty Hqin)].
Qed.

End RouteFacts.

(** A body as the form sends it: comma-separated texts. *)
Lemma parseCommaList_clean_witness :
  parseCommaList (num:=double) (Some (JStr " 575001, ,560001 ")) = Ok ["575001"; "560001"]
  /\ Forall (fun s => s <> EmptyString /\ opensClean s = true /\ closesClean s = true)
            ["575001"; "560001"].
Proof.
  split; [reflexivity|].
  exact (proj1 (parseCommaList_clean (num:=double) (Some (JStr " 575001, ,560001 "))
                  ["575001"; "560001"] eq_refl)).
Defined.

Lemma parseCommaList_roundtrip_witness :
  Forall (fun s => opensClean s = true /\ closesClean s = true) ["red onion"; "leek"]
  /\ parseCommaList (num:=double) (Some (JArr [JStr "red onion"; JStr "leek"]))
     = Ok ["red onion"; "leek"].
Proof.
  assert (Hc : Forall (fun s => opensClean s = true /\ closesClean s = true)
                      ["red onion"; "leek"]).
  { repeat constructor. }
  split; [exact Hc|].
  exact (proj1 (parseCommaList_roundtrip (num:=double) ["red onion"; "leek"] Hc)).
Defined.
(** ** The response race and the probe *)

Section SearchFacts.
Context {num : Type} `{JsNumber num}.
Variable rupee : string.

Lemma capturedResponse_spec (responses : list (response (num:=num))) :
  match capturedResponse responses with
  | None => forall r, In r responses -> qualifies r = false
  | Some r =>
      exists before after,
        responses = (before ++ r :: after)%list
        /\ (forall r', In r' before -> qualifies r' = false)
        /\ qualifies r = true
  end.
Proof.
  induction responses as [|r rest IH]; simpl; [intros ? []|].
  destruct (qualifies r) eqn:Hq.
  - exists [], rest. split; [reflexivity|]. split; [intros ? [] | exact Hq].
  - destruct (capturedResponse rest) as [c|].
    + destruct IH as [before [after [-> [Hb Hc]]]].
      exists (r :: before), after. split; [reflexivity|]. split; [|exact Hc].
      intros r' [<- | Hin]; auto.
    + intros r' [<- | Hin]; auto.
Qed.

Lemma awaitProductJson_skip (before : list (response (num:=num))) :
  (forall r', In r' before -> qualifies r' = false) ->
  forall rest, awaitProductJson (before ++ rest)%list = awaitProductJson rest.
Proof.
  induction before as [|r before IH]; intros Hb rest; [reflexivity|].
  simpl. rewrite (Hb r (or_introl eq_refl)). apply IH.
  intros r' Hin. apply Hb. now right.
Qed.

Lemma qualifies_spec (r : response (num:=num)) :
  qualifies r = true ->
  (resourceType r = "xhr" \/ resourceType r = "fetch")
  /\ includes "empty_search" (url r) = false
  /\ exists payload snippets snip,
       body r = Some payload
       /\ snippetsOf (Some payload) = Some snippets
       /\ In snip snippets
       /\ truthyV (andGet (get snip "data") "identity") = true.
Proof.
  unfold qualifies. intros Hq. apply andb_true_iff in Hq as [Htype Hq].
  split.
  { apply orb_true_iff in Htype as [Ht | Ht]; apply String.eqb_eq in Ht; auto. }
  destruct (body r) as [payload|] eqn:Hbody; [|discriminate].
  destruct (snippetsOf (Some payload)) as [snippets|] eqn:Hs; [|discriminate].
  destruct (someM _ snippets) as [found|] eqn:Hsome; [|discriminate].
  apply andb_true_iff in Hq as [Hf Hurl]. subst found.
  apply negb_true_iff in Hurl. split; [exact Hurl|].
  apply someM_true in Hsome as [snip [Hin Hsnip]].
  exists payload, snippets, snip. do 3 (split; [reflexivity || assumption|]).
  destruct snip; simpl in Hsnip |- *; try discriminate; now injection Hsnip as Hsnip.
Qed.

(** X15. The search is answered by the first response that qualifies,
    and by no other: a response is taken only if it is an [xhr] or [fetch]
    response whose address does not contain [empty_search] and whose JSON
    has a [response.snippets] array with at least one snippet carrying an
    identity; the responses before it did not qualify, and whatever arrives
    after it changes nothing.  When no response qualifies before the timer
    fires, the marker of the timeout is extracted instead and the search
    returns no product, in the batch service and in the server alike. *)
Theorem capture_first_qualifying (responses : list (response (num:=num))) :
  match capturedResponse responses with
  | None =>
      (forall r, In r responses -> qualifies r = false)
      /\ awaitProductJson responses = fallbackMarker
      /\ runBlinkitSearch rupee true responses = Ok (Some [])
      /\ runServiceSearchSimple rupee true responses = Ok []
  | Some r =>
      exists before after payload snippets snip,
        responses = (before ++ r :: after)%list
        /\ (forall r', In r' before -> qualifies r' = false)
        /\ (resourceType r = "xhr" \/ resourceType r = "fetch")
        /\ includes "empty_search" (url r) = false
        /\ body r = Some payload
        /\ snippetsOf (Some payload) = Some snippets
        /\ In snip snippets
        /\ truthyV (andGet (get snip "data") "identity") = true
        /\ (forall others, awaitProductJson (before ++ r :: others)%list = payload)
        /\ runBlinkitSearch rupee true responses
           = (prods <- extractProductInformation rupee (Some payload) ;; Ok (Some prods))
        /\ runServiceSearchSimple rupee true responses
           = extractProductInformation rupee (Some payload)
  end.
Proof.
  pose proof (capturedResponse_spec responses) as Hspec.
  destruct (capturedResponse responses) as [r|].
  - destruct Hspec as [before [after [-> [Hb Hq]]]].
    destruct (qualifies_spec r Hq) as [Htype [Hurl [payload [snippets [snip [Hbody [Hs [Hin Hid]]]]]]]].
    assert (Hawait : forall others, awaitProductJson (before ++ r :: others)%list = payload).
    { intros others. rewrite (awaitProductJson_skip before Hb). simpl.
      now rewrite Hq, Hbody. }
    exists before, after, payload, snippets, snip.
    do 8 (split; [assumption || reflexivity|]).
    split; [exact Hawait|].
    unfold runBlinkitSearch, runServiceSearchSimple. simpl. rewrite (Hawait after).
    split; reflexivity.
  - assert (Hm : awaitProductJson responses = fallbackMarker).
    { clear - Hspec. induction responses as [|r rest IH]; [reflexivity|].
      simpl. rewrite (Hspec r (or_introl eq_refl)). apply IH.
      intros r' Hin. apply Hspec. now right. }
    split; [exact Hspec|]. split; [exact Hm|].
    unfold runBlinkitSearch, runServiceSearchSimple. simpl. rewrite Hm.
    split; reflexivity.
Qed.




End SearchFacts.
(** ** Term tokens: longer names *)

Lemma separator_lower (c : ascii) : isTokenSeparator c = true -> toLowerChar c = c.
Proof. destruct c as [[] [] [] [] [] [] [] []]; simpl; intros Hc; try discriminate; reflexivity. Qed.

(** The pieces after a leading run of separators do not depend on whether
    the run was already entered. *)
Lemma splitRuns_start (isSep : ascii -> bool) (b w : string) :
  w <> EmptyString ->
  In w (splitRuns isSep b EmptyString false) -> In w (splitRuns isSep b EmptyString true).
Proof.
  intros Hw. destruct b as [|c r]; simpl; [auto|].
  destruct (isSep c); [|auto].
  intros [He | Hin]; [congruence | exact Hin].
Qed.

(** A piece of a text is a piece of the text followed by a separator and
    more text. *)
Lemma splitRuns_keep_left (isSep : ascii -> bool) (c : ascii) (b : string) :
  isSep c = true ->
  forall a cur inSep w,
    (inSep = true -> cur = EmptyString) -> w <> EmptyString ->
    In w (splitRuns isSep a cur inSep) ->
    In w (splitRuns isSep (a ++ String c b) cur inSep).
Proof.
  intros Hc. induction a as [|x a IH]; intros cur inSep w Hinv Hw; simpl.
  - rewrite Hc. intros [<- | []].
    destruct inSep; [now rewrite (Hinv eq_refl) in Hw | now left].
  - destruct (isSep x).
    + destruct inSep.
      * now apply IH.
      * intros [<- | Hin]; [now left | right]. now apply IH.
    + apply IH; [discriminate | exact Hw].
Qed.

(** So is a piece of the text that follows. *)
Lemma splitRuns_keep_right (isSep : ascii -> bool) (c : ascii) (b : string) :
  isSep c = true ->
  forall a cur inSep w,
    (inSep = true -> cur = EmptyString) -> w <> EmptyString ->
    In w (split isSep b) ->
    In w (splitRuns isSep (a ++ String c b) cur inSep).
Proof.
  intros Hc. unfold split.
  induction a as [|x a IH]; intros cur inSep w Hinv Hw Hin; simpl.
  - rewrite Hc. apply (splitRuns_start isSep b w Hw) in Hin.
    destruct inSep; [rewrite (Hinv eq_refl); exact Hin | now right].
  - destruct (isSep x).
    + destruct inSep; [now apply IH | right; now apply IH].
    + apply IH; [discriminate | exact Hw | exact Hin].
Qed.

Lemma rawTokens_append (a b : string) (c : ascii) (w : string) :
  isTokenSeparator c = true -> w <> EmptyString ->
  In w (rawTokens a) \/ In w (rawTokens b) ->
  In w (rawTokens (a ++ String c b)).
Proof.
  intros Hc Hw Hin. unfold rawTokens in *.
  rewrite toLowerCase_append. simpl toLowerCase. rewrite (separator_lower c Hc).
  assert (Hv : forall v, trim v = w -> v <> EmptyString).
  { intros v Hv ->. now subst w. }
  destruct Hin as [Hin | Hin]; apply in_map_iff in Hin as [v [Htrim Hin]];
    apply in_map_iff; exists v; (split; [exact Htrim|]); unfold split.
  - apply splitRuns_keep_left; [exact Hc | discriminate | now apply Hv | exact Hin].
  - apply splitRuns_keep_right; [exact Hc | discriminate | now apply Hv | exact Hin].
Qed.

Lemma nameTokensOf_append (a b : string) (c : ascii) (t : string) :
  isTokenSeparator c = true ->
  In t (nameTokensOf a) \/ In t (nameTokensOf b) ->
  In t (nameTokensOf (a ++ String c b)).
Proof.
  intros Hc Hin. apply nameTokensOf_In.
  destruct Hin as [Hin | Hin]; apply nameTokensOf_In in Hin as [w [Hw [Hne [Ht Htne]]]];
    exists w; (split; [|auto]); apply rawTokens_append; auto.
Qed.

Section LongerNames.
Context {num : Type} `{JsNumber num}.

(** X17. More words in a product name never turn a match into a
    mismatch: when a name matches a term, so does the name followed or
    preceded by a white space, comma or hyphen and any further text.  The
    check is on the set of words, so that a product of a different kind
    whose name mentions every requested word also matches. *)
Theorem matchesSearchTerm_longer_name (name more term : string) (sep : ascii)
        (Hsep : isTokenSeparator sep = true)
        (Hmatch : matchesSearchTerm (num:=num) (JStr name) term = Ok true) :
  matchesSearchTerm (num:=num) (JStr (name ++ String sep more)) term = Ok true
  /\ matchesSearchTerm (num:=num) (JStr (more ++ String sep name)) term = Ok true.
Proof.
  rewrite matchesSearchTerm_string in Hmatch. injection Hmatch as Hall.
  rewrite forallb_forall in Hall.
  split; rewrite matchesSearchTerm_string; f_equal; apply forallb_forall;
    intros t Ht; apply has_In; apply nameTokensOf_append; try exact Hsep;
    [left | right]; apply has_In; now apply Hall.
Qed.
End LongerNames.

(** A request for onions matches the bare name and a longer one. *)
Lemma matchesSearchTerm_longer_name_witness :
  matchesSearchTerm (num:=double) (JStr "Red Onion") "onions 1kg" = Ok true
  /\ matchesSearchTerm (num:=double) (JStr "Red Onion Pickle") "onions 1kg" = Ok true.
Proof.
  assert (Hm : matchesSearchTerm (num:=double) (JStr "Red Onion") "onions 1kg" = Ok true)
    by reflexivity.
  split; [exact Hm|].
  exact (proj1 (matchesSearchTerm_longer_name (num:=double) "Red Onion" "Pickle" "onions 1kg"
                  " "%char eq_refl Hm)).
Defined.
(** ** The WebSocket session *)

Lemma In_setKey (key x : string) (keys : list string) :
  In x (setKey key keys) <-> In x keys \/ x = key.
Proof.
  unfold setKey. destruct (has keys key) eqn:Hk.
  - apply has_In in Hk. split; [auto|]. intros [Hin | ->]; assumption.
  - rewrite in_app_iff. simpl. split.
    + intros [Hin | [<- | []]]; auto.
    + intros [Hin | ->]; auto.
Qed.

Lemma NoDup_setKey (key : string) (keys : list string) : NoDup keys -> NoDup (setKey key keys).
Proof.
  unfold setKey. intros Hnd. destruct (has keys key) eqn:Hk; [exact Hnd|].
  assert (Hnot : ~ In key keys).
  { intros Hin. apply has_In in Hin. congruence. }
  clear Hk. induction keys as [|k keys IH]; simpl.
  - constructor; [intros [] | constructor].
  - inversion Hnd as [|? ? Hk Hrest]; subst. constructor.
    + rewrite in_app_iff. simpl. intros [Hin | [He | []]]; [contradiction|].
      apply Hnot. now left.
    + apply IH; [exact Hrest|]. intros Hin. apply Hnot. now right.
Qed.

Lemma In_deleteKey (key x : string) (keys : list string) :
  In x (deleteKey key keys) <-> In x keys /\ x <> key.
Proof.
  unfold deleteKey. rewrite filter_In, negb_true_iff, String.eqb_neq. reflexivity.
Qed.

Lemma NoDup_deleteKey (key : string) (keys : list string) :
  NoDup keys -> NoDup (deleteKey key keys).
Proof. apply NoDup_filter. Qed.

Lemma has_false (keys : list string) (key : string) : has keys key = false <-> ~ In key keys.
Proof.
  split.
  - intros Hh Hin. apply has_In in Hin. congruence.
  - intros Hn. destruct (has keys key) eqn:Hh; [|reflexivity].
    apply has_In in Hh. contradiction.
Qed.

Lemma deleteKey_absent (key : string) (keys : list string) :
  ~ In key keys -> deleteKey key keys = keys.
Proof.
  intros Hn. unfold deleteKey. induction keys as [|k keys IH]; [reflexivity|].
  simpl. destruct (String.eqb_spec k key) as [-> | Hne].
  - exfalso. apply Hn. now left.
  - simpl. rewrite IH; [reflexivity|]. intros Hin. apply Hn. now right.
Qed.

Lemma deleteKey_head (key : string) (keys : list string) :
  ~ In key keys -> deleteKey key (key :: keys) = keys.
Proof.
  intros Hn. unfold deleteKey. simpl. rewrite String.eqb_refl. simpl.
  now apply deleteKey_absent.
Qed.

Section SessionFacts.
Context {num : Type} `{JsNumber num}.

Lemma openAfter_app (open : list string) (a b : list (effect num)) :
  openAfter open (a ++ b) = openAfter (openAfter open a) b.
Proof.
  revert open. induction a as [|ev a IH]; intro open; [reflexivity|].
  destruct ev; simpl; apply IH.
Qed.

Lemma wellBracketed_app (open : list string) (a b : list (effect num)) :
  wellBracketed open (a ++ b) = wellBracketed open a && wellBracketed (openAfter open a) b.
Proof.
  revert open. induction a as [|ev a IH]; intro open; [reflexivity|].
  destruct ev; simpl; rewrite ?IH, ?andb_assoc; reflexivity.
Qed.

(** Closing every browser of a list without repetition leaves none. *)
Lemma closeEach_all (w : world (num:=num)) (keys : list string) :
  (forall key, closes w key = true) -> NoDup keys ->
  fst (closeEach w keys) = true
  /\ openAfter keys (snd (closeEach w keys)) = []
  /\ wellBracketed keys (snd (closeEach w keys)) = true.
Proof.
  intros Hc. induction keys as [|key keys IH]; intros Hnd; [auto|].
  inversion Hnd as [|? ? Hk Hrest]; subst.
  simpl. rewrite Hc. destruct (IH Hrest) as [Hok [Hopen Hwb]].
  destruct (closeEach w keys) as [ok evs]. simpl in *.
  rewrite String.eqb_refl. simpl. rewrite (deleteKey_absent key keys Hk).
  auto.
Qed.

Lemma initBrowser_tracks (w : world (num:=num)) (t : tracked) (svc : option string) :
  consistent t ->
  match initBrowser w t svc with
  | (inl t1, evs) =>
      consistent t1 /\ browsers t1 = openAfter (browsers t) evs
      /\ wellBracketed (browsers t) evs = true
      /\ In (keyOf svc) (browsers t1) /\ pages t1 = pages t /\ locSet t1 = locSet t
  | (inr _, evs) => evs = []
  end.
Proof.
  intros [Hnd [Hp [Hl Hs]]]. unfold initBrowser.
  destruct (has (browsers t) (keyOf svc)) eqn:Hb.
  - apply has_In in Hb. repeat split; auto.
  - destruct (launches w (keyOf svc)); [|reflexivity].
    simpl. rewrite Hb. simpl.
    repeat split; auto.
    + now apply NoDup_setKey.
    + intros x Hx. apply In_setKey. left. now apply Hp.
    + apply In_setKey. now right.
Qed.

Lemma getPage_tracks (w : world (num:=num)) (t : tracked) (svc : option string) :
  consistent t -> In (keyOf svc) (browsers t) ->
  match getPage w t svc with
  | (inl t1, evs) =>
      consistent t1 /\ browsers t1 = browsers t
      /\ openAfter (browsers t) evs = browsers t
      /\ wellBracketed (browsers t) evs = true
      /\ In (keyOf svc) (pages t1) /\ locSet t1 = locSet t
  | (inr _, evs) => evs = []
  end.
Proof.
  intros [Hnd [Hp [Hl Hs]]] Hin. unfold getPage.
  destruct (has (pages t) (keyOf svc)) eqn:Hb.
  - apply has_In in Hb. repeat split; auto.
  - destruct (opensPage w (keyOf svc)); [|reflexivity].
    simpl. repeat split; auto.
    + intros x Hx. apply In_setKey in Hx as [Hx | ->]; auto.
    + intros x Hx. apply In_setKey. left. now apply Hl.
    + apply In_setKey. now right.
Qed.

(** One message keeps the session in agreement with the open browsers. *)
Lemma handle_tracks (w : world (num:=num)) (st : session) (data : message) (open : list string) :
  (forall key, closes w key = true) -> tracks st open ->
  tracks (fst (handle w st data)) (openAfter open (snd (handle w st data)))
  /\ wellBracketed open (snd (handle w st data)) = true.
Proof.
  intros Hc Ht. unfold handle.
  destruct (given (service data) && negb (has SVCS (keyOf (service data)))); [auto|].
  destruct (isType "set-location" (mtype data)).
  { unfold setLoc. destruct st as [t|]; [|auto].
    destruct Ht as [<- Hcons].
    pose proof (initBrowser_tracks w t (service data) Hcons) as Hi.
    destruct (initBrowser w t (service data)) as [[t1 | message] evs1].
    2:{ subst evs1. simpl. split; [split; auto | reflexivity]. }
    destruct Hi as [Hc1 [Hb1 [Hw1 [Hin1 [Hp1 Hl1]]]]].
    pose proof (getPage_tracks w t1 (service data) Hc1 Hin1) as Hg.
    destruct (getPage w t1 (service data)) as [[t2 | message] evs2].
    2:{ subst evs2. simpl. rewrite openAfter_app, wellBracketed_app, Hw1. simpl.
        rewrite <- Hb1. split; [split; auto | reflexivity]. }
    destruct Hg as [Hc2 [Hb2 [Ho2 [Hw2 [Hin2 Hl2]]]]].
    assert (Hopen : forall tail, (forall o, openAfter o tail = o) ->
                      openAfter (browsers t) (evs1 ++ evs2 ++ tail) = browsers t2).
    { intros tail Htail. rewrite !openAfter_app, Htail, <- Hb1, Ho2. now symmetry. }
    assert (Hwb : forall tail, (forall o, wellBracketed o tail = true) ->
                    wellBracketed (browsers t) (evs1 ++ evs2 ++ tail) = true).
    { intros tail Htail. rewrite !wellBracketed_app, Hw1, <- Hb1, Hw2, Htail. reflexivity. }
    destruct (negb (has SVCS (keyOf (service data)))) eqn:Hsvc.
    { simpl. rewrite Hopen, Hwb by reflexivity. split; [split; auto | reflexivity]. }
    destruct (setsLocation w (keyOf (service data)) (location data)).
    - simpl. rewrite Hopen, Hwb by reflexivity. split; [|reflexivity].
      split; [reflexivity|].
      destruct Hc2 as [Hnd [Hp [Hl Hs]]]. repeat split; auto; simpl.
      + intros x Hx. apply In_setKey in Hx as [Hx | ->]; auto.
      + intros x Hx. apply In_setKey in Hx as [Hx | ->]; auto.
        apply negb_false_iff in Hsvc. now apply has_In.
    - simpl. rewrite Hopen, Hwb by reflexivity. split; [split; auto | reflexivity]. }
  destruct (isType "search" (mtype data)).
  { unfold search.
    destruct (query data) as [[|c q]|]; [auto | | auto].
    destruct st as [t|]; [|auto].
    destruct (negb (has (locSet t) (keyOf (service data)))); [auto|].
    destruct (negb (has (browsers t) (keyOf (service data)))
              || negb (has (pages t) (keyOf (service data)))); [auto|].
    destruct (negb (has SVCS (keyOf (service data)))); [auto|].
    destruct (finds w (keyOf (service data)) (String c q)); auto. }
  destruct (isType "close-browser" (mtype data)); [|auto].
  unfold closeBrowser.
  destruct (given (service data)).
  - destruct st as [t|]; [|auto].
    destruct (has (browsers t) (keyOf (service data))) eqn:Hb; [|auto].
    rewrite Hc. simpl. destruct Ht as [<- [Hnd [Hp [Hl Hs]]]].
    rewrite Hb. simpl. split; [|reflexivity]. split; [reflexivity|].
    repeat split; simpl.
    + now apply NoDup_deleteKey.
    + intros x Hx. apply In_deleteKey in Hx as [Hx Hne]. apply In_deleteKey. auto.
    + intros x Hx. apply In_deleteKey in Hx as [Hx Hne]. apply In_deleteKey. auto.
    + intros x Hx. apply In_deleteKey in Hx as [Hx Hne]. auto.
  - unfold cleanup. destruct st as [t|].
    + destruct Ht as [<- [Hnd _]].
      destruct (closeEach_all w (browsers t) Hc Hnd) as [Hok [Hopen Hwb]].
      destruct (closeEach w (browsers t)) as [ok evs]. simpl in *. subst ok.
      simpl. rewrite openAfter_app, wellBracketed_app, Hopen, Hwb. auto.
    + simpl. auto.
Qed.

Lemma cleanup_tracks (w : world (num:=num)) (st : session) (open : list string) :
  (forall key, closes w key = true) -> tracks st open ->
  fst (cleanup w st) = None
  /\ openAfter open (snd (cleanup w st)) = []
  /\ wellBracketed open (snd (cleanup w st)) = true.
Proof.
  intros Hc Ht. unfold cleanup. destruct st as [t|].
  - destruct Ht as [<- [Hnd _]].
    destruct (closeEach_all w (browsers t) Hc Hnd) as [Hok [Hopen Hwb]].
    destruct (closeEach w (browsers t)) as [ok evs]. simpl in *. subst ok. auto.
  - simpl in *. subst open. auto.
Qed.

Lemma handleAll_tracks (inbox : list (world (num:=num) * arrival)) :
  (forall w a key, In (w, a) inbox -> closes w key = true) ->
  forall st open, tracks st open ->
  tracks (fst (handleAll st inbox)) (openAfter open (snd (handleAll st inbox)))
  /\ wellBracketed open (snd (handleAll st inbox)) = true.
Proof.
  induction inbox as [|[w a] rest IH]; intros Hc st open Ht; [simpl; auto|].
  assert (Hw : forall key, closes w key = true).
  { intros key. apply (Hc w a key). now left. }
  assert (Hrest : forall w' a' key, In (w', a') rest -> closes w' key = true).
  { intros w' a' key Hin. apply (Hc w' a' key). now right. }
  simpl.
  assert (Hstep : tracks (fst (match a with
                               | Incoming data => handle w st data
                               | SocketClosed => cleanup w st
                               end))
                         (openAfter open (snd (match a with
                                               | Incoming data => handle w st data
                                               | SocketClosed => cleanup w st
                                               end)))
                  /\ wellBracketed open (snd (match a with
                                              | Incoming data => handle w st data
                                              | SocketClosed => cleanup w st
                                              end)) = true).
  { destruct a as [data|].
    - now apply handle_tracks.
    - destruct (cleanup_tracks w st open Hw Ht) as [Hn [Ho Hwb]].
      rewrite Hn, Ho. split; [reflexivity | exact Hwb]. }
  destruct (match a with
            | Incoming data => handle w st data
            | SocketClosed => cleanup w st
            end) as [st1 evs1]. simpl in Hstep.
  destruct Hstep as [Ht1 Hw1].
  specialize (IH Hrest st1 (openAfter open evs1) Ht1).
  destruct (handleAll st1 rest) as [st2 evs2]. simpl in *.
  rewrite openAfter_app, wellBracketed_app, Hw1. exact IH.
Qed.

(** X18. As long as no [close] rejects, and with the messages of a
    connection handled one at a time, the server keeps exact track of the
    browsers of the client: the tracked browsers are those launched and not
    yet closed, no browser is launched for a service that has one open
    (it is reused), none is closed twice, a page is tracked only with its
    browser and the location flag only with its page and only for a known
    service.  Once the socket has closed no browser is left open. *)
Theorem session_tracks_browsers (inbox : list (world (num:=num) * arrival))
        (Hcloses : forall w a key, In (w, a) inbox -> closes w key = true) :
  wellBracketed [] (snd (handleAll connected inbox)) = true
  /\ tracks (fst (handleAll connected inbox)) (openAfter [] (snd (handleAll connected inbox)))
  /\ forall w, (forall key, closes w key = true) ->
       fst (handleAll connected (inbox ++ [(w, SocketClosed)])) = None
       /\ openAfter [] (snd (handleAll connected (inbox ++ [(w, SocketClosed)]))) = [].
Proof.
  assert (Hstart : tracks connected []).
  { split; [reflexivity|]. split; [constructor|]. repeat split; intros x []. }
  destruct (handleAll_tracks inbox Hcloses connected [] Hstart) as [Ht Hw].
  split; [exact Hw|]. split; [exact Ht|].
  intros w Hcw.
  assert (Hall : forall w' a key, In (w', a) (inbox ++ [(w, SocketClosed)]) ->
                                  closes w' key = true).
  { intros w' a key Hin. apply in_app_or in Hin as [Hin | [[= <- <-] | []]].
    - now apply (Hcloses w' a key).
    - apply Hcw. }
  clear Ht Hw.
  assert (Hgen : forall st open, tracks st open ->
             fst (handleAll st (inbox ++ [(w, SocketClosed)])) = None
             /\ openAfter open (snd (handleAll st (inbox ++ [(w, SocketClosed)]))) = []).
  { clear Hstart Hall. induction inbox as [|[w' a] rest IH]; intros st open Ht.
    - simpl. destruct (cleanup_tracks w st open Hcw Ht) as [Hn [Ho _]].
      destruct (cleanup w st) as [st1 evs1]. simpl in *.
      rewrite app_nil_r. auto.
    - assert (Hw' : forall key, closes w' key = true).
      { intros key. apply (Hcloses w' a key). now left. }
      assert (Hrest : forall w0 a0 key, In (w0, a0) rest -> closes w0 key = true).
      { intros w0 a0 key Hin. apply (Hcloses w0 a0 key). now right. }
      simpl.
      assert (Hstep : tracks (fst (match a with
                                   | Incoming data => handle w' st data
                                   | SocketClosed => cleanup w' st
                                   end))
                             (openAfter open (snd (match a with
                                                   | Incoming data => handle w' st data
                                                   | SocketClosed => cleanup w' st
                                                   end)))).
      { destruct a as [data|].
        - now apply handle_tracks.
        - destruct (cleanup_tracks w' st open Hw' Ht) as [Hn [Ho _]].
          rewrite Hn, Ho. reflexivity. }
      destruct (match a with
                | Incoming data => handle w' st data
                | SocketClosed => cleanup w' st
                end) as [st1 evs1]. simpl in Hstep.
      specialize (IH Hrest st1 (openAfter open evs1) Hstep).
      destruct (handleAll st1 (rest ++ [(w, SocketClosed)])) as [st2 evs2]. simpl in *.
      now rewrite openAfter_app. }
  exact (Hgen connected [] Hstart).
Qed.

Lemma flaggedAfter_app (flagged : list string) (a b : list (effect num)) :
  flaggedAfter flagged (a ++ b) = flaggedAfter (flaggedAfter flagged a) b.
Proof.
  revert flagged. induction a as [|ev a IH]; intro flagged; [reflexivity|].
  destruct ev as [| | | | |r]; simpl; try apply IH. destruct r; apply IH.
Qed.

Lemma searchesGated_app (flagged : list string) (a b : list (effect num)) :
  searchesGated flagged (a ++ b)
  = searchesGated flagged a && searchesGated (flaggedAfter flagged a) b.
Proof.
  revert flagged. induction a as [|ev a IH]; intro flagged; [reflexivity|].
  destruct ev as [| | | | |r]; simpl; try apply IH.
  - now rewrite IH, !andb_assoc.
  - destruct r; simpl; apply IH.
Qed.

Lemma flaggedAfter_In (key : string) (evs : list (effect num)) :
  forall flagged, In key (flaggedAfter flagged evs) ->
  In key flagged
  \/ exists svc loc, keyOf svc = key /\ In (Sent (LocationSet svc loc)) evs.
Proof.
  induction evs as [|ev evs IH]; intros flagged Hin; [now left|].
  assert (Hskip : In key (flaggedAfter flagged evs) ->
                  In key flagged
                  \/ exists svc loc, keyOf svc = key
                                     /\ In (Sent (LocationSet svc loc)) (ev :: evs)).
  { intros Hk. destruct (IH flagged Hk) as [Hf | [svc [loc [Hs Hl]]]]; [now left|].
    right. exists svc, loc. split; [exact Hs | now right]. }
  destruct ev as [| | | | |r]; simpl in Hin; try (now apply Hskip).
  destruct r as [| svc loc | |]; try (now apply Hskip).
  destruct (IH _ Hin) as [[He | Hf] | [svc' [loc' [Hs Hl]]]].
  - right. exists svc, loc. split; [exact He | now left].
  - now left.
  - right. exists svc', loc'. split; [exact Hs | now right].
Qed.

(** A search in a gated trace has its [location-set] reply before it. *)
Lemma searchesGated_split (evs : list (effect num)) :
  forall flagged pre key q post,
    searchesGated flagged evs = true ->
    evs = (pre ++ Searched key q :: post)%list ->
    In key SVCS /\ In key (flaggedAfter flagged pre).
Proof.
  intros flagged pre key q post Hg ->.
  rewrite searchesGated_app in Hg. apply andb_true_iff in Hg as [_ Hg].
  simpl in Hg. apply andb_true_iff in Hg as [Hg _].
  apply andb_true_iff in Hg as [Hf Hs].
  split; now apply has_In.
Qed.

Lemma handle_gated (w : world (num:=num)) (st : session) (data : message)
      (flagged : list string) :
  flagsKnown st flagged ->
  searchesGated flagged (snd (handle w st data)) = true
  /\ flagsKnown (fst (handle w st data)) (flaggedAfter flagged (snd (handle w st data))).
Proof.
  intros Hf. unfold handle.
  destruct (given (service data) && negb (has SVCS (keyOf (service data)))); [auto|].
  destruct (isType "set-location" (mtype data)).
  { unfold setLoc. destruct st as [t|]; [|simpl; auto].
    assert (Hinit : forall evs t1 (r : tracked + string),
               initBrowser w t (service data) = (r, evs) ->
               (forall f, flaggedAfter f evs = f) /\ (forall f, searchesGated f evs = true)
               /\ (r = inl t1 -> locSet t1 = locSet t)).
    { unfold initBrowser. intros evs t1 r.
      destruct (has (browsers t) (keyOf (service data)));
        [intros [= <- <-]; repeat split; congruence|].
      destruct (launches w (keyOf (service data))); intros [= <- <-];
        repeat split; try congruence. intros [= <-]. reflexivity. }
    destruct (initBrowser w t (service data)) as [[t1 | message] evs1] eqn:Hi.
    2:{ destruct (Hinit evs1 t _ eq_refl) as [Ha [Hg _]]. simpl.
        rewrite searchesGated_app, flaggedAfter_app, Ha, Hg. simpl. auto. }
    destruct (Hinit evs1 t1 _ eq_refl) as [Ha1 [Hg1 Hl1]]. specialize (Hl1 eq_refl).
    assert (Hpage : forall evs t2 (r : tracked + string),
               getPage w t1 (service data) = (r, evs) ->
               (forall f, flaggedAfter f evs = f) /\ (forall f, searchesGated f evs = true)
               /\ (r = inl t2 -> locSet t2 = locSet t1)).
    { unfold getPage. intros evs t2 r.
      destruct (has (pages t1) (keyOf (service data)));
        [intros [= <- <-]; repeat split; congruence|].
      destruct (opensPage w (keyOf (service data))); intros [= <- <-];
        repeat split; try congruence. intros [= <-]. reflexivity. }
    destruct (getPage w t1 (service data)) as [[t2 | message] evs2] eqn:Hp.
    2:{ destruct (Hpage evs2 t1 _ eq_refl) as [Ha [Hg _]]. simpl.
        rewrite !searchesGated_app, !flaggedAfter_app, Ha1, Hg1, Ha, Hg. simpl.
        split; [reflexivity|]. now rewrite Hl1. }
    destruct (Hpage evs2 t2 _ eq_refl) as [Ha2 [Hg2 Hl2]]. specialize (Hl2 eq_refl).
    assert (Hknown : incl (locSet t2) flagged) by (rewrite Hl2, Hl1; exact Hf).
    match goal with
    | |- context [if negb ?c then _ else _] => destruct (negb c)
    end.
    { cbn [fst snd].
      rewrite !searchesGated_app, !flaggedAfter_app, Ha1, Hg1, Ha2, Hg2. simpl. auto. }
    destruct (setsLocation w (keyOf (service data)) (location data)); cbn [fst snd];
      rewrite !searchesGated_app, !flaggedAfter_app, Ha1, Hg1, Ha2, Hg2; simpl;
      (split; [reflexivity|]); [|exact Hknown].
    intros x Hx. apply In_setKey in Hx as [Hx | ->]; [right; now apply Hknown | now left]. }
  destruct (isType "search" (mtype data)).
  { unfold search.
    destruct (query data) as [[|c q]|]; [auto | | auto].
    destruct st as [t|]; [|simpl; auto].
    destruct (has (locSet t) (keyOf (service data))) eqn:Hl; cbn [negb]; [|simpl; auto].
    destruct (negb (has (browsers t) (keyOf (service data)))
              || negb (has (pages t) (keyOf (service data)))); [simpl; auto|].
    destruct (has SVCS (keyOf (service data))) eqn:Hs; cbn [negb]; [|simpl; auto].
    assert (Hk : has flagged (keyOf (service data)) = true).
    { apply has_In. apply Hf. now apply has_In. }
    destruct (finds w (keyOf (service data)) (String c q));
      cbn [fst snd searchesGated flaggedAfter]; rewrite Hk, Hs;
      (split; [reflexivity | exact Hf]). }
  destruct (isType "close-browser" (mtype data)); [|simpl; auto].
  unfold closeBrowser.
  destruct (given (service data)).
  - destruct st as [t|]; [|simpl; auto].
    destruct (has (browsers t) (keyOf (service data))); [|simpl; auto].
    destruct (closes w (keyOf (service data))); simpl; [|auto].
    split; [reflexivity|]. intros x Hx. apply In_deleteKey in Hx as [Hx _]. now apply Hf.
  - assert (Hclose : forall keys f,
               flaggedAfter f (snd (closeEach w keys)) = f
               /\ searchesGated f (snd (closeEach w keys)) = true).
    { induction keys as [|k keys IHk]; intro f; [simpl; auto|].
      simpl. destruct (closes w k); [|simpl; auto].
      destruct (IHk f) as [Ha Hg]. destruct (closeEach w keys) as [ok evs]. simpl in *. auto. }
    unfold cleanup. destruct st as [t|]; [|simpl; auto].
    destruct (Hclose (browsers t) flagged) as [Ha Hg].
    destruct (closeEach w (browsers t)) as [[] evs]; simpl in *;
      rewrite ?searchesGated_app, ?flaggedAfter_app, ?Ha, ?Hg; simpl; auto.
Qed.

Lemma cleanup_gated (w : world (num:=num)) (st : session) (flagged : list string) :
  flagsKnown st flagged ->
  searchesGated flagged (snd (cleanup w st)) = true
  /\ flagsKnown (fst (cleanup w st)) (flaggedAfter flagged (snd (cleanup w st))).
Proof.
  intros Hf.
  assert (Hclose : forall keys f,
             flaggedAfter f (snd (closeEach w keys)) = f
             /\ searchesGated f (snd (closeEach w keys)) = true).
  { induction keys as [|k keys IHk]; intro f; [simpl; auto|].
    simpl. destruct (closes w k); [|simpl; auto].
    destruct (IHk f) as [Ha Hg]. destruct (closeEach w keys) as [ok evs]. simpl in *. auto. }
  unfold cleanup. destruct st as [t|]; [|simpl; auto].
  destruct (Hclose (browsers t) flagged) as [Ha Hg].
  destruct (closeEach w (browsers t)) as [[] evs]; simpl in *; rewrite ?Ha, ?Hg; auto.
Qed.

Lemma handleAll_gated (inbox : list (world (num:=num) * arrival)) :
  forall st flagged, flagsKnown st flagged ->
  searchesGated flagged (snd (handleAll st inbox)) = true.
Proof.
  induction inbox as [|[w a] rest IH]; intros st flagged Hf; [reflexivity|].
  simpl.
  assert (Hstep : searchesGated flagged
                    (snd (match a with
                          | Incoming data => handle w st data
                          | SocketClosed => cleanup w st
                          end)) = true
                  /\ flagsKnown (fst (match a with
                                      | Incoming data => handle w st data
                                      | SocketClosed => cleanup w st
                                      end))
                       (flaggedAfter flagged
                          (snd (match a with
                                | Incoming data => handle w st data
                                | SocketClosed => cleanup w st
                                end)))).
  { destruct a as [data|]; [now apply handle_gated | now apply cleanup_gated]. }
  destruct (match a with
            | Incoming data => handle w st data
            | SocketClosed => cleanup w st
            end) as [st1 evs1]. simpl in Hstep. destruct Hstep as [Hg Hf1].
  specialize (IH st1 (flaggedAfter flagged evs1) Hf1).
  destruct (handleAll st1 rest) as [st2 evs2]. simpl in *.
  now rewrite searchesGated_app, Hg, IH.
Qed.

(** X19. No search is run before the location was set: every search of
    a connection is for the service [blinkit] and comes after a
    [location-set] reply for it on the same connection.  That reply, and
    with it the permission to search, is given whenever the location
    setter returns, whatever it returns: a setter that reports failure
    ([null]) is followed by [location-set] all the same, and the next
    search is run. *)
Theorem search_needs_location_set (inbox : list (world (num:=num) * arrival)) :
  (forall pre key q post,
      snd (handleAll connected inbox) = (pre ++ Searched key q :: post)%list ->
      key = "blinkit"
      /\ exists loc, In (Sent (LocationSet (Some "blinkit") loc)) pre)
  /\ forall (w w' : world (num:=num)) loc c q,
       launches w "blinkit" = true -> opensPage w "blinkit" = true ->
       setsLocation w "blinkit" loc = Ok None ->
       snd (handleAll connected [(w, Incoming (setLocationMessage loc));
                                 (w', Incoming (searchMessage (String c q)))])
       = [Launched (num:=num) "blinkit"; PageOpened "blinkit"; LocationTried "blinkit" loc;
          Sent (LocationSet (Some "blinkit") loc);
          Searched "blinkit" (String c q);
          Sent (match finds w' "blinkit" (String c q) with
                | Ok prods => SearchResults (Some "blinkit") (String c q) prods
                | Throw => ErrorReply ("Search failed: " ++ raised w') (Some "blinkit")
                end)].
Proof.
  split.
  - intros pre key q post Hsplit.
    assert (Hg : searchesGated [] (snd (handleAll connected inbox)) = true).
    { apply handleAll_gated. intros x []. }
    destruct (searchesGated_split _ [] pre key q post Hg Hsplit) as [Hsvc Hflag].
    destruct Hsvc as [<- | []]. split; [reflexivity|].
    apply flaggedAfter_In in Hflag as [[] | [svc [loc [Hk Hin]]]].
    exists loc. destruct svc as [s|]; simpl in Hk; [|discriminate]. now subst s.
  - intros w w' loc c q Hl Hp Hs.
    cbn. rewrite Hl. cbn. rewrite Hp. cbn. rewrite Hs. cbn.
    destruct (finds w' "blinkit" (String c q)); reflexivity.
Qed.

Lemma closeEach_ok (w : world (num:=num)) (keys : list string) :
  (forall key, In key keys -> closes w key = true) ->
  closeEach w keys = (true, map Closed keys).
Proof.
  induction keys as [|k keys IH]; intros Hc; [reflexivity|].
  simpl. rewrite (Hc k (or_introl eq_refl)), IH; [reflexivity|].
  intros key Hin. apply Hc. now right.
Qed.

Lemma handle_ended (w : world (num:=num)) (data : message) :
  fst (handle w None data) = None /\ forallb isRefusal (snd (handle w None data)) = true.
Proof.
  unfold handle.
  destruct (given (service data) && negb (has SVCS (keyOf (service data)))); [auto|].
  destruct (isType "set-location" (mtype data)); [simpl; auto|].
  destruct (isType "search" (mtype data)).
  { unfold search. destruct (query data) as [[|c q]|]; simpl; auto. }
  destruct (isType "close-browser" (mtype data)); [|simpl; auto].
  unfold closeBrowser. destruct (given (service data)); simpl; auto.
Qed.

Lemma handleAll_ended (inbox : list (world (num:=num) * arrival)) :
  fst (handleAll None inbox) = None /\ forallb isRefusal (snd (handleAll None inbox)) = true.
Proof.
  induction inbox as [|[w a] rest IH]; [simpl; auto|].
  simpl. destruct a as [data|].
  - destruct (handle_ended w data) as [Hn Hr].
    destruct (handle w None data) as [st1 evs1]. simpl in *. subst st1.
    destruct (handleAll None rest) as [st2 evs2]. simpl in *.
    rewrite forallb_app, Hr. exact IH.
  - simpl. destruct (handleAll None rest) as [st2 evs2]. simpl in *. exact IH.
Qed.

(** X20. A [close-browser] message that names no service ends the
    session for good.  When the browsers of the client close, each is
    closed, [browser-closed] is sent for [all], and the entries of the
    client are deleted; from then on no message on the connection launches
    a browser, sets a location or searches: each is answered with an error
    (a [set-location] with the failure to initialise the browser), or with
    the acknowledgement of another close. *)
Theorem close_all_ends_session (w : world (num:=num)) (t : tracked) (data : message)
        (Htype : mtype data = Some "close-browser")
        (Hall : given (service data) = false)
        (Hcloses : forall key, In key (browsers t) -> closes w key = true) :
  handle w (Some t) data
  = (None, (map Closed (browsers t) ++ [Sent (BrowserClosed "all")])%list)
  /\ (forall inbox : list (world (num:=num) * arrival),
        fst (handleAll None inbox) = None
        /\ forallb isRefusal (snd (handleAll None inbox)) = true)
  /\ (forall (w' : world (num:=num)) loc,
        handle w' None (setLocationMessage loc)
        = (None, [Sent (ErrorReply ("Failed to set location: Failed to initialize browser: "
                                    ++ noEntry "blinkit") (Some "blinkit"))]))
  /\ (forall (w' : world (num:=num)) c q,
        handle w' None (searchMessage (String c q))
        = (None, [Sent (ErrorReply ("Search failed: " ++ noEntry "blinkit")
                                   (Some "blinkit"))])).
Proof.
  split; [|split; [exact handleAll_ended | split; reflexivity]].
  unfold handle. rewrite Hall, Htype. cbn [andb isType].
  change ("close-browser" =? "set-location") with false.
  change ("close-browser" =? "search") with false.
  change ("close-browser" =? "close-browser") with true. cbv iota.
  unfold closeBrowser. rewrite Hall. unfold cleanup.
  now rewrite (closeEach_ok w (browsers t) Hcloses).
Qed.
End SessionFacts.

(** A session in which the setter reports a failure and the search runs
    all the same; the socket then closes and the browser with it. *)
Lemma session_tracks_browsers_witness :
  (forall w a key,
      In (w, a) [(calmWorld, Incoming (setLocationMessage "575001"));
                 (calmWorld, Incoming (searchMessage "onion"))] ->
      closes w key = true)
  /\ handleAll connected
       [(calmWorld, Incoming (setLocationMessage "575001"));
        (calmWorld, Incoming (searchMessage "onion"));
        (calmWorld, SocketClosed)]
     = (None, [Launched "blinkit"; PageOpened "blinkit"; LocationTried "blinkit" "575001";
               Sent (LocationSet (Some "blinkit") "575001");
               Searched "blinkit" "onion"; Sent (SearchResults (Some "blinkit") "onion" []);
               Closed "blinkit"])
  /\ fst (handleAll connected
            ([(calmWorld, Incoming (setLocationMessage "575001"));
              (calmWorld, Incoming (searchMessage "onion"))]
             ++ [(calmWorld, SocketClosed)])%list) = None.
Proof.
  assert (Hc : forall w a key,
             In (w, a) [(calmWorld, Incoming (setLocationMessage "575001"));
                        (calmWorld, Incoming (searchMessage "onion"))] ->
             closes w key = true).
  { intros w a key [[= <- <-] | [[= <- <-] | []]]; reflexivity. }
  split; [exact Hc|]. split; [reflexivity|].
  exact (proj1 (proj2 (proj2 (session_tracks_browsers _ Hc)) calmWorld (fun _ => eq_refl))).
Defined.

Lemma close_all_ends_session_witness :
  mtype closeAllMessage = Some "close-browser"
  /\ given (service closeAllMessage) = false
  /\ handle calmWorld (Some (Tracked ["blinkit"] ["blinkit"] ["blinkit"])) closeAllMessage
     = (None, [Closed "blinkit"; Sent (BrowserClosed "all")]).
Proof.
  split; [reflexivity|]. split; [reflexivity|].
  exact (proj1 (close_all_ends_session calmWorld (Tracked ["blinkit"] ["blinkit"] ["blinkit"])
                  closeAllMessage eq_refl eq_refl (fun _ _ => eq_refl))).
Defined.
(** ** The batch from end to end *)

Lemma searchesOf_app (a b : list batchEvent) :
  searchesOf (a ++ b) = (searchesOf a ++ searchesOf b)%list.
Proof.
  induction a as [|ev a IH]; [reflexivity|].
  destruct ev; simpl; rewrite IH; reflexivity.
Qed.



Section EndToEnd.
Context {num : Type} `{JsNumber num}.
Variable rupee : string.

Lemma forEachTerm_searchesOf (s : site) (pincode : string) (terms : list string) :
  forall rows, fst (forEachTerm rupee s pincode terms) = Ok rows ->
  searchesOf (snd (forEachTerm rupee s pincode terms)) = map (pair pincode) terms.
Proof.
  induction terms as [|t l IH]; [reflexivity|]. simpl.
  destruct (runBlinkitSearch rupee (navigationSucceeds s pincode t)
              (responsesFor s pincode t)) as [[ps|]|]; try (intros ? Hd; discriminate).
  destruct (forEachProduct pincode t (extractQuantityFromTerm t) ps);
    [|intros ? Hd; discriminate].
  destruct (forEachTerm rupee s pincode l) as [[more|] evl]; simpl in *;
    [|intros ? Hd; discriminate].
  intros rows _. now rewrite (IH more eq_refl).
Qed.

Lemma forEachPincode_searchesOf (s : site) (pins terms : list string) :
  forall rows, fst (forEachPincode rupee s pins terms) = Ok rows ->
  searchesOf (snd (forEachPincode rupee s pins terms))
  = flat_map (fun pincode => map (pair pincode) terms) (filter (located s) pins).
Proof.
  induction pins as [|pin rest IH]; [reflexivity|]. simpl. unfold located at 1.
  destruct (pageOpens s pin); cbn [negb]; [|intros ? Hd; discriminate].
  destruct (locationFor s pin) as [title|]; [|intros ? Hd; discriminate].
  destruct (isSet title); cbn [negb].
  - pose proof (forEachTerm_searchesOf s pin terms) as Hts.
    destruct (forEachTerm rupee s pin terms) as [[here|] found]; simpl in *;
      [|intros ? Hd; discriminate].
    destruct (forEachPincode rupee s rest terms) as [[more|] evr]; simpl in *;
      [|intros ? Hd; discriminate].
    intros rows _. rewrite searchesOf_app, (Hts here eq_refl). simpl.
    now rewrite (IH more eq_refl).
  - destruct (forEachPincode rupee s rest terms) as [[more|] evr]; simpl in *;
      [|intros ? Hd; discriminate].
    intros rows _. now apply (IH more).
Qed.

(** X21. A batch that completes has searched every expanded term on the
    page of every pincode whose location was set, once each, pincode by
    pincode in the order of the input and, for each pincode, term by term
    in the order of the expansion; it has searched nothing else.  The
    expansion has one term for each pair of a search term and a quantity,
    or the search terms themselves when no quantity is given. *)
Theorem batch_searches_exact (s : site) (input : batchInput) report evs
        (Hrun : runBlinkitBatchCsv rupee s input = (Completed report, evs)) :
  searchesOf evs
  = flat_map (fun pincode => map (pair pincode) (expandedSearchTerms report))
             (filter (located s) (pincodesOf input))
  /\ List.length (searchesOf evs)
     = List.length (filter (located s) (pincodesOf input))
       * List.length (expandedSearchTerms report)
  /\ expandedSearchTerms report = expandedOf input
  /\ forall terms qtys,
       searchTerms input = ArrayOf terms -> withDefault (quantities input) = ArrayOf qtys ->
       List.length (expandedSearchTerms report)
       = match qtys with
         | [] => List.length terms
         | _ :: _ => List.length terms * List.length qtys
         end.
Proof.
  destruct (runBlinkitBatchCsv_completed rupee s input report evs Hrun)
    as [pins [terms [qtys [found [csv [Hp [Ht [Hq [Hexp [Hcount [Hloop [Hcsv Hevs]]]]]]]]]]]].
  assert (Hs : searchesOf evs
               = flat_map (fun pincode => map (pair pincode) (expandedSearchTerms report))
                          (filter (located s) (pincodesOf input))).
  { rewrite Hevs. cbn [searchesOf]. rewrite searchesOf_app. simpl.
    rewrite app_nil_r. unfold pincodesOf. rewrite Hp, Hexp.
    pose proof (forEachPincode_searchesOf s pins (expandSearchTerms terms qtys) (items report))
      as Hsearch.
    rewrite Hloop in Hsearch. now apply Hsearch. }
  split; [exact Hs|]. split; [|split].
  - rewrite Hs. generalize (filter (located s) (pincodesOf input)) as l.
    induction l as [|p l IH]; [reflexivity|].
    cbn [flat_map]. rewrite length_app, length_map, IH. reflexivity.
  - unfold expandedOf. now rewrite Ht, Hq.
  - intros terms' qtys' Ht' Hq'. rewrite Ht in Ht'. rewrite Hq in Hq'.
    injection Ht' as <-. injection Hq' as <-. rewrite Hexp.
    destruct qtys as [|q qs]; [reflexivity|].
    change (expandSearchTerms terms (q :: qs))
      with (flat_map (fun term => map (fun qty => trim (term ++ " " ++ qty)) (q :: qs)) terms).
    generalize (q :: qs) as l. intros l. clear.
    induction terms as [|t ts IH]; [reflexivity|].
    cbn [flat_map]. rewrite length_app, length_map, IH. reflexivity.
Qed.


End EndToEnd.

(** The batch of the samples: one pincode is known, one term, one row. *)
Lemma batch_searches_exact_witness :
  exists report evs,
    runBlinkitBatchCsv "Rs" patchySite onionInput = (Completed report, evs)
    /\ searchesOf evs = [("575001", "onion")].
Proof.
  destruct (runBlinkitBatchCsv "Rs" patchySite onionInput) as [out evs] eqn:Hrun.
  assert (Hout : exists report, out = Completed report).
  { vm_compute in Hrun. injection Hrun as <- _. eexists. reflexivity. }
  destruct Hout as [report ->]. exists report, evs. split; [reflexivity|].
  rewrite (proj1 (batch_searches_exact "Rs" patchySite onionInput report evs Hrun)).
  rewrite (proj1 (proj2 (proj2 (batch_searches_exact "Rs" patchySite onionInput report evs Hrun)))).
  reflexivity.
Defined.

(** ** The filters at their edges *)

Lemma matchNumber_needs_digit (s : string) :
  headIs isDigit s = false -> matchNumber s = None.
Proof.
  intros Hh. unfold matchNumber. now rewrite (takeWhile_head_false _ _ Hh).
Qed.

(** A text without a digit holds no quantity. *)
Lemma searchQuantity_needs_digit (s : string) :
  (forall c, In c (list_ascii_of_string s) -> isDigit c = false) ->
  forall prevWord, searchQuantity prevWord s = None.
Proof.
  induction s as [|c s IH]; intros Hno prevWord; [reflexivity|].
  simpl. unfold matchQuantityAt. rewrite matchNumber_needs_digit.
  - destruct prevWord; apply IH; intros x Hx; apply Hno; now right.
  - simpl. apply Hno. now left.
Qed.

Lemma searchMulti_needs_digit (s : string) :
  (forall c, In c (list_ascii_of_string s) -> isDigit c = false) ->
  searchMulti s = None.
Proof.
  induction s as [|c s IH]; intros Hno; [reflexivity|].
  simpl. unfold matchMultiAt. simpl. rewrite (Hno c (or_introl eq_refl)).
  apply IH. intros x Hx. apply Hno. now right.
Qed.

Lemma isDigit_lower (c : ascii) : isDigit (toLowerChar c) = isDigit c.
Proof. destruct c as [[] [] [] [] [] [] [] []]; reflexivity. Qed.

Lemma no_digit_lower_trim (s : string) :
  (forall c, In c (list_ascii_of_string s) -> isDigit c = false) ->
  forall c, In c (list_ascii_of_string (trim (toLowerCase s))) -> isDigit c = false.
Proof.
  intros Hno c Hc. apply In_trim in Hc.
  induction s as [|x s IH]; simpl in Hc; [destruct Hc|].
  destruct Hc as [<- | Hc].
  - rewrite isDigit_lower. apply Hno. now left.
  - apply IH; [|exact Hc]. intros y Hy. apply Hno. now right.
Qed.

Lemma existsSuffix_append (p : string -> bool) (a s : string) :
  p s = true -> existsSuffix p (a ++ s) = true.
Proof.
  intros Hp. induction a as [|c a IH]; simpl.
  - destruct s; simpl; rewrite Hp; reflexivity.
  - rewrite IH. apply orb_true_r.
Qed.

Lemma startsWith_ci_append (p r : string) : startsWith_ci p (p ++ r) = true.
Proof.
  induction p as [|c p IH]; simpl; [reflexivity|].
  unfold ci_eqb. now rewrite Ascii.eqb_refl, IH.
Qed.

Lemma includes_ci_inside (p a b : string) : includes_ci p (a ++ p ++ b) = true.
Proof. apply existsSuffix_append, startsWith_ci_append. Qed.

Section FilterEdges.
Context {num : Type} `{JsNumber num}.

(** X23. Without a digit there is no quantity.  A search term that holds
    no digit requests no quantity, so that no product is dropped for its
    quantity whatever its pack size; and a product whose quantity text
    holds no digit (the sentinel [N/A], a bare [each]) passes the quantity
    filter of every term. *)
Theorem no_digit_no_quantity (text : string)
        (Hno : forall c, In c (list_ascii_of_string text) -> isDigit c = false) :
  extractQuantityFromTerm (num:=num) text = None
  /\ (forall productQty : json num,
        matchesQuantity productQty (extractQuantityFromTerm text) = Ok true)
  /\ (forall p : product num,
        filterProduct text (extractQuantityFromTerm text) p <> Ok DropQuantityMismatch)
  /\ normalizeQuantityValue (num:=num) (JStr text) = Ok None
  /\ (forall requested : option (NormalizedQuantity num),
        matchesQuantity (JStr text) requested = Ok true).
Proof.
  assert (He : extractQuantityFromTerm (num:=num) text = None).
  { unfold extractQuantityFromTerm. now rewrite (searchQuantity_needs_digit text Hno). }
  assert (Hn : normalizeQuantityValue (num:=num) (JStr text) = Ok None).
  { unfold normalizeQuantityValue.
    destruct (negb (truthy (JStr text)) || isString "N/A" (Some (JStr text)));
      [reflexivity|].
    simpl.
    rewrite (searchMulti_needs_digit _ (no_digit_lower_trim text Hno)).
    unfold parseQuantityToken.
    now rewrite (searchQuantity_needs_digit _ (no_digit_lower_trim text Hno)). }
  split; [exact He|]. split; [now rewrite He|]. split; [|split; [exact Hn|]].
  - intros p. apply filterProduct_quantity_stage. now rewrite He.
  - intros [requested|]; [|reflexivity]. unfold matchesQuantity. now rewrite Hn.
Qed.

(** X24. The processed-product test looks for its keywords anywhere in
    the name, in any letter case and inside longer words: a name that
    contains [pickle], [preserved], [canned], [jarred] or [dehydrated] is
    processed, and a tomato search drops every product of such a name
    before any other check.  A missing or empty name is never processed,
    and a search that is not for tomatoes drops no product as processed. *)
Theorem processed_keyword_anywhere (name before after keyword : string)
        (Hkeyword : In keyword ["pickle"; "preserved"; "canned"; "jarred"; "dehydrated"])
        (Hname : toLowerCase name = before ++ keyword ++ after) :
  isProcessedProduct (num:=num) (JStr name) = Ok true
  /\ (forall term requestedQty (p : product num),
        isTomatoSearch term = true -> p_name p = JStr name ->
        filterProduct term requestedQty p = Ok DropProcessed)
  /\ (forall term requestedQty (p : product num),
        isTomatoSearch term = false ->
        filterProduct term requestedQty p <> Ok DropProcessed)
  /\ isProcessedProduct (num:=num) JNull = Ok false
  /\ isProcessedProduct (num:=num) (JStr EmptyString) = Ok false.
Proof.
  assert (Hp : isProcessedProduct (num:=num) (JStr name) = Ok true).
  { unfold isProcessedProduct, stringOrEmpty. cbn [truthy].
    assert (Hne : nonEmpty name = true).
    { destruct name; [|reflexivity]. simpl in Hname.
      destruct before; simpl in Hname; [|discriminate].
      simpl in Hkeyword.
      repeat (destruct Hkeyword as [<- | Hkeyword]; [discriminate|]). destruct Hkeyword. }
    rewrite Hne. cbn [toStringJS bind]. f_equal. apply existsb_exists.
    exists (includes_ci keyword). split.
    - simpl in Hkeyword. unfold processedKeywords.
      repeat (destruct Hkeyword as [<- | Hkeyword]; [simpl; tauto|]). destruct Hkeyword.
    - rewrite Hname. apply includes_ci_inside. }
  split; [exact Hp|]. split; [|split; [|split; reflexivity]].
  - intros term requestedQty p Ht Hn. unfold filterProduct, logSkipped.
    now rewrite Ht, Hn, Hp.
  - intros term requestedQty p Ht. unfold filterProduct. rewrite Ht. cbn [bind].
    assert (Hlog : forall v, v <> DropProcessed -> logSkipped p v <> Ok DropProcessed).
    { intros v Hv Hd. apply logSkipped_verdict in Hd. congruence. }
    destruct (negb (p_available p)); [apply Hlog; discriminate|].
    match goal with |- (bind ?e _) <> _ => destruct e as [[]|] end; cbn [bind];
      try discriminate; [apply Hlog; discriminate|].
    destruct (quantityMismatch requestedQty (p_quantity p)) as [[]|]; cbn [bind];
      try discriminate.
    { destruct (toStringJS (p_name p)); cbn [bind]; [|discriminate].
      destruct (toStringJS (p_quantity p)); cbn [bind]; discriminate. }
    destruct (matchesSearchTerm (p_name p) term) as [[]|]; cbn [bind negb];
      try discriminate.
    apply Hlog; discriminate.
Qed.

(** X25. A normalised quantity has one of three units when its unit is
    known: grams for a weight, millilitres for a volume, pieces for a
    count; an unknown unit is kept in lower case with the category
    [unknown].  The category and the unit depend on the unit text only,
    whatever its letter case, never on the value. *)
Theorem normalizeQuantity_units (value other : num) (unit : string) :
  match qcategory (normalizeQuantity value unit) with
  | weight => qunit (normalizeQuantity value unit) = "g"
  | volume => qunit (normalizeQuantity value unit) = "ml"
  | count => qunit (normalizeQuantity value unit) = "pc"
  | unknown =>
      qunit (normalizeQuantity value unit) = toLowerCase unit
      /\ qvalue (normalizeQuantity value unit) = value
      /\ ~ In (toLowerCase unit) unitLiterals
  end
  /\ qcategory (normalizeQuantity other unit) = qcategory (normalizeQuantity value unit)
  /\ qunit (normalizeQuantity other unit) = qunit (normalizeQuantity value unit)
  /\ normalizeQuantity value (toLowerCase unit) = normalizeQuantity value unit.
Proof.
  split; [|split; [|split; [|symmetry; apply normalizeQuantity_lower]]].
  - rewrite normalizeQuantity_canonical.
    destruct (in_dec string_dec (toLowerCase unit) unitLiterals) as [Hin | Hout].
    + unfold canonicalQuantity. simpl in Hin.
      repeat (destruct Hin as [Hin | Hin]; [rewrite <- Hin; reflexivity|]).
      contradiction.
    + assert (Ht : forall lit, In lit unitLiterals -> (toLowerCase unit =? lit) = false).
      { intros lit Hlit. apply String.eqb_neq. intros He. rewrite He in Hout. contradiction. }
      unfold canonicalQuantity. cbv [has existsb].
      rewrite !Ht by (simpl; tauto). simpl. auto.
  - rewrite !normalizeQuantity_canonical. unfold canonicalQuantity.
    repeat match goal with |- context [if ?c then _ else _] => destruct c; [reflexivity|] end.
    reflexivity.
  - rewrite !normalizeQuantity_canonical. unfold canonicalQuantity.
    repeat match goal with |- context [if ?c then _ else _] => destruct c; [reflexivity|] end.
    reflexivity.
Qed.

(** X26. What is never exported.  A product extracted from a snippet
    that carries no delivery estimate ([eta_tag.title.text] missing or
    falsy), or that is sold out (a truthy [is_sold_out], or without that
    key an [inventory] not above zero), is kept by the filter of no search
    term: it gets the delivery time [N/A], respectively the flag
    [available = false], and is dropped for it, unless it was already
    dropped as a processed product. *)
Theorem never_exported (rupee : string) (entries : list (string * json num)) (idx : nat)
        (p : product num)
        (Hextracted : extractFields rupee (JObj entries) idx = Ok p)
        (Hnot : truthyV (andGet (andGet (lookup "eta_tag" entries) "title") "text") = false
                \/ (exists soldOut, lookup "is_sold_out" entries = Some soldOut
                                    /\ truthy soldOut = true)
                \/ (lookup "is_sold_out" entries = None
                    /\ exists inventory, lookup "inventory" entries = Some inventory
                                         /\ greaterThanZero inventory = Ok false)) :
  forall term requestedQty,
    filterProduct term requestedQty p <> Ok Keep
    /\ (filterProduct term requestedQty p = Ok DropProcessed
        \/ filterProduct term requestedQty p = Ok DropOutOfStock
        \/ filterProduct term requestedQty p = Ok DropNoDeliveryTime
        \/ filterProduct term requestedQty p = Throw).
Proof.
  intros term requestedQty.
  pose proof (extractFields_available rupee entries idx p Hextracted) as Havail.
  pose proof (extractFields_fields rupee (JObj entries) idx p Hextracted)
    as [_ [_ [_ [_ [_ [_ [Hdel _]]]]]]].
  simpl get in Hdel.
  assert (Hcases : p_available p = false \/ p_deliveryTime p = JStr "N/A").
  { destruct Hnot as [Heta | [[soldOut [Hs Ht]] | [Hs [inventory [Hi Hg]]]]].
    - right. rewrite Hdel.
      destruct (orElse_cases (andGet (andGet (lookup "eta_tag" entries) "title") "text")
                  (JStr "N/A")) as [[Hsome Htr] | [_ He]]; [|exact He].
      rewrite Hsome in Heta. simpl in Heta. congruence.
    - left. rewrite Hs in Havail. now rewrite Havail, Ht.
    - left. rewrite Hs, Hi in Havail. congruence. }
  assert (Hlog : forall v, v <> Keep ->
             logSkipped p v <> Ok Keep
             /\ (logSkipped p v = Ok v \/ logSkipped p v = Throw)).
  { intros v Hv. unfold logSkipped.
    destruct (toStringJS (p_name p)); cbn [bind]; split; auto; congruence. }
  unfold filterProduct.
  destruct (if isTomatoSearch term then isProcessedProduct (p_name p) else Ok false)
    as [[]|]; cbn [bind]; [| | split; [discriminate | auto]].
  { destruct (Hlog DropProcessed) as [Hk [Hv | Hv]]; [discriminate| |]; rewrite Hv in *; auto. }
  destruct Hcases as [Ha | Hd].
  - rewrite Ha. cbn [negb].
    destruct (Hlog DropOutOfStock) as [Hk [Hv | Hv]]; [discriminate| |]; rewrite Hv in *; auto.
  - destruct (p_available p); cbn [negb].
    + rewrite Hd. cbn -[logSkipped].
      destruct (Hlog DropNoDeliveryTime) as [Hk [Hv | Hv]]; [discriminate| |];
        rewrite Hv in *; auto.
    + destruct (Hlog DropOutOfStock) as [Hk [Hv | Hv]]; [discriminate| |];
        rewrite Hv in *; auto.
Qed.
End FilterEdges.

(** A request for onions, and a product sold by the piece without a count. *)
Lemma no_digit_no_quantity_witness :
  (forall c, In c (list_ascii_of_string "onion") -> isDigit c = false)
  /\ extractQuantityFromTerm (num:=double) "onion" = None.
Proof.
  assert (Hno : forall c, In c (list_ascii_of_string "onion") -> isDigit c = false).
  { intros c Hc. simpl in Hc.
    repeat (destruct Hc as [<- | Hc]; [reflexivity|]). destruct Hc. }
  split; [exact Hno|].
  exact (proj1 (no_digit_no_quantity (num:=double) "onion" Hno)).
Defined.

(** A name in which the keyword stands inside a longer word. *)
Lemma processed_keyword_anywhere_witness :
  In "pickle" ["pickle"; "preserved"; "canned"; "jarred"; "dehydrated"]
  /\ toLowerCase "Tomato Pickles 200g" = "tomato " ++ "pickle" ++ "s 200g"
  /\ isProcessedProduct (num:=double) (JStr "Tomato Pickles 200g") = Ok true.
Proof.
  split; [now left|]. split; [reflexivity|].
  exact (proj1 (processed_keyword_anywhere (num:=double) "Tomato Pickles 200g" "tomato " "s 200g"
                  "pickle" (or_introl eq_refl) eq_refl)).
Defined.

(** The potato of the samples is sold out. *)
Lemma never_exported_witness :
  exists entries p,
    get soldOutPotatoSnippet "data" = Some (JObj entries)
    /\ extractFields "Rs" (JObj entries) 1 = Ok p
    /\ forall term requestedQty, filterProduct term requestedQty p <> Ok Keep.
Proof.
  eexists. eexists. split; [reflexivity|].
  assert (He : extractFields "Rs"
                 (JObj [("name", JObj [("text", JStr "Potato")]);
                        ("identity", JObj [("id", JStr "p2")]);
                        ("variant", JObj [("text", JStr "1 kg")]);
                        ("eta_tag", JObj [("title", JObj [("text", JStr "10 mins")])]);
                        ("is_sold_out", JBool true)]) 1
               = Ok (Product (JStr "p2") (JStr "Potato") (JStr "Price Not Available") JNull JNull
                             (JStr "1 kg") (JStr "10 mins") JNull (JStr EmptyString) false))
    by (vm_compute; reflexivity).
  split; [exact He|].
  intros term requestedQty.
  refine (proj1 (never_exported (num:=double) "Rs" _ 1 _ He _ term requestedQty)).
  right. left. exists (JBool true). split; reflexivity.
Defined.
(** ** The address of a search *)

Lemma encodeChar_safe (c x : ascii) :
  In x (list_ascii_of_string (encodeChar c)) -> isUnreserved x = true \/ x = "%"%char.
Proof.
  destruct c as [[] [] [] [] [] [] [] []]; cbv [encodeChar]; simpl;
    intros Hin;
    repeat (destruct Hin as [<- | Hin]; [(left; reflexivity) || (right; reflexivity)|]);
    destruct Hin.
Qed.

Lemma percentDecode_encodeChar (c : ascii) (rest : string) :
  percentDecode (encodeChar c ++ rest)
  = match percentDecode rest with
    | Some r => Some (String c r)
    | None => None
    end.
Proof. destruct c as [[] [] [] [] [] [] [] []]; reflexivity. Qed.

Lemma percentDecode_encode (s : string) :
  percentDecode (encodeURIComponent s) = Some s.
Proof.
  induction s as [|c s IH]; [reflexivity|].
  simpl. now rewrite percentDecode_encodeChar, IH.
Qed.

Lemma encodeChar_unreserved (c : ascii) :
  isUnreserved c = true -> encodeChar c = String c EmptyString.
Proof. intros Hc. unfold encodeChar. now rewrite Hc. Qed.

Lemma append_cancel_l (p a b : string) : p ++ a = p ++ b -> a = b.
Proof. induction p as [|c p IH]; simpl; [auto | intros [= He]; auto]. Qed.

(** X27. The address of a search is [https://blinkit.com/s/?q=]
    followed by the escaped term.  The escaped term consists of letters,
    digits, the marks [- _ . ! ~ * ' ( )] and percent escapes only, so that
    no character of a term (a space, [&], [=], [#], [/], [?], [+]) can end
    the query or add a parameter; a term of unreserved characters is sent
    as it is; the escape can be undone, so that different terms are
    searched at different addresses.  The navigation succeeds exactly when
    the page reaches that address. *)
Theorem search_address_escaped (searchTerm : string) :
  (exists escaped,
      searchUrl searchTerm = "https://blinkit.com/s/?q=" ++ escaped
      /\ escaped = encodeURIComponent searchTerm
      /\ forall c, In c (list_ascii_of_string escaped) ->
                   isUnreserved c = true \/ c = "%"%char)
  /\ percentDecode (encodeURIComponent searchTerm) = Some searchTerm
  /\ (forall other, searchUrl other = searchUrl searchTerm -> other = searchTerm)
  /\ ((forall c, In c (list_ascii_of_string searchTerm) -> isUnreserved c = true) ->
      encodeURIComponent searchTerm = searchTerm)
  /\ (forall gotoResolves,
        navigateToSearch gotoResolves searchTerm = gotoResolves (searchUrl searchTerm))
  /\ searchUrl "onions 1kg" = "https://blinkit.com/s/?q=onions%201kg".
Proof.
  split; [|split; [|split; [|split; [|split]]]].
  - exists (encodeURIComponent searchTerm). split; [reflexivity|]. split; [reflexivity|].
    induction searchTerm as [|x s IH]; simpl; [intros c []|].
    intros c Hc. apply In_append in Hc as [Hc | Hc];
      [now apply (encodeChar_safe x) | now apply IH].
  - apply percentDecode_encode.
  - intros other Hurl. unfold searchUrl in Hurl. apply append_cancel_l in Hurl.
    pose proof (percentDecode_encode other) as Ho. rewrite Hurl in Ho.
    rewrite percentDecode_encode in Ho. now injection Ho.
  - induction searchTerm as [|x s IH]; intros Hall; [reflexivity|].
    simpl. rewrite encodeChar_unreserved by (apply Hall; now left).
    simpl. rewrite IH; [reflexivity|]. intros c Hc. apply Hall. now right.
  - reflexivity.
  - reflexivity.
Qed.
(** ** From the request to the download *)






Lemma digit_not_slash (c : ascii) : isDigit c = true -> c <> "/"%char.
Proof. intros Hd ->. discriminate. Qed.

Section Composition.
Context {num : Type} `{JsNumber num}.
Variable rupee : string.


Lemma runBlinkitBatchCsv_filename (s : site) (input : batchInput) report evs :
  runBlinkitBatchCsv rupee s input = (Completed report, evs) ->
  filename report = "blinkit-search-" ++ now s ++ ".csv".
Proof.
  unfold runBlinkitBatchCsv.
  destruct (validateInput input); [discriminate|].
  destruct (pincodes input); [discriminate|].
  destruct (searchTerms input); [discriminate|].
  destruct (withDefault (quantities input)); [discriminate|].
  destruct (negb (mkdirSucceeds s)); [discriminate|].
  destruct (negb (launchSucceeds s)); [discriminate|].
  destruct (forEachPincode rupee s _ _) as [[rows|] found]; [|discriminate].
  destruct (negb (browserCloses s)); [discriminate|].
  destruct (buildCsv rows); [|discriminate].
  destruct (negb (writeSucceeds s)); [discriminate|].
  intros Hrun.
  apply (f_equal (fun o => match fst o with Completed r => filename r | _ => EmptyString end))
    in Hrun.
  cbn [fst filename] in Hrun. now symmetry.
Qed.

(** X29. The file a batch reports can be downloaded under the name it
    reports.  When the clock reads a number, the reported name is
    [blinkit-search-<number>.csv]; the download route never refuses it as
    an invalid name, and serves it under that very name as soon as the
    output directory holds a regular file of that name. *)
Theorem reported_file_downloadable (s : site) (input : batchInput) report evs
        (Hrun : runBlinkitBatchCsv rupee s input = (Completed report, evs))
        (Hnow : forall c, In c (list_ascii_of_string (now s)) -> isDigit c = true) :
  filename report = "blinkit-search-" ++ now s ++ ".csv"
  /\ basename (filename report) = filename report
  /\ forall output,
       getBatchCsv output (filename report)
       = match output with
         | None => Status404 "File not found"
         | Some entries =>
             match entries (filename report) with
             | RegularFile => Status200 (filename report)
             | Directory => Status404 "API endpoint not found"
             | Missing => Status404 "File not found"
             end
         end.
Proof.
  pose proof (runBlinkitBatchCsv_filename s input report evs Hrun) as Hname.
  assert (Hplain : basename (filename report) = filename report).
  { apply basename_plain. rewrite Hname. intros Hin.
    apply In_append in Hin as [Hin | Hin].
    - simpl in Hin. repeat (destruct Hin as [Hd | Hin]; [discriminate|]). destruct Hin.
    - apply In_append in Hin as [Hin | Hin].
      + exact (digit_not_slash _ (Hnow _ Hin) eq_refl).
      + simpl in Hin. repeat (destruct Hin as [Hd | Hin]; [discriminate|]). destruct Hin. }
  split; [exact Hname|]. split; [exact Hplain|].
  intros output. unfold getBatchCsv. cbv zeta. rewrite Hplain.
  rewrite String.eqb_refl.
  assert (Hne : nonEmpty (filename report) = true) by (now rewrite Hname).
  rewrite Hne. cbn [negb orb]. unfold outputEntry, download.
  assert (Hup : (filename report =? "..") = false) by (now rewrite Hname).
  assert (Hdot : (filename report =? ".") = false) by (now rewrite Hname).
  assert (Hhidden : isDotfile (filename report) = false) by (now rewrite Hname).
  rewrite Hup, Hhidden.
  destruct output as [entries|]; [|reflexivity].
  rewrite Hdot. destruct (entries (filename report)); reflexivity.
Qed.
End Composition.


Lemma reported_file_downloadable_witness :
  exists report evs,
    runBlinkitBatchCsv "Rs" patchySite onionInput = (Completed report, evs)
    /\ (forall c, In c (list_ascii_of_string (now patchySite)) -> isDigit c = true)
    /\ getBatchCsv (Some (fun _ => RegularFile)) (filename report)
       = Status200 (filename report).
Proof.
  destruct (runBlinkitBatchCsv "Rs" patchySite onionInput) as [out evs] eqn:Hrun.
  assert (Hout : exists report, out = Completed report).
  { vm_compute in Hrun. injection Hrun as <- _. eexists. reflexivity. }
  destruct Hout as [report ->].
  assert (Hnow : forall c, In c (list_ascii_of_string (now patchySite)) -> isDigit c = true).
  { intros c Hc. simpl in Hc.
    repeat (destruct Hc as [<- | Hc]; [reflexivity|]). destruct Hc. }
  exists report, evs. split; [reflexivity|]. split; [exact Hnow|].
  rewrite (proj2 (proj2 (reported_file_downloadable "Rs" patchySite onionInput report evs
                           Hrun Hnow)) (Some (fun _ => RegularFile))).
  reflexivity.
Defined.
